(** * BlenderUtils: helper scripts over the host scripting API

    The five utility classes of the repository are sequences of calls into
    the host application (bpy), the Python standard library (subprocess, os)
    and the FilePath helper class.  A source function is embedded as a
    program over the calls it makes: every call is an event, answered by a
    handler that owns the host state and may raise a Python exception. *)

From stdpp Require Import gmap strings pretty list fin_maps.
From Stdlib Require Import ZArith Ascii.

Local Open Scope string_scope.
Local Open Scope stdpp_scope.
Local Open Scope list_scope.

(** ** Python values that cross the API *)

(** Handle of a host-owned struct (object, collection, data block, node
    tree, node, socket, link, file slot, vector, matrix). *)
Definition ID := nat.

(** Key of a host collection subscript: [coll["name"]] or [coll[0]]. *)
Inductive key : Type :=
| KStr (s : string)
| KInt (i : Z).

(** Numbers handed to the host: an int, a float literal with an integral
    value ([0.0] is [PyFloat 0]), and the floats [float(x)] and
    [math.radians(x)], which are kept symbolic. *)
Inductive pynum : Type :=
| PyInt (z : Z)
| PyFloat (z : Z)
| float_of (x : pynum)
| radians (x : pynum).

(** ** Exceptions *)

Inductive exn_class : Type :=
| ReferenceError
| KeyError
| IndexError
| AttributeError
| TypeError
| RuntimeError
| RecursionError
| FileNotFoundError
| FileExistsError
| OSError.

#[global] Instance exn_class_eq_dec : EqDecision exn_class.
Proof. solve_decision. Defined.

Record exn : Type := Exn { exn_type : exn_class; exn_msg : string }.

#[global] Instance exn_eq_dec : EqDecision exn.
Proof. solve_decision. Defined.

Inductive result (A : Type) : Type :=
| Ok (a : A)
| Err (e : exn).
Arguments Ok {A} a.
Arguments Err {A} e.

(** [except cls:] catches the instances of [cls]; [OSError] is the base
    class of the two file errors. *)
Definition isinstance (e : exn) (cls : exn_class) : bool :=
  match cls, exn_type e with
  | OSError, (OSError | FileNotFoundError | FileExistsError) => true
  | _, _ => bool_decide (exn_type e = cls)
  end.

(** Attribute access on [None]. *)
Definition NoneType_has_no_attribute (attr : string) : exn :=
  Exn AttributeError ("'NoneType' object has no attribute '" +:+ attr +:+ "'").

Definition list_index_out_of_range : exn :=
  Exn IndexError "list index out of range".

Definition maximum_recursion_depth_exceeded : exn :=
  Exn RecursionError "maximum recursion depth exceeded".

(** ** The FilePath helper class *)

(** Modelled from the spec: the class [Utilities.FileObjects.FilePath] is
    imported by CompositorUtilities but is not part of the sources.  A
    FilePath has a directory, a file name and an extension; the attributes
    [fileName] and [fileExt] are read and assigned by the sources,
    [getFullPath(path_only=True)] is the directory and [getFullPath()] is
    the full path directory/name.extension. *)
Record FilePath : Type := mkFilePath {
  fileDir : string;
  fileName : string;
  fileExt : string
}.

#[global] Instance FilePath_eq_dec : EqDecision FilePath.
Proof. solve_decision. Defined.

Definition getFullPath (fp : FilePath) (path_only : bool) : string :=
  if path_only then fileDir fp
  else fileDir fp +:+ "/" +:+ fileName fp +:+ "." +:+ fileExt fp.

Definition set_fileName (fp : FilePath) (n : string) : FilePath :=
  mkFilePath (fileDir fp) n (fileExt fp).

Definition set_fileExt (fp : FilePath) (e : string) : FilePath :=
  mkFilePath (fileDir fp) (fileName fp) e.

(** ** Calls made by the sources

    One constructor for each attribute access, subscript, method or
    operator of the host, of [subprocess], [os] and the builtins that the
    sources use; the index is the type of the answer.  A loop over a host
    collection asks for its elements once, when it starts: the host
    iterator has already advanced when the loop body runs, so a body that
    removes the current element does not disturb the traversal. *)

Inductive hostE : Type -> Type :=
(* subprocess, builtins, os *)
| subprocess_run (args : list string) : hostE Z
| print (s : string) : hostE unit
| os_path_exists (path : string) : hostE bool
| os_remove (path : string) : hostE unit
| os_rename (src dst : string) : hostE unit
(* bpy.data *)
| data_collections : hostE (list ID)
| data_collections_getitem (name : string) : hostE ID
| data_collections_new (name : string) : hostE ID
| data_cameras_new (name : string) : hostE ID
| data_objects_new (name : string) (data : ID) : hostE ID
| data_objects_remove (o : ID) : hostE unit
| data_meshes_remove (m : ID) : hostE unit
| data_materials : hostE (list ID)
| data_materials_remove (m : ID) : hostE unit
| data_images : hostE (list ID)
| data_images_remove (i : ID) : hostE unit
| data_images_load (path : string) (check_existing : bool) : hostE ID
(* ID data blocks, objects and collections *)
| id_name (x : ID) : hostE string
| id_users (x : ID) : hostE nat
| object_type (o : ID) : hostE string
| object_data (o : ID) : hostE (option ID)
| object_parent (o : ID) : hostE (option ID)
| object_children (o : ID) : hostE (list ID)
| object_select_set (o : ID) (state : bool) : hostE unit
| object_set_location (o : ID) (loc : list pynum) : hostE unit
| object_set_rotation_euler (o : ID) (rot : list pynum) : hostE unit
| object_location (o : ID) : hostE ID
| object_set_location_vector (o : ID) (v : ID) : hostE unit
| object_matrix_world (o : ID) : hostE ID
| object_active_material (o : ID) : hostE (option ID)
| collection_objects (c : ID) : hostE (list ID)
| collection_objects_link (c o : ID) : hostE unit
(* bpy.context *)
| scene_collection_children_link (c : ID) : hostE unit
| active_layer_collection : hostE ID
| scene_camera : hostE (option ID)
| scene_set_camera (o : ID) : hostE unit
| scene_objects : hostE (list ID)
| scene_objects_getitem (name : string) : hostE ID
| scene_frame_set (frame : Z) : hostE unit
| scene_set_use_nodes (b : bool) : hostE unit
| scene_node_tree : hostE (option ID)
| context_selected_objects : hostE (list ID)
| view_layer_objects_set_active (o : ID) : hostE unit
(* bpy.ops *)
| ops_object_select_all (action : string) : hostE unit
| ops_object_join : hostE unit
| ops_object_duplicate : hostE unit
| ops_view3d_camera_to_view_selected : hostE unit
| ops_render_render (write_still : bool) : hostE unit
(* mathutils *)
| mathutils_Vector (xyz : list pynum) : hostE ID
| matrix_copy (m : ID) : hostE ID
| matrix_invert (m : ID) : hostE unit
| vector_matmul (v m : ID) : hostE ID
| vector_add (a b : ID) : hostE ID
(* node trees *)
| material_node_tree (m : ID) : hostE (option ID)
| tree_nodes (t : ID) : hostE (list ID)
| tree_nodes_new (t : ID) (type : string) : hostE ID
| tree_nodes_remove (t : ID) (n : ID) : hostE unit
| tree_nodes_get (t : ID) (name : string) : hostE (option ID)
| tree_links_new (t : ID) (from to : ID) : hostE ID
| node_type (n : ID) : hostE string
| node_image (n : ID) : hostE (option ID)
| node_set_image (n : ID) (img : ID) : hostE unit
| node_inputs_getitem (n : ID) (k : key) : hostE ID
| node_outputs_getitem (n : ID) (k : key) : hostE ID
| node_set_base_path (n : ID) (path : string) : hostE unit
| node_file_slots (n : ID) : hostE (list ID)
| node_format_set_file_format (n : ID) (fmt : string) : hostE unit
| node_format_set_color_mode (n : ID) (mode : string) : hostE unit
| node_set_blend_type (n : ID) (t : string) : hostE unit
| file_slot_set_path (slot : ID) (path : string) : hostE unit
| socket_links_len (s : ID) : hostE nat
| socket_links_getitem (s : ID) (i : Z) : hostE ID
| link_from_node (l : ID) : hostE ID
| image_filepath (img : ID) : hostE string
| image_set_colorspace_name (img : ID) (name : string) : hostE unit.

(** A call with its result type packed. *)
Inductive host_call : Type :=
| Call {X : Type} (c : hostE X).

(** ** Programs *)

Inductive prog (R : Type) : Type :=
| Ret (r : R)
| Throw (e : exn)
| Vis {X : Type} (c : hostE X) (k : X -> prog R)
| TryExcept {X : Type} (body : prog X) (cls : exn_class) (handler : prog X)
    (k : X -> prog R).
Arguments Ret {R} r.
Arguments Throw {R} e.
Arguments Vis {R X} c k.
Arguments TryExcept {R X} body cls handler k.

Fixpoint bind {A B : Type} (p : prog A) (f : A -> prog B) : prog B :=
  match p with
  | Ret r => f r
  | Throw e => Throw e
  | Vis c k => Vis c (fun x => bind (k x) f)
  | TryExcept body cls handler k =>
      TryExcept body cls handler (fun x => bind (k x) f)
  end.

Definition call (X : Type) (c : hostE X) : prog X := Vis c Ret.
Arguments call {X} c.

(** [try: body except cls: handler] *)
Definition try_except {X : Type} (body : prog X) (cls : exn_class)
    (handler : prog X) : prog X :=
  TryExcept body cls handler Ret.

Declare Scope prog_scope.
Delimit Scope prog_scope with prog.
Bind Scope prog_scope with prog.
Notation "x <- p ;; q" := (bind p (fun x => q))
  (at level 100, p at next level, right associativity) : prog_scope.
Notation "p ;; q" := (bind p (fun _ => q))
  (at level 100, right associativity) : prog_scope.
Local Open Scope prog_scope.

(** [for x in l: body x] without [break] or [return] in the body. *)
Fixpoint for_in {A : Type} (l : list A) (body : A -> prog unit) : prog unit :=
  match l with
  | [] => Ret tt
  | x :: l' => body x;; for_in l' body
  end.

(** Outcome of one iteration of a loop whose body may [break] or [return]. *)
Inductive flow (R : Type) : Type :=
| Next
| Break
| Return (r : R).
Arguments Next {R}.
Arguments Break {R}.
Arguments Return {R} r.

(** [for x in l: body x]; the result is [Some r] when the body executed
    [return r], and [None] when the loop ended or was left by [break]. *)
Fixpoint for_flow {A R : Type} (l : list A) (body : A -> prog (flow R))
    : prog (option R) :=
  match l with
  | [] => Ret None
  | x :: l' =>
      f <- body x;;
      match f with
      | Next => for_flow l' body
      | Break => Ret None
      | Return r => Ret (Some r)
      end
  end.

(** [[f(x) for x in l]] *)
Fixpoint list_comp {A B : Type} (l : list A) (f : A -> prog B) : prog (list B) :=
  match l with
  | [] => Ret []
  | x :: l' => y <- f x;; ys <- list_comp l' f;; Ret (y :: ys)
  end.

(** [[x for x in l if cond(x)]] *)
Fixpoint list_comp_if {A : Type} (l : list A) (cond : A -> prog bool)
    : prog (list A) :=
  match l with
  | [] => Ret []
  | x :: l' =>
      b <- cond x;;
      ys <- list_comp_if l' cond;;
      Ret (if b then x :: ys else ys)
  end.

(** Truth value of a [str] or [None] argument. *)
Definition truthy (s : option string) : bool :=
  match s with
  | Some s => negb (String.eqb s "")
  | None => false
  end.

(** Truth value of a host struct: a bpy_struct defines neither [__bool__]
    nor [__len__], so it is always true. *)
Definition struct_truthy (x : ID) : bool := true.

(** [l[0]] on a Python list. *)
Definition list_first {A : Type} (l : list A) : prog A :=
  match l with
  | x :: _ => Ret x
  | [] => Throw list_index_out_of_range
  end.

(** [x.attr] where [x] may be [None]. *)
Definition not_None {A : Type} (x : option A) (attr : string) : prog A :=
  match x with
  | Some a => Ret a
  | None => Throw (NoneType_has_no_attribute attr)
  end.

(** ** BatchUtilities.py *)

Module BatchUtilites.

Definition BlENDER_EXE : string :=
  "C:\Program Files\Blender Foundation\Blender 3.3\blender.exe".

Definition runBatchProcess (python_file : string) (args : list string)
    : prog unit :=
  let args :=
    [ BlENDER_EXE;
      "--background";
      "--python";
      python_file;
      "--" ] ++ args in
  call (subprocess_run args);;
  Ret tt.

End BatchUtilites.

(** ** DataUtilities.py *)

(** A Python [set] of host structs (hashed by identity), kept in insertion
    order. *)
Definition set_add {A : Type} `{EqDecision A} (x : A) (s : list A) : list A :=
  if bool_decide (x ∈ s) then s else s ++ [x].

(** A loop that updates a local variable. *)
Fixpoint for_acc {A S : Type} (l : list A) (s : S) (body : A -> S -> prog S)
    : prog S :=
  match l with
  | [] => Ret s
  | x :: l' => s' <- body x s;; for_acc l' s' body
  end.

(** A host function that expects a struct was given [None]. *)
Definition expect_struct (x : option ID) : prog ID :=
  match x with
  | Some a => Ret a
  | None => Throw (Exn TypeError "expected a struct, not NoneType")
  end.

(** A host function that expects a [str] was given [None]. *)
Definition expect_str (x : option string) : prog string :=
  match x with
  | Some a => Ret a
  | None => Throw (Exn TypeError "expected a string type, not NoneType")
  end.

Module DataUtilities.

(** The host iterator over [objects] has already advanced when the loop
    body runs, so removing the current object does not disturb the
    traversal: the loop visits the objects the collection had on entry. *)
Definition purgeMeshObjectsFromCollection (collection_name : string)
    (remove_meshes remove_materials remove_images : bool) : prog unit :=
  objects <- call (data_collections_getitem collection_name);;
  let meshes : list (option ID) := [] in
  objs <- call (collection_objects objects);;
  meshes <- for_acc objs meshes (fun obj meshes =>
    t <- call (object_type obj);;
    meshes <- (if String.eqb t "MESH"
               then d <- call (object_data obj);; Ret (set_add d meshes)
               else Ret meshes);;
    call (data_objects_remove obj);;
    Ret meshes);;
  (if remove_meshes then
     orphans <- list_comp_if meshes (fun m =>
       m <- not_None m "users";;
       u <- call (id_users m);;
       Ret (Nat.eqb u 0));;
     for_in orphans (fun mesh =>
       mesh <- expect_struct mesh;;
       call (data_meshes_remove mesh))
   else Ret tt);;
  (if remove_materials then
     mats <- call data_materials;;
     orphans <- list_comp_if mats (fun mat =>
       u <- call (id_users mat);;
       Ret (Nat.eqb u 0));;
     for_in orphans (fun material => call (data_materials_remove material))
   else Ret tt);;
  (if remove_images then
     imgs <- call data_images;;
     orphans <- list_comp_if imgs (fun i =>
       u <- call (id_users i);;
       Ret (Nat.eqb u 0));;
     for_in orphans (fun image => call (data_images_remove image))
   else Ret tt);;
  Ret tt.

End DataUtilities.

(** ** SceneUtilities.py *)

(** [repr] of a list of [str], for names without quotes or escapes. *)
Definition repr_str (s : string) : string := "'" +:+ s +:+ "'".

Fixpoint join_str (sep : string) (l : list string) : string :=
  match l with
  | [] => ""
  | [s] => s
  | s :: l' => s +:+ sep +:+ join_str sep l'
  end.

Definition repr_list (l : list string) : string :=
  "[" +:+ join_str ", " (map repr_str l) +:+ "]".

Module SceneUtilities.

Definition createCamera (name : string) (collection : option string)
    (location rotation : list pynum)
    (create_if_camera_exists set_as_active : bool) : prog (option ID) :=
  camCollection <-
    (if truthy collection then
       collection <- expect_str collection;;
       colls <- call data_collections;;
       camCollection <- list_comp_if colls (fun x =>
         n <- call (id_name x);;
         Ret (String.eqb collection n));;
       match camCollection with
       | [] =>
           camCollection <- call (data_collections_new collection);;
           call (scene_collection_children_link camCollection);;
           Ret camCollection
       | c :: _ => Ret c
       end
     else
       camCollection <- call active_layer_collection;;
       n <- call (id_name camCollection);;
       call (print ("Use current active collection [" +:+ n +:+ "]"));;
       Ret camCollection);;
  let objects := camCollection in
  found <-
    (if negb create_if_camera_exists then
       call (print "check existing");;
       objs <- call (collection_objects objects);;
       for_flow objs (fun obj =>
         n <- call (id_name obj);;
         call (print n);;
         t <- call (object_type obj);;
         call (print t);;
         t <- call (object_type obj);;
         if String.eqb t "CAMERA" then
           n <- call (id_name obj);;
           cn <- call (id_name camCollection);;
           call (print ("WARNING:: Camera [" +:+ n
                        +:+ "] already exists in collection [" +:+ cn +:+ "]"));;
           Ret (Return tt)
         else Ret Next)
     else Ret None);;
  match found with
  | Some _ => Ret None
  | None =>
      camera <- call (data_cameras_new name);;
      camera <- call (data_objects_new name camera);;
      call (object_set_location camera location);;
      call (object_set_rotation_euler camera (map radians rotation));;
      (if struct_truthy camCollection
       then call (collection_objects_link camCollection camera)
       else Ret tt);;
      (if set_as_active then call (scene_set_camera camera) else Ret tt);;
      Ret (Some camera)
  end.

Definition moveCameraToViewSelected (objects : list ID) (camera_name : string)
    (camera_backwards_offset : pynum) : prog unit :=
  for_in objects (fun o => call (object_select_set o true));;
  call ops_view3d_camera_to_view_selected;;
  camera <- call (scene_objects_getitem camera_name);;
  vec <- call (mathutils_Vector
                 [PyFloat 0; PyFloat 0; float_of camera_backwards_offset]);;
  m <- call (object_matrix_world camera);;
  inv <- call (matrix_copy m);;
  call (matrix_invert inv);;
  loc <- call (object_location camera);;
  off <- call (vector_matmul vec inv);;
  v <- call (vector_add loc off);;
  call (object_set_location_vector camera v);;
  Ret tt.

(** The recursive functions take the interpreter's remaining stack depth;
    a call beyond it raises RecursionError. *)
Fixpoint selectChildren (depth : nat) (parent : ID)
    (recursive select_parent : bool) : prog unit :=
  match depth with
  | O => Throw maximum_recursion_depth_exceeded
  | S depth =>
      (if select_parent then call (object_select_set parent true)
       else Ret tt);;
      children <- call (object_children parent);;
      for_in children (fun child =>
        call (object_select_set child true);;
        if recursive then selectChildren depth child true false
        else Ret tt)
  end.

Fixpoint getChildren (depth : nat) (parent : ID)
    (include_meshes recursive : bool) : prog (list (option ID)) :=
  match depth with
  | O => Throw maximum_recursion_depth_exceeded
  | S depth =>
      let children : list (option ID) := [] in
      cs <- call (object_children parent);;
      for_acc cs children (fun child children =>
        let children := children ++ [Some child] in
        children <-
          (if include_meshes then
             d <- call (object_data child);;
             match d with
             | Some _ => d <- call (object_data child);; Ret (children ++ [d])
             | None => Ret children
             end
           else Ret children);;
        if recursive then
          sub <- getChildren depth child true true;;
          Ret (children ++ sub)
        else Ret children)
  end.

Fixpoint getChildMeshes (depth : nat) (parent : ID)
    (recursive include_root : bool) : prog (list (option ID)) :=
  match depth with
  | O => Throw maximum_recursion_depth_exceeded
  | S depth =>
      let children : list (option ID) := [] in
      children <-
        (if include_root then
           d <- call (object_data parent);;
           match d with
           | Some _ => d <- call (object_data parent);; Ret (children ++ [d])
           | None => Ret children
           end
         else Ret children);;
      cs <- call (object_children parent);;
      for_acc cs children (fun child children =>
        d <- call (object_data child);;
        children <-
          match d with
          | Some _ => d <- call (object_data child);; Ret (children ++ [d])
          | None => Ret children
          end;;
        if recursive then
          sub <- getChildMeshes depth child true false;;
          Ret (children ++ sub)
        else Ret children)
  end.

Definition duplicateObject (depth : nat) (mesh : ID) (include_parent : bool)
    : prog ID :=
  (if include_parent then call (object_select_set mesh true) else Ret tt);;
  selectChildren depth mesh true false;;
  sel <- call context_selected_objects;;
  first <- list_first sel;;
  call (view_layer_objects_set_active first);;
  call ops_object_join;;
  call ops_object_duplicate;;
  sel <- call context_selected_objects;;
  list_first sel.

Definition joinObjects (depth : nat) (active_parent secondary_parent : ID)
    (cleanup_empties : bool) : prog unit :=
  call (ops_object_select_all "DESELECT");;
  selectChildren depth active_parent true true;;
  selectChildren depth secondary_parent true true;;
  objs <- call scene_objects;;
  sceneMeshes <- list_comp_if objs (fun m =>
    t <- call (object_type m);;
    Ret (String.eqb t "MESH"));;
  names <- list_comp sceneMeshes (fun x => call (id_name x));;
  call (print ("Scene meshes: " +:+ repr_list names));;
  for_flow (R := Empty_set) sceneMeshes (fun mesh =>
    n <- call (id_name mesh);;
    an <- call (id_name active_parent);;
    if String.eqb n an then
      n <- call (id_name mesh);;
      call (print ("JOIN from mesh: mesh name - " +:+ n));;
      call (view_layer_objects_set_active mesh);;
      Ret Break
    else
      p <- call (object_parent mesh);;
      match p with
      | None => Ret Next
      | Some _ =>
          an <- call (id_name active_parent);;
          p <- call (object_parent mesh);;
          p <- not_None p "name";;
          pn <- call (id_name p);;
          if String.eqb an pn then
            p <- call (object_parent mesh);;
            p <- not_None p "name";;
            pn <- call (id_name p);;
            n <- call (id_name mesh);;
            call (print ("JOIN: parent name - " +:+ pn +:+ " from mesh " +:+ n));;
            call (view_layer_objects_set_active mesh);;
            Ret Break
          else Ret Next
      end);;
  call ops_object_join;;
  call (ops_object_select_all "DESELECT");;
  (if cleanup_empties then
     try_except
       (call (data_objects_remove secondary_parent))
       ReferenceError
       (Ret tt)
   else Ret tt);;
  Ret tt.

End SceneUtilities.

(** ** CompositorUtilities.py *)

(** [s.replace(old, new)] *)
Fixpoint str_interleave (new s : string) : string :=
  match s with
  | EmptyString => new
  | String c s' => new +:+ String c (str_interleave new s')
  end.

Fixpoint str_drop (n : nat) (s : string) : string :=
  match n, s with
  | O, _ => s
  | S n, String _ s' => str_drop n s'
  | S _, EmptyString => EmptyString
  end.

Fixpoint str_replace_from (fuel : nat) (s old new : string) : string :=
  match fuel with
  | O => s
  | S fuel =>
      if String.prefix old s
      then new +:+ str_replace_from fuel (str_drop (String.length old) s) old new
      else match s with
           | EmptyString => EmptyString
           | String c s' => String c (str_replace_from fuel s' old new)
           end
  end.

Definition str_replace (s old new : string) : string :=
  if String.eqb old "" then str_interleave new s
  else str_replace_from (S (String.length s)) s old new.

(** Modelled from the spec: [FilePath.exists()] and [FilePath.removeFile()]
    belong to the FilePath class, which is not part of the sources; they
    test and delete the file at the full path. *)
Definition FilePath_exists (fp : FilePath) : prog bool :=
  call (os_path_exists (getFullPath fp false)).

Definition FilePath_removeFile (fp : FilePath) : prog unit :=
  call (os_remove (getFullPath fp false)).

Module CompositorUtilities.

Definition initCompositor (output_node_type : string) : prog (ID * ID) :=
  call (scene_set_use_nodes true);;
  nodeTree <- call scene_node_tree;;
  nodeTree <- not_None nodeTree "nodes";;
  outputNode <- call (tree_nodes_new nodeTree output_node_type);;
  Ret (nodeTree, outputNode).

Definition renderComposition (node_tree : ID) (do_cleanup : bool) (frame : Z)
    : prog unit :=
  cam <- call scene_camera;;
  (if negb (bool_decide (is_Some cam)) then
     call (print "COMPOSITOR UTILS: creating RenderCam in active collection");;
     SceneUtilities.createCamera "RenderCam" None
       [PyInt 0; PyInt 0; PyInt 0] [PyInt 0; PyInt 0; PyInt 0] false true;;
     Ret tt
   else Ret tt);;
  call (scene_frame_set frame);;
  call (ops_render_render true);;
  (if do_cleanup then
     nodes <- call (tree_nodes node_tree);;
     for_in nodes (fun node => call (tree_nodes_remove node_tree node))
   else Ret tt);;
  Ret tt.

Definition removeBlenderFrameSuffix (file_path : FilePath) (frame : Z)
    : prog unit :=
  e <- FilePath_exists file_path;;
  (if e then FilePath_removeFile file_path else Ret tt);;
  let tmpOutput :=
    getFullPath file_path true +:+ "/" +:+ fileName file_path +:+ "0000"
      +:+ "." +:+ fileExt file_path in
  call (os_rename tmpOutput (getFullPath file_path false));;
  Ret tt.

Section WithFilePath.

(** The constructor [FilePath(path, has_name=True)] of the missing class. *)
Variable FilePath_init : string -> bool -> FilePath.

Definition extractAlphaToGreyscale (src_img : string)
    (dst_img dst_suffix : option string) (format : string)
    (do_cleanup : bool) : prog FilePath :=
  init <- initCompositor "CompositorNodeOutputFile";;
  let '(nodeTree, outputNode) := init in
  inputNode <- call (tree_nodes_new nodeTree "CompositorNodeImage");;
  o1 <- call (node_outputs_getitem inputNode (KInt 1));;
  i0 <- call (node_inputs_getitem outputNode (KInt 0));;
  call (tree_links_new nodeTree o1 i0);;
  let srcTex := FilePath_init src_img true in
  img <- call (data_images_load (getFullPath srcTex false) true);;
  call (node_set_image inputNode img);;
  dstTex <-
    (if truthy dst_img then
       dst_img <- expect_str dst_img;;
       Ret (FilePath_init dst_img true)
     else if truthy dst_suffix then
       dst_suffix <- expect_str dst_suffix;;
       let dstTex := FilePath_init (getFullPath srcTex true) false in
       let dstTex :=
         set_fileName dstTex (join_str "_" [fileName srcTex; dst_suffix]) in
       let dstTex := set_fileExt dstTex (fileExt srcTex) in
       Ret dstTex
     else
       Ret (FilePath_init (getFullPath srcTex false) true));;
  call (node_set_base_path outputNode (getFullPath dstTex true));;
  slots <- call (node_file_slots outputNode);;
  for_in slots (fun filePath =>
    call (file_slot_set_path filePath (fileName dstTex)));;
  call (node_format_set_file_format outputNode format);;
  call (node_format_set_color_mode outputNode "BW");;
  renderComposition nodeTree do_cleanup 0;;
  removeBlenderFrameSuffix dstTex 0;;
  Ret dstTex.

Definition packGreyscaleToAlpha (src_rgb src_greyscale : string)
    (expected_src_suffix dst_suffix format : string) (do_cleanup : bool)
    : prog unit :=
  init <- initCompositor "CompositorNodeOutputFile";;
  let '(nodeTree, outputNode) := init in
  inputRgbNode <- call (tree_nodes_new nodeTree "CompositorNodeImage");;
  inputAlphaNode <- call (tree_nodes_new nodeTree "CompositorNodeImage");;
  splitNode <- call (tree_nodes_new nodeTree "CompositorNodeSeparateXYZ");;
  mergeNode <- call (tree_nodes_new nodeTree "CompositorNodeCombineColor");;
  let srcRgbTex := FilePath_init src_rgb true in
  img <- call (data_images_load (getFullPath srcRgbTex false) true);;
  call (node_set_image inputRgbNode img);;
  let srcAlphaTex := FilePath_init src_greyscale true in
  img <- call (data_images_load (getFullPath srcAlphaTex false) true);;
  call (node_set_image inputAlphaNode img);;
  im <- call (node_image inputAlphaNode);;
  im <- not_None im "colorspace_settings";;
  call (image_set_colorspace_name im "Non-Color");;
  a <- call (node_outputs_getitem inputRgbNode (KInt 0));;
  b <- call (node_inputs_getitem splitNode (KInt 0));;
  call (tree_links_new nodeTree a b);;
  a <- call (node_outputs_getitem splitNode (KInt 0));;
  b <- call (node_inputs_getitem mergeNode (KInt 0));;
  call (tree_links_new nodeTree a b);;
  a <- call (node_outputs_getitem splitNode (KInt 1));;
  b <- call (node_inputs_getitem mergeNode (KInt 1));;
  call (tree_links_new nodeTree a b);;
  a <- call (node_outputs_getitem splitNode (KInt 2));;
  b <- call (node_inputs_getitem mergeNode (KInt 2));;
  call (tree_links_new nodeTree a b);;
  a <- call (node_outputs_getitem inputAlphaNode (KInt 0));;
  b <- call (node_inputs_getitem mergeNode (KInt 3));;
  call (tree_links_new nodeTree a b);;
  a <- call (node_outputs_getitem mergeNode (KInt 0));;
  b <- call (node_inputs_getitem outputNode (KInt 0));;
  call (tree_links_new nodeTree a b);;
  call (node_set_base_path outputNode (getFullPath srcRgbTex true));;
  let srcRgbTex :=
    set_fileName srcRgbTex
      (str_replace (fileName srcRgbTex) expected_src_suffix dst_suffix) in
  slots <- call (node_file_slots outputNode);;
  for_in slots (fun filePath =>
    call (file_slot_set_path filePath (fileName srcRgbTex)));;
  call (node_format_set_file_format outputNode format);;
  call (node_format_set_color_mode outputNode "RGBA");;
  renderComposition nodeTree do_cleanup 0;;
  removeBlenderFrameSuffix srcRgbTex 0;;
  Ret tt.

Definition blendImages (src_image_01 src_image_02 : string)
    (mix_type image_01_type image_02_type format : string)
    (do_cleanup : bool) : prog unit :=
  init <- initCompositor "CompositorNodeOutputFile";;
  let '(nodeTree, outputNode) := init in
  inputImage01Node <- call (tree_nodes_new nodeTree "CompositorNodeImage");;
  inputImage02Node <- call (tree_nodes_new nodeTree "CompositorNodeImage");;
  mixNode <- call (tree_nodes_new nodeTree "CompositorNodeMixRGB");;
  let srcImageTex := FilePath_init src_image_01 true in
  img <- call (data_images_load (getFullPath srcImageTex false) true);;
  call (node_set_image inputImage01Node img);;
  im <- call (node_image inputImage01Node);;
  im <- not_None im "colorspace_settings";;
  call (image_set_colorspace_name im image_01_type);;
  let secondaryImageTex := FilePath_init src_image_02 true in
  img <- call (data_images_load (getFullPath secondaryImageTex false) true);;
  call (node_set_image inputImage02Node img);;
  im <- call (node_image inputImage02Node);;
  im <- not_None im "colorspace_settings";;
  call (image_set_colorspace_name im image_02_type);;
  a <- call (node_outputs_getitem inputImage01Node (KInt 0));;
  b <- call (node_inputs_getitem mixNode (KInt 1));;
  call (tree_links_new nodeTree a b);;
  a <- call (node_outputs_getitem inputImage02Node (KInt 0));;
  b <- call (node_inputs_getitem mixNode (KInt 2));;
  call (tree_links_new nodeTree a b);;
  a <- call (node_outputs_getitem mixNode (KInt 0));;
  b <- call (node_inputs_getitem outputNode (KInt 0));;
  call (tree_links_new nodeTree a b);;
  call (node_set_blend_type mixNode mix_type);;
  call (node_set_base_path outputNode (getFullPath srcImageTex true));;
  slots <- call (node_file_slots outputNode);;
  for_in slots (fun filePath =>
    call (file_slot_set_path filePath (fileName srcImageTex)));;
  call (node_format_set_file_format outputNode format);;
  call (node_format_set_color_mode outputNode "RGBA");;
  renderComposition nodeTree do_cleanup 0;;
  removeBlenderFrameSuffix srcImageTex 0;;
  Ret tt.

End WithFilePath.

End CompositorUtilities.

(** ** MaterialUtilities.py *)

Module MaterialUtilities.

Definition getTextures (objects : list ID) : prog (list string) :=
  let images : list string := [] in
  meshes <- list_comp_if objects (fun o =>
    t <- call (object_type o);;
    Ret (String.eqb t "MESH"));;
  for_acc meshes images (fun mesh images =>
    mat <- call (object_active_material mesh);;
    mat <- not_None mat "node_tree";;
    tree <- call (material_node_tree mat);;
    tree <- not_None tree "nodes";;
    nodes <- call (tree_nodes tree);;
    texs <- list_comp_if nodes (fun node =>
      t <- call (node_type node);;
      Ret (String.eqb t "TEX_IMAGE"));;
    for_acc texs images (fun textureNode images =>
      img <- call (node_image textureNode);;
      img <- not_None img "filepath";;
      path <- call (image_filepath img);;
      Ret (images ++ [path]))).

Definition createTextureNode (node_tree : option ID)
    (texture_path : option string) : prog ID :=
  node_tree <- not_None node_tree "nodes";;
  texNode <- call (tree_nodes_new node_tree "ShaderNodeTexImage");;
  texture_path <- expect_str texture_path;;
  img <- call (data_images_load texture_path true);;
  call (node_set_image texNode img);;
  Ret texNode.

Section WithSlots.

(** The enum [Utilities.Enums.DCCs.BlenderMaterialTextureSlots] is imported
    but is not part of the sources: its members, the [value] of a member
    and the member [Normal] are taken as given. *)
Context {BlenderMaterialTextureSlots : Type}
        `{EqDecision BlenderMaterialTextureSlots}.
Variable value : BlenderMaterialTextureSlots -> key.
Variable Normal : BlenderMaterialTextureSlots.

Definition getTextureFromSlot (material : ID)
    (slot : BlenderMaterialTextureSlots) : prog (option ID) :=
  tree <- call (material_node_tree material);;
  tree <- not_None tree "nodes";;
  shaderGraph <- call (tree_nodes_get tree "Principled BSDF");;
  shaderGraph <- not_None shaderGraph "inputs";;
  input <- call (node_inputs_getitem shaderGraph (value slot));;
  n <- call (socket_links_len input);;
  if negb (Nat.eqb n 0) then
    if bool_decide (slot = Normal) then
      input <- call (node_inputs_getitem shaderGraph (value slot));;
      link <- call (socket_links_getitem input 0);;
      node <- call (link_from_node link);;
      color <- call (node_inputs_getitem node (KStr "Color"));;
      link <- call (socket_links_getitem color 0);;
      node <- call (link_from_node link);;
      Ret (Some node)
    else
      input <- call (node_inputs_getitem shaderGraph (value slot));;
      link <- call (socket_links_getitem input 0);;
      node <- call (link_from_node link);;
      Ret (Some node)
  else Ret None.

Definition setTextureBySlot (material : ID)
    (slot : BlenderMaterialTextureSlots) (texture_node : option ID)
    (texture_path : option string) : prog bool :=
  first <-
    match texture_node with
    | None =>
        texture_node <- getTextureFromSlot material slot;;
        match texture_node with
        | Some node =>
            path <- expect_str texture_path;;
            img <- call (data_images_load path true);;
            call (node_set_image node img);;
            Ret (Return true)
        | None => Ret Next
        end
    | Some _ => Ret Next
    end;;
  match first with
  | Return b => Ret b
  | _ =>
      tree <- call (material_node_tree material);;
      tree <- not_None tree "nodes";;
      shaderGraph <- call (tree_nodes_get tree "Principled BSDF");;
      shaderGraph <- not_None shaderGraph "inputs";;
      inputNode <- call (node_inputs_getitem shaderGraph (value slot));;
      texture_node <-
        match texture_node with
        | None =>
            tree <- call (material_node_tree material);;
            createTextureNode tree texture_path
        | Some node => Ret node
        end;;
      tree <- call (material_node_tree material);;
      tree <- not_None tree "links";;
      out <- call (node_outputs_getitem texture_node (KInt 0));;
      call (tree_links_new tree out inputNode);;
      Ret true
  end.

End WithSlots.

End MaterialUtilities.

(** ** Execution against a host *)

(** One call of an execution: the call, the host state it was made in and
    the exception it raised, if any. *)
Record step (W : Type) : Type := Step {
  step_call : host_call;
  step_world : W;
  step_raised : option exn
}.
Arguments Step {W} _ _ _.
Arguments step_call {W} _.
Arguments step_world {W} _.
Arguments step_raised {W} _.

(** A host answers a call in a state with a value or an exception, and a
    new state. *)
Definition handler (W : Type) : Type :=
  forall X : Type, hostE X -> W -> result X * W.

Section Run.

Context {W : Type}.
Variable h : handler W.

(** Result, final state and the calls made, in order. *)
Fixpoint run {R : Type} (p : prog R) (w : W) : result R * W * list (step W) :=
  match p with
  | Ret r => (Ok r, w, [])
  | Throw e => (Err e, w, [])
  | Vis c k =>
      match h _ c w with
      | (Ok x, w1) =>
          let '(r, w2, t) := run (k x) w1 in
          (r, w2, Step (Call c) w None :: t)
      | (Err e, w1) => (Err e, w1, [Step (Call c) w (Some e)])
      end
  | TryExcept body cls handler k =>
      let '(r, w1, t1) := run body w in
      match r with
      | Ok x =>
          let '(r2, w2, t2) := run (k x) w1 in
          (r2, w2, t1 ++ t2)
      | Err e =>
          if isinstance e cls then
            let '(r1, w2, t2) := run handler w1 in
            match r1 with
            | Ok x =>
                let '(r3, w3, t3) := run (k x) w2 in
                (r3, w3, t1 ++ t2 ++ t3)
            | Err e' => (Err e', w2, t1 ++ t2)
            end
          else (Err e, w1, t1)
      end
  end.

Definition outcome {R : Type} (p : prog R) (w : W) : result R := (run p w).1.1.
Definition final {R : Type} (p : prog R) (w : W) : W := (run p w).1.2.
Definition steps {R : Type} (p : prog R) (w : W) : list (step W) := (run p w).2.

(** The calls of an execution, without the states. *)
Definition calls {R : Type} (p : prog R) (w : W) : list host_call :=
  map step_call (steps p w).

End Run.

(** ** Properties of the program text *)

(** [subprocess.run] is the one call of the vocabulary that launches a
    process. *)
Definition is_subprocess_run (c : host_call) : Prop :=
  match c with
  | Call (subprocess_run _) => True
  | _ => False
  end.

Definition quiet (c : host_call) : Prop := ~ is_subprocess_run c.

(** ** A reference host

    The part of the host state that the utilities read and change through
    the calls above: the data blocks of [bpy.data], the scene and view
    layer of [bpy.context], the file system, the standard output and the
    processes.  There is one scene, which contains every collection and
    every object.  Node trees, images loaded from disk, vectors and the
    operators that render, duplicate or move the view are left to an
    arbitrary host [oracle], which may change any part of the state. *)

Record object : Type := mkObject {
  o_name : string;
  o_type : string;
  o_data : option ID;
  o_parent : option ID;
  o_selected : bool;
  o_location : list pynum;
  o_rotation_euler : list pynum
}.

Record collection : Type := mkCollection {
  c_name : string;
  c_objects : list ID
}.

(** A data block with its user count and the data blocks it uses (the
    materials of a mesh, the images of a material). *)
Record datablock : Type := mkBlock {
  d_name : string;
  d_users : nat;
  d_uses : list ID
}.

Inductive status : Type :=
| Running
| Exited (code : Z).

Record process : Type := mkProcess {
  p_args : list string;
  p_status : status
}.

Record World (Ext : Type) : Type := mkWorld {
  w_objects : gmap ID object;
  w_collections : gmap ID collection;
  w_cameras : gmap ID datablock;
  w_meshes : gmap ID datablock;
  w_materials : gmap ID datablock;
  w_images : gmap ID datablock;
  w_next : ID;
  w_master : ID;
  w_active_collection : ID;
  w_camera : option ID;
  w_frame : Z;
  w_active_object : option ID;
  w_files : gmap string string;
  w_windows : bool;
  w_stdout : list string;
  w_processes : list process;
  w_exit_code : list string -> Z;
  w_ext : Ext
}.
Arguments mkWorld {Ext}.
Arguments w_objects {Ext} _.
Arguments w_collections {Ext} _.
Arguments w_cameras {Ext} _.
Arguments w_meshes {Ext} _.
Arguments w_materials {Ext} _.
Arguments w_images {Ext} _.
Arguments w_next {Ext} _.
Arguments w_master {Ext} _.
Arguments w_active_collection {Ext} _.
Arguments w_camera {Ext} _.
Arguments w_frame {Ext} _.
Arguments w_active_object {Ext} _.
Arguments w_files {Ext} _.
Arguments w_windows {Ext} _.
Arguments w_stdout {Ext} _.
Arguments w_processes {Ext} _.
Arguments w_exit_code {Ext} _.
Arguments w_ext {Ext} _.

Section Reference.

Context {Ext : Type}.
Abbreviation world := (World Ext).

Definition set_objects (f : gmap ID object -> gmap ID object) (w : world) : world :=
  mkWorld (f (w_objects w)) (w_collections w) (w_cameras w) (w_meshes w)
    (w_materials w) (w_images w) (w_next w) (w_master w)
    (w_active_collection w) (w_camera w) (w_frame w) (w_active_object w)
    (w_files w) (w_windows w) (w_stdout w) (w_processes w) (w_exit_code w)
    (w_ext w).

Definition set_collections (f : gmap ID collection -> gmap ID collection)
    (w : world) : world :=
  mkWorld (w_objects w) (f (w_collections w)) (w_cameras w) (w_meshes w)
    (w_materials w) (w_images w) (w_next w) (w_master w)
    (w_active_collection w) (w_camera w) (w_frame w) (w_active_object w)
    (w_files w) (w_windows w) (w_stdout w) (w_processes w) (w_exit_code w)
    (w_ext w).

Definition set_cameras (f : gmap ID datablock -> gmap ID datablock)
    (w : world) : world :=
  mkWorld (w_objects w) (w_collections w) (f (w_cameras w)) (w_meshes w)
    (w_materials w) (w_images w) (w_next w) (w_master w)
    (w_active_collection w) (w_camera w) (w_frame w) (w_active_object w)
    (w_files w) (w_windows w) (w_stdout w) (w_processes w) (w_exit_code w)
    (w_ext w).

Definition set_meshes (f : gmap ID datablock -> gmap ID datablock)
    (w : world) : world :=
  mkWorld (w_objects w) (w_collections w) (w_cameras w) (f (w_meshes w))
    (w_materials w) (w_images w) (w_next w) (w_master w)
    (w_active_collection w) (w_camera w) (w_frame w) (w_active_object w)
    (w_files w) (w_windows w) (w_stdout w) (w_processes w) (w_exit_code w)
    (w_ext w).

Definition set_materials (f : gmap ID datablock -> gmap ID datablock)
    (w : world) : world :=
  mkWorld (w_objects w) (w_collections w) (w_cameras w) (w_meshes w)
    (f (w_materials w)) (w_images w) (w_next w) (w_master w)
    (w_active_collection w) (w_camera w) (w_frame w) (w_active_object w)
    (w_files w) (w_windows w) (w_stdout w) (w_processes w) (w_exit_code w)
    (w_ext w).

Definition set_images (f : gmap ID datablock -> gmap ID datablock)
    (w : world) : world :=
  mkWorld (w_objects w) (w_collections w) (w_cameras w) (w_meshes w)
    (w_materials w) (f (w_images w)) (w_next w) (w_master w)
    (w_active_collection w) (w_camera w) (w_frame w) (w_active_object w)
    (w_files w) (w_windows w) (w_stdout w) (w_processes w) (w_exit_code w)
    (w_ext w).

Definition set_next (n : ID) (w : world) : world :=
  mkWorld (w_objects w) (w_collections w) (w_cameras w) (w_meshes w)
    (w_materials w) (w_images w) n (w_master w)
    (w_active_collection w) (w_camera w) (w_frame w) (w_active_object w)
    (w_files w) (w_windows w) (w_stdout w) (w_processes w) (w_exit_code w)
    (w_ext w).

Definition set_camera (c : option ID) (w : world) : world :=
  mkWorld (w_objects w) (w_collections w) (w_cameras w) (w_meshes w)
    (w_materials w) (w_images w) (w_next w) (w_master w)
    (w_active_collection w) c (w_frame w) (w_active_object w)
    (w_files w) (w_windows w) (w_stdout w) (w_processes w) (w_exit_code w)
    (w_ext w).

Definition set_frame (f : Z) (w : world) : world :=
  mkWorld (w_objects w) (w_collections w) (w_cameras w) (w_meshes w)
    (w_materials w) (w_images w) (w_next w) (w_master w)
    (w_active_collection w) (w_camera w) f (w_active_object w)
    (w_files w) (w_windows w) (w_stdout w) (w_processes w) (w_exit_code w)
    (w_ext w).

Definition set_active_object (a : option ID) (w : world) : world :=
  mkWorld (w_objects w) (w_collections w) (w_cameras w) (w_meshes w)
    (w_materials w) (w_images w) (w_next w) (w_master w)
    (w_active_collection w) (w_camera w) (w_frame w) a
    (w_files w) (w_windows w) (w_stdout w) (w_processes w) (w_exit_code w)
    (w_ext w).

Definition set_files (f : gmap string string -> gmap string string)
    (w : world) : world :=
  mkWorld (w_objects w) (w_collections w) (w_cameras w) (w_meshes w)
    (w_materials w) (w_images w) (w_next w) (w_master w)
    (w_active_collection w) (w_camera w) (w_frame w) (w_active_object w)
    (f (w_files w)) (w_windows w) (w_stdout w) (w_processes w) (w_exit_code w)
    (w_ext w).

Definition set_stdout (f : list string -> list string) (w : world) : world :=
  mkWorld (w_objects w) (w_collections w) (w_cameras w) (w_meshes w)
    (w_materials w) (w_images w) (w_next w) (w_master w)
    (w_active_collection w) (w_camera w) (w_frame w) (w_active_object w)
    (w_files w) (w_windows w) (f (w_stdout w)) (w_processes w) (w_exit_code w)
    (w_ext w).

Definition set_processes (f : list process -> list process) (w : world)
    : world :=
  mkWorld (w_objects w) (w_collections w) (w_cameras w) (w_meshes w)
    (w_materials w) (w_images w) (w_next w) (w_master w)
    (w_active_collection w) (w_camera w) (w_frame w) (w_active_object w)
    (w_files w) (w_windows w) (w_stdout w) (f (w_processes w)) (w_exit_code w)
    (w_ext w).

(** *** Data blocks *)

Definition removed (type : string) : exn :=
  Exn ReferenceError ("StructRNA of type " +:+ type +:+ " has been removed").

Definition key_not_found (name : string) : exn :=
  Exn KeyError ("bpy_prop_collection[key]: key '" +:+ name +:+ "' not found").

(** One user less of data block [d]. *)
Definition release_block (d : ID) (m : gmap ID datablock) : gmap ID datablock :=
  alter (fun b => mkBlock (d_name b) (Nat.pred (d_users b)) (d_uses b)) d m.

(** One user more of data block [d]. *)
Definition acquire_block (d : ID) (m : gmap ID datablock) : gmap ID datablock :=
  alter (fun b => mkBlock (d_name b) (S (d_users b)) (d_uses b)) d m.

Definition release (d : ID) (w : world) : world :=
  set_cameras (release_block d)
    (set_meshes (release_block d)
       (set_materials (release_block d)
          (set_images (release_block d) w))).

Definition acquire (d : ID) (w : world) : world :=
  set_cameras (acquire_block d)
    (set_meshes (acquire_block d)
       (set_materials (acquire_block d)
          (set_images (acquire_block d) w))).

Definition release_all (ds : list ID) (w : world) : world :=
  foldr release w ds.

Definition unparent (o : ID) (x : object) : object :=
  if bool_decide (o_parent x = Some o)
  then mkObject (o_name x) (o_type x) (o_data x) None (o_selected x)
         (o_location x) (o_rotation_euler x)
  else x.

Definition unlink (o : ID) (c : collection) : collection :=
  mkCollection (c_name c) (filter (fun x => x <> o) (c_objects c)).

Definition clear_ref (o : ID) (r : option ID) : option ID :=
  if bool_decide (r = Some o) then None else r.

(** Deleting object [o]: it leaves [bpy.data.objects] and every
    collection, its children lose their parent, its data block loses a
    user, and the scene camera and the active object are cleared when
    they were [o]. *)
Definition delete_object (o : ID) (w : world) : world :=
  let w1 :=
    match w_objects w !! o with
    | Some ob =>
        match o_data ob with
        | Some d => release d w
        | None => w
        end
    | None => w
    end in
  set_objects (fun m => unparent o <$> delete o m)
    (set_collections (fmap (unlink o))
       (set_camera (clear_ref o (w_camera w1))
          (set_active_object (clear_ref o (w_active_object w1)) w1))).

Definition delete_objects (os : list ID) (w : world) : world :=
  foldr delete_object w os.

(** The objects whose data is the data block [d]. *)
Definition instances (d : ID) (w : world) : list ID :=
  (filter (fun kv : ID * object => o_data kv.2 = Some d)
     (map_to_list (w_objects w))).*1.

Definition fresh (w : world) : ID * world :=
  (w_next w, set_next (S (w_next w)) w).

Definition first_named {A : Type} (name_of : A -> string) (m : gmap ID A)
    (ids : list ID) (name : string) : option ID :=
  head (filter (fun i => name_of <$> m !! i = Some name) ids).

(** [bpy.data.collections]: every collection but the scene's root. *)
Definition data_collection_ids (w : world) : list ID :=
  filter (fun c => c <> w_master w) (map_to_list (w_collections w)).*1.

Definition name_of_id (x : ID) (w : world) : option string :=
  match w_objects w !! x with
  | Some o => Some (o_name o)
  | None =>
  match w_collections w !! x with
  | Some c => Some (c_name c)
  | None =>
  match w_cameras w !! x with
  | Some d => Some (d_name d)
  | None =>
  match w_meshes w !! x with
  | Some d => Some (d_name d)
  | None =>
  match w_materials w !! x with
  | Some d => Some (d_name d)
  | None => d_name <$> w_images w !! x
  end end end end end.

Definition block_of_id (x : ID) (w : world) : option datablock :=
  match w_cameras w !! x with
  | Some d => Some d
  | None =>
  match w_meshes w !! x with
  | Some d => Some d
  | None =>
  match w_materials w !! x with
  | Some d => Some d
  | None => w_images w !! x
  end end end.

(** The type of an object created around data block [d]. *)
Definition type_of_data (d : ID) (w : world) : string :=
  if bool_decide (is_Some (w_cameras w !! d)) then "CAMERA"
  else if bool_decide (is_Some (w_meshes w !! d)) then "MESH"
  else "EMPTY".

Definition with_object {X : Type} (o : ID) (w : world)
    (f : object -> result X * world) : result X * world :=
  match w_objects w !! o with
  | Some ob => f ob
  | None => (Err (removed "Object"), w)
  end.

Definition update_object (o : ID) (f : object -> object) (w : world)
    : result unit * world :=
  with_object o w (fun _ => (Ok tt, set_objects (alter f o) w)).

(** *** Processes *)

(** [subprocess.run] starts the process and waits for it to exit. *)
Definition spawn (args : list string) (w : world) : nat * world :=
  (length (w_processes w),
   set_processes (fun ps => ps ++ [mkProcess args Running]) w).

Definition wait (pid : nat) (w : world) : Z * world :=
  match w_processes w !! pid with
  | Some p =>
      let code := w_exit_code w (p_args p) in
      (code,
       set_processes (fun ps => <[pid := mkProcess (p_args p) (Exited code)]> ps) w)
  | None => (0%Z, w)
  end.

(** *** The handler *)

Definition select_all (action : string) (w : world) : result unit * world :=
  let sel (f : object -> bool) (x : object) : object :=
    mkObject (o_name x) (o_type x) (o_data x) (o_parent x) (f x)
      (o_location x) (o_rotation_euler x) in
  let any := bool_decide (Exists (fun kv : ID * object => o_selected kv.2 = true)
                            (map_to_list (w_objects w))) in
  if String.eqb action "DESELECT" then
    (Ok tt, set_objects (fmap (sel (fun _ => false))) w)
  else if String.eqb action "SELECT" then
    (Ok tt, set_objects (fmap (sel (fun _ => true))) w)
  else if String.eqb action "INVERT" then
    (Ok tt, set_objects (fmap (sel (fun x => negb (o_selected x)))) w)
  else if String.eqb action "TOGGLE" then
    (Ok tt, set_objects (fmap (sel (fun _ => negb any))) w)
  else (Err (Exn TypeError ("enum '" +:+ action +:+ "' not found")), w).

Definition poll_failed (op : string) : exn :=
  Exn RuntimeError
    ("Operator bpy.ops." +:+ op +:+ ".poll() failed, context is incorrect").

(** The selected mesh objects other than [a]. *)
Definition joined (a : ID) (w : world) : list ID :=
  (filter (fun kv : ID * object =>
             kv.1 <> a /\ o_selected kv.2 = true /\ o_type kv.2 = "MESH")
     (map_to_list (w_objects w))).*1.

(** [bpy.ops.object.join()] merges the selected mesh objects into the
    active one and deletes them. *)
Definition join (w : world) : result unit * world :=
  match w_active_object w with
  | Some a =>
      match w_objects w !! a with
      | Some ob =>
          if String.eqb (o_type ob) "MESH"
          then (Ok tt, delete_objects (joined a w) w)
          else (Err (poll_failed "object.join"), w)
      | None => (Err (poll_failed "object.join"), w)
      end
  | None => (Err (poll_failed "object.join"), w)
  end.

Definition forget (d : ID) (b : datablock) : datablock :=
  mkBlock (d_name b) (d_users b) (filter (fun x => x <> d) (d_uses b)).

Definition rename (src dst : string) (w : world) : result unit * world :=
  match w_files w !! src with
  | None =>
      (Err (Exn FileNotFoundError
              ("No such file or directory: '" +:+ src +:+ "' -> '" +:+ dst +:+ "'")),
       w)
  | Some content =>
      if w_windows w && bool_decide (is_Some (w_files w !! dst))
         && negb (String.eqb src dst)
      then
        (Err (Exn FileExistsError
                ("Cannot create a file when that file already exists: '"
                 +:+ src +:+ "' -> '" +:+ dst +:+ "'")),
         w)
      else (Ok tt, set_files (fun fs => <[dst := content]> (delete src fs)) w)
  end.

Variable oracle : handler world.

Definition host : handler world :=
  fun X c =>
    match c in hostE X return world -> result X * world with
    | subprocess_run args => fun w =>
        let '(pid, w1) := spawn args w in
        let '(code, w2) := wait pid w1 in
        (Ok code, w2)
    | print s => fun w => (Ok tt, set_stdout (fun out => out ++ [s]) w)
    | os_path_exists path => fun w =>
        (Ok (bool_decide (is_Some (w_files w !! path))), w)
    | os_remove path => fun w =>
        match w_files w !! path with
        | Some _ => (Ok tt, set_files (delete path) w)
        | None =>
            (Err (Exn FileNotFoundError
                    ("No such file or directory: '" +:+ path +:+ "'")), w)
        end
    | os_rename src dst => rename src dst
    | data_collections => fun w => (Ok (data_collection_ids w), w)
    | data_collections_getitem name => fun w =>
        match first_named c_name (w_collections w) (data_collection_ids w) name with
        | Some c => (Ok c, w)
        | None => (Err (key_not_found name), w)
        end
    | data_collections_new name => fun w =>
        let '(i, w1) := fresh w in
        (Ok i, set_collections (insert i (mkCollection name [])) w1)
    | data_cameras_new name => fun w =>
        let '(i, w1) := fresh w in
        (Ok i, set_cameras (insert i (mkBlock name 0 [])) w1)
    | data_objects_new name data => fun w =>
        let '(i, w1) := fresh w in
        let ob :=
          mkObject name (type_of_data data w) (Some data) None false
            [PyFloat 0; PyFloat 0; PyFloat 0] [PyFloat 0; PyFloat 0; PyFloat 0] in
        (Ok i, set_objects (insert i ob) (acquire data w1))
    | data_objects_remove o => fun w =>
        with_object o w (fun _ => (Ok tt, delete_object o w))
    | data_meshes_remove m => fun w =>
        match w_meshes w !! m with
        | Some b =>
            (Ok tt,
             set_meshes (delete m)
               (release_all (d_uses b) (delete_objects (instances m w) w)))
        | None => (Err (removed "Mesh"), w)
        end
    | data_materials => fun w => (Ok (map_to_list (w_materials w)).*1, w)
    | data_materials_remove m => fun w =>
        match w_materials w !! m with
        | Some b =>
            (Ok tt,
             set_materials (delete m)
               (set_meshes (fmap (forget m)) (release_all (d_uses b) w)))
        | None => (Err (removed "Material"), w)
        end
    | data_images => fun w => (Ok (map_to_list (w_images w)).*1, w)
    | data_images_remove i => fun w =>
        match w_images w !! i with
        | Some b =>
            (Ok tt, set_images (delete i) (set_materials (fmap (forget i)) w))
        | None => (Err (removed "Image"), w)
        end
    | id_name x => fun w =>
        match name_of_id x w with
        | Some n => (Ok n, w)
        | None => (Err (removed "ID"), w)
        end
    | id_users x => fun w =>
        match block_of_id x w with
        | Some b => (Ok (d_users b), w)
        | None => (Err (removed "ID"), w)
        end
    | object_type o => fun w => with_object o w (fun ob => (Ok (o_type ob), w))
    | object_data o => fun w => with_object o w (fun ob => (Ok (o_data ob), w))
    | object_parent o => fun w =>
        with_object o w (fun ob => (Ok (o_parent ob), w))
    | object_children o => fun w =>
        with_object o w (fun _ =>
          (Ok (filter (fun kv : ID * object => o_parent kv.2 = Some o)
                 (map_to_list (w_objects w))).*1, w))
    | object_select_set o state => fun w =>
        update_object o (fun x =>
          mkObject (o_name x) (o_type x) (o_data x) (o_parent x) state
            (o_location x) (o_rotation_euler x)) w
    | object_set_location o loc => fun w =>
        update_object o (fun x =>
          mkObject (o_name x) (o_type x) (o_data x) (o_parent x)
            (o_selected x) loc (o_rotation_euler x)) w
    | object_set_rotation_euler o rot => fun w =>
        update_object o (fun x =>
          mkObject (o_name x) (o_type x) (o_data x) (o_parent x)
            (o_selected x) (o_location x) rot) w
    | collection_objects c => fun w =>
        match w_collections w !! c with
        | Some col => (Ok (c_objects col), w)
        | None => (Err (removed "Collection"), w)
        end
    | collection_objects_link c o => fun w =>
        match w_collections w !! c with
        | Some col =>
            with_object o w (fun ob =>
              if bool_decide (o ∈ c_objects col) then
                (Err (Exn RuntimeError
                        ("Object '" +:+ o_name ob +:+ "' already in collection '"
                         +:+ c_name col +:+ "'")), w)
              else
                (Ok tt,
                 set_collections
                   (insert c (mkCollection (c_name col) (c_objects col ++ [o])))
                   w))
        | None => (Err (removed "Collection"), w)
        end
    | scene_collection_children_link c => fun w =>
        match w_collections w !! c with
        | Some _ => (Ok tt, w)
        | None => (Err (removed "Collection"), w)
        end
    | active_layer_collection => fun w => (Ok (w_active_collection w), w)
    | scene_camera => fun w => (Ok (w_camera w), w)
    | scene_set_camera o => fun w =>
        with_object o w (fun _ => (Ok tt, set_camera (Some o) w))
    | scene_objects => fun w => (Ok (map_to_list (w_objects w)).*1, w)
    | scene_objects_getitem name => fun w =>
        match first_named o_name (w_objects w) (map_to_list (w_objects w)).*1 name with
        | Some o => (Ok o, w)
        | None => (Err (key_not_found name), w)
        end
    | scene_frame_set frame => fun w => (Ok tt, set_frame frame w)
    | context_selected_objects => fun w =>
        (Ok (filter (fun kv : ID * object => o_selected kv.2 = true)
               (map_to_list (w_objects w))).*1, w)
    | view_layer_objects_set_active o => fun w =>
        with_object o w (fun _ => (Ok tt, set_active_object (Some o) w))
    | ops_object_select_all action => select_all action
    | ops_object_join => join
    | other => oracle _ other
    end.

End Reference.

(** Every call of the program, on every path, satisfies [P]. *)
Fixpoint always (P : host_call -> Prop) {R : Type} (p : prog R) : Prop :=
  match p with
  | Ret _ => True
  | Throw _ => True
  | Vis c k => P (Call c) /\ forall x, always P (k x)
  | TryExcept body _ handler k =>
      always P body /\ always P handler /\ forall x, always P (k x)
  end.

(** What the program can end with, whatever the host answers: a returned
    value satisfies [Q], an exception raised by the interpreter (not by a
    host call) satisfies [T]. *)
Fixpoint ends (R : Type) (Q : R -> Prop) (T : exn -> Prop) (p : prog R) : Prop :=
  match p with
  | Ret r => Q r
  | Throw e => T e
  | Vis _ k => forall x, ends R Q T (k x)
  | TryExcept _ _ _ _ => False
  end.
Arguments ends {R} Q T p.

(** A call of the execution raised [e]. *)
Definition raised {W R : Type} (h : handler W) (p : prog R) (w : W) (e : exn)
    : Prop :=
  exists s, s ∈ steps h p w /\ step_raised s = Some e.

(** No call of the program, on any path, satisfies [P]. *)
Definition never (P : host_call -> Prop) {R : Type} (p : prog R) : Prop :=
  always (fun c => ~ P c) p.

(** The program has no [try] statement. *)
Definition no_try {R : Type} (p : prog R) : Prop :=
  ends (fun _ => True) (fun _ => True) p.

(** ** The functions of the repository *)

Section Repository.

Variable FilePath_init : string -> bool -> FilePath.
Context {BlenderMaterialTextureSlots : Type}
        `{EqDecision BlenderMaterialTextureSlots}.
Variable value : BlenderMaterialTextureSlots -> key.
Variable Normal : BlenderMaterialTextureSlots.

(** A call of one of the nineteen functions with its arguments. *)
Inductive invocation : Type :=
| runBatchProcess_ (python_file : string) (args : list string)
| purgeMeshObjectsFromCollection_ (collection_name : string)
    (remove_meshes remove_materials remove_images : bool)
| createCamera_ (name : string) (collection : option string)
    (location rotation : list pynum)
    (create_if_camera_exists set_as_active : bool)
| moveCameraToViewSelected_ (objects : list ID) (camera_name : string)
    (camera_backwards_offset : pynum)
| selectChildren_ (depth : nat) (parent : ID) (recursive select_parent : bool)
| getChildren_ (depth : nat) (parent : ID) (include_meshes recursive : bool)
| getChildMeshes_ (depth : nat) (parent : ID) (recursive include_root : bool)
| duplicateObject_ (depth : nat) (mesh : ID) (include_parent : bool)
| joinObjects_ (depth : nat) (active_parent secondary_parent : ID)
    (cleanup_empties : bool)
| initCompositor_ (output_node_type : string)
| renderComposition_ (node_tree : ID) (do_cleanup : bool) (frame : Z)
| removeBlenderFrameSuffix_ (file_path : FilePath) (frame : Z)
| extractAlphaToGreyscale_ (src_img : string)
    (dst_img dst_suffix : option string) (format : string) (do_cleanup : bool)
| packGreyscaleToAlpha_ (src_rgb src_greyscale : string)
    (expected_src_suffix dst_suffix format : string) (do_cleanup : bool)
| blendImages_ (src_image_01 src_image_02 : string)
    (mix_type image_01_type image_02_type format : string) (do_cleanup : bool)
| getTextures_ (objects : list ID)
| getTextureFromSlot_ (material : ID) (slot : BlenderMaterialTextureSlots)
| setTextureBySlot_ (material : ID) (slot : BlenderMaterialTextureSlots)
    (texture_node : option ID) (texture_path : option string)
| createTextureNode_ (node_tree : option ID) (texture_path : option string).

Definition returns (i : invocation) : Type :=
  match i with
  | createCamera_ _ _ _ _ _ _ => option ID
  | getChildren_ _ _ _ _ => list (option ID)
  | getChildMeshes_ _ _ _ _ => list (option ID)
  | duplicateObject_ _ _ _ => ID
  | initCompositor_ _ => (ID * ID)%type
  | extractAlphaToGreyscale_ _ _ _ _ _ => FilePath
  | getTextures_ _ => list string
  | getTextureFromSlot_ _ _ => option ID
  | setTextureBySlot_ _ _ _ _ => bool
  | createTextureNode_ _ _ => ID
  | _ => unit
  end.

Definition program (i : invocation) : prog (returns i) :=
  match i with
  | runBatchProcess_ f a => BatchUtilites.runBatchProcess f a
  | purgeMeshObjectsFromCollection_ n a b c =>
      DataUtilities.purgeMeshObjectsFromCollection n a b c
  | createCamera_ n c l r e a => SceneUtilities.createCamera n c l r e a
  | moveCameraToViewSelected_ o n off =>
      SceneUtilities.moveCameraToViewSelected o n off
  | selectChildren_ d p r s => SceneUtilities.selectChildren d p r s
  | getChildren_ d p m r => SceneUtilities.getChildren d p m r
  | getChildMeshes_ d p r i => SceneUtilities.getChildMeshes d p r i
  | duplicateObject_ d m i => SceneUtilities.duplicateObject d m i
  | joinObjects_ d a s c => SceneUtilities.joinObjects d a s c
  | initCompositor_ t => CompositorUtilities.initCompositor t
  | renderComposition_ t c f => CompositorUtilities.renderComposition t c f
  | removeBlenderFrameSuffix_ fp f =>
      CompositorUtilities.removeBlenderFrameSuffix fp f
  | extractAlphaToGreyscale_ s d x f c =>
      CompositorUtilities.extractAlphaToGreyscale FilePath_init s d x f c
  | packGreyscaleToAlpha_ a b c d e f =>
      CompositorUtilities.packGreyscaleToAlpha FilePath_init a b c d e f
  | blendImages_ a b c d e f g =>
      CompositorUtilities.blendImages FilePath_init a b c d e f g
  | getTextures_ o => MaterialUtilities.getTextures o
  | getTextureFromSlot_ m s =>
      MaterialUtilities.getTextureFromSlot value Normal m s
  | setTextureBySlot_ m s n p =>
      MaterialUtilities.setTextureBySlot value Normal m s n p
  | createTextureNode_ t p => MaterialUtilities.createTextureNode t p
  end.

Definition is_runBatchProcess (i : invocation) : bool :=
  match i with
  | runBatchProcess_ _ _ => true
  | _ => false
  end.

Definition is_joinObjects (i : invocation) : bool :=
  match i with
  | joinObjects_ _ _ _ _ => true
  | _ => false
  end.

End Repository.

(** The state the host is in after answering the call of step [s]. *)
Definition after {W : Type} (h : handler W) (s : step W) : W :=
  match step_call s with
  | Call c => (h _ c (step_world s)).2
  end.

(** ** The frame suffix of a render

    renderComposition documents the suffix that the host appends to the
    name of the output file: the frame number with four digit padding, for
    instance 0000. *)

Fixpoint zeros (n : nat) : string :=
  match n with
  | O => ""
  | S n => String "0"%char (zeros n)
  end.

Definition zfill (width : nat) (s : string) : string :=
  zeros (width - String.length s) +:+ s.

Definition frame_suffix (frame : Z) : string :=
  if (frame <? 0)%Z then "-" +:+ zfill 4 (pretty (Z.abs_N frame))
  else zfill 4 (pretty (Z.to_N frame)).

(** The file that the host writes for output path [fp] at [frame]. *)
Definition rendered_file (fp : FilePath) (frame : Z) : string :=
  getFullPath fp true +:+ "/" +:+ fileName fp +:+ frame_suffix frame
    +:+ "." +:+ fileExt fp.

(** ** A host for the examples

    The examples run on the reference host, completed by a small model of
    node trees: the shader graph of a material can be read, the
    compositor tree of the scene can be built, and a render writes one
    file for every file slot of every file output node. *)

Record graph : Type := mkGraph {
  g_material_tree : gmap ID ID;
  g_tree_nodes : gmap ID (list ID);
  g_node_name : gmap ID string;
  g_node_inputs : gmap ID (list (string * ID));
  g_socket_links : gmap ID (list ID);
  g_link_from : gmap ID ID;
  g_scene_tree : option ID;
  g_node_outputs : gmap ID (list (string * ID));
  g_node_image : gmap ID ID;
  g_base_path : gmap ID string;
  g_file_slots : gmap ID (list ID);
  g_slot_path : gmap ID string;
  g_file_format : gmap ID string
}.

Definition empty_graph : graph := mkGraph ∅ ∅ ∅ ∅ ∅ ∅ None ∅ ∅ ∅ ∅ ∅ ∅.

Definition set_ext {Ext : Type} (g : Ext) (w : World Ext) : World Ext :=
  mkWorld (w_objects w) (w_collections w) (w_cameras w) (w_meshes w)
    (w_materials w) (w_images w) (w_next w) (w_master w)
    (w_active_collection w) (w_camera w) (w_frame w) (w_active_object w)
    (w_files w) (w_windows w) (w_stdout w) (w_processes w) (w_exit_code w) g.

Definition socket_of (sockets : list (string * ID)) (k : key) : result ID :=
  match k with
  | KStr name =>
      match head (filter (fun s : string * ID => s.1 = name) sockets) with
      | Some s => Ok s.2
      | None => Err (key_not_found name)
      end
  | KInt i =>
      match (if bool_decide (0 <= i)%Z then sockets !! Z.to_nat i else None) with
      | Some s => Ok s.2
      | None =>
          Err (Exn IndexError "bpy_prop_collection[index]: index out of range")
      end
  end.

(** The names of the input and output sockets of a new node. *)
Definition sockets_of_type (type : string) : list string * list string :=
  if String.eqb type "CompositorNodeImage" then ([], ["Image"; "Alpha"])
  else if String.eqb type "CompositorNodeOutputFile" then (["Image"], [])
  else if String.eqb type "CompositorNodeSeparateXYZ"
       then (["Vector"], ["X"; "Y"; "Z"])
  else if String.eqb type "CompositorNodeCombineColor"
       then (["Red"; "Green"; "Blue"; "Alpha"], ["Image"])
  else if String.eqb type "CompositorNodeMixRGB"
       then (["Fac"; "Image"; "Image"], ["Image"])
  else if String.eqb type "ShaderNodeTexImage"
       then (["Vector"], ["Color"; "Alpha"])
  else ([], []).

(** Sockets with consecutive handles from [next] on. *)
Fixpoint number_from (next : ID) (names : list string) : list (string * ID) :=
  match names with
  | [] => []
  | n :: names => (n, next) :: number_from (S next) names
  end.

Definition extension_of_format (format : string) : string :=
  if String.eqb format "TARGA" then "tga"
  else if String.eqb format "PNG" then "png"
  else if String.eqb format "JPEG" then "jpg"
  else if String.eqb format "TIFF" then "tif"
  else "img".

(** [tree.nodes.new(type)]: the node takes the handle [w_next], its
    sockets the following ones; a file output node has one file slot. *)
Definition new_node (t : ID) (type : string) (w : World graph)
    : result ID * World graph :=
  let g := w_ext w in
  match g_tree_nodes g !! t with
  | None => (Err (removed "NodeTree"), w)
  | Some nodes =>
      let n := w_next w in
      let '(ins, outs) := sockets_of_type type in
      let inputs := number_from (S n) ins in
      let outputs := number_from (S n + length ins) outs in
      let slot := S n + length ins + length outs in
      let is_output := String.eqb type "CompositorNodeOutputFile" in
      let g' :=
        mkGraph (g_material_tree g) (<[t := nodes ++ [n]]> (g_tree_nodes g))
          (<[n := type]> (g_node_name g))
          (<[n := inputs]> (g_node_inputs g))
          (g_socket_links g) (g_link_from g) (g_scene_tree g)
          (<[n := outputs]> (g_node_outputs g)) (g_node_image g)
          (if is_output then <[n := "/tmp"]> (g_base_path g) else g_base_path g)
          (if is_output then <[n := [slot]]> (g_file_slots g) else g_file_slots g)
          (if is_output then <[slot := "Image"]> (g_slot_path g) else g_slot_path g)
          (if is_output then <[n := "PNG"]> (g_file_format g) else g_file_format g) in
      (Ok n, set_next (S slot) (set_ext g' w))
  end.

(** The files that a render writes: for every file output node of the
    scene tree and every slot of it, base path/slot path, the frame suffix
    and the extension of the format. *)
Definition render_outputs (w : World graph) : list string :=
  let g := w_ext w in
  match g_scene_tree g with
  | None => []
  | Some t =>
      n ← default [] (g_tree_nodes g !! t);
      slot ← default [] (g_file_slots g !! n);
      [ default "" (g_base_path g !! n) +:+ "/"
        +:+ default "" (g_slot_path g !! slot) +:+ frame_suffix (w_frame w)
        +:+ "." +:+ extension_of_format (default "" (g_file_format g !! n)) ]
  end.

Definition update_graph (f : graph -> graph) (w : World graph)
    : result unit * World graph :=
  (Ok tt, set_ext (f (w_ext w)) w).

Definition graph_oracle : handler (World graph) :=
  fun X c =>
    match c in hostE X return World graph -> result X * World graph with
    | material_node_tree m => fun w =>
        (Ok (g_material_tree (w_ext w) !! m), w)
    | tree_nodes_get t name => fun w =>
        (Ok (head (filter (fun n => g_node_name (w_ext w) !! n = Some name)
                     (default [] (g_tree_nodes (w_ext w) !! t)))), w)
    | node_inputs_getitem n k => fun w =>
        (socket_of (default [] (g_node_inputs (w_ext w) !! n)) k, w)
    | node_outputs_getitem n k => fun w =>
        (socket_of (default [] (g_node_outputs (w_ext w) !! n)) k, w)
    | socket_links_len s => fun w =>
        (Ok (length (default [] (g_socket_links (w_ext w) !! s))), w)
    | socket_links_getitem s i => fun w =>
        match (if bool_decide (0 <= i)%Z
               then default [] (g_socket_links (w_ext w) !! s) !! Z.to_nat i
               else None) with
        | Some l => (Ok l, w)
        | None =>
            (Err (Exn IndexError
                    "bpy_prop_collection[index]: index out of range"), w)
        end
    | link_from_node l => fun w =>
        match g_link_from (w_ext w) !! l with
        | Some n => (Ok n, w)
        | None => (Err (removed "NodeLink"), w)
        end
    | scene_set_use_nodes b => fun w =>
        match g_scene_tree (w_ext w), b with
        | None, true =>
            let g := w_ext w in
            let t := w_next w in
            (Ok tt,
             set_next (S t)
               (set_ext
                  (mkGraph (g_material_tree g) (<[t := []]> (g_tree_nodes g))
                     (g_node_name g) (g_node_inputs g) (g_socket_links g)
                     (g_link_from g) (Some t) (g_node_outputs g)
                     (g_node_image g) (g_base_path g) (g_file_slots g)
                     (g_slot_path g) (g_file_format g)) w))
        | _, _ => (Ok tt, w)
        end
    | scene_node_tree => fun w => (Ok (g_scene_tree (w_ext w)), w)
    | tree_nodes t => fun w =>
        match g_tree_nodes (w_ext w) !! t with
        | Some nodes => (Ok nodes, w)
        | None => (Err (removed "NodeTree"), w)
        end
    | tree_nodes_new t type => new_node t type
    | tree_nodes_remove t n => fun w =>
        match g_tree_nodes (w_ext w) !! t with
        | Some nodes =>
            if bool_decide (n ∈ nodes) then
              update_graph (fun g =>
                mkGraph (g_material_tree g)
                  (<[t := filter (fun x => x <> n) nodes]> (g_tree_nodes g))
                  (g_node_name g) (g_node_inputs g) (g_socket_links g)
                  (g_link_from g) (g_scene_tree g) (g_node_outputs g)
                  (g_node_image g) (g_base_path g) (g_file_slots g)
                  (g_slot_path g) (g_file_format g)) w
            else (Err (removed "Node"), w)
        | None => (Err (removed "NodeTree"), w)
        end
    | tree_links_new t a b => fun w =>
        let g := w_ext w in
        let l := w_next w in
        (Ok l,
         set_next (S l)
           (set_ext
              (mkGraph (g_material_tree g) (g_tree_nodes g) (g_node_name g)
                 (g_node_inputs g)
                 (<[b := default [] (g_socket_links g !! b) ++ [l]]>
                    (g_socket_links g))
                 (g_link_from g) (g_scene_tree g) (g_node_outputs g)
                 (g_node_image g) (g_base_path g) (g_file_slots g)
                 (g_slot_path g) (g_file_format g)) w))
    | data_images_load path _ => fun w =>
        match w_files w !! path with
        | Some _ =>
            let '(i, w1) := fresh w in
            (Ok i, set_images (insert i (mkBlock path 0 [])) w1)
        | None =>
            (Err (Exn RuntimeError ("Error: Cannot read '" +:+ path +:+ "'")), w)
        end
    | node_set_image n img =>
        update_graph (fun g =>
          mkGraph (g_material_tree g) (g_tree_nodes g) (g_node_name g)
            (g_node_inputs g) (g_socket_links g) (g_link_from g)
            (g_scene_tree g) (g_node_outputs g) (<[n := img]> (g_node_image g))
            (g_base_path g) (g_file_slots g) (g_slot_path g) (g_file_format g))
    | node_image n => fun w => (Ok (g_node_image (w_ext w) !! n), w)
    | node_set_base_path n path =>
        update_graph (fun g =>
          mkGraph (g_material_tree g) (g_tree_nodes g) (g_node_name g)
            (g_node_inputs g) (g_socket_links g) (g_link_from g)
            (g_scene_tree g) (g_node_outputs g) (g_node_image g)
            (<[n := path]> (g_base_path g)) (g_file_slots g) (g_slot_path g)
            (g_file_format g))
    | node_file_slots n => fun w =>
        (Ok (default [] (g_file_slots (w_ext w) !! n)), w)
    | file_slot_set_path slot path =>
        update_graph (fun g =>
          mkGraph (g_material_tree g) (g_tree_nodes g) (g_node_name g)
            (g_node_inputs g) (g_socket_links g) (g_link_from g)
            (g_scene_tree g) (g_node_outputs g) (g_node_image g)
            (g_base_path g) (g_file_slots g) (<[slot := path]> (g_slot_path g))
            (g_file_format g))
    | node_format_set_file_format n format =>
        update_graph (fun g =>
          mkGraph (g_material_tree g) (g_tree_nodes g) (g_node_name g)
            (g_node_inputs g) (g_socket_links g) (g_link_from g)
            (g_scene_tree g) (g_node_outputs g) (g_node_image g)
            (g_base_path g) (g_file_slots g) (g_slot_path g)
            (<[n := format]> (g_file_format g)))
    | node_format_set_color_mode _ _ => fun w => (Ok tt, w)
    | node_set_blend_type _ _ => fun w => (Ok tt, w)
    | image_set_colorspace_name _ _ => fun w => (Ok tt, w)
    | ops_render_render _ => fun w =>
        (Ok tt,
         set_files (fun fs =>
           foldr (fun path fs => <[path := "render"]> fs) fs (render_outputs w)) w)
    | _ => fun w => (Err (Exn RuntimeError "not part of the examples"), w)
    end.

(** A state without objects, files or processes; the scene collection
    (0) is the active one. *)
Definition empty_world (g : graph) : World graph :=
  mkWorld ∅ {[ 0 := mkCollection "Scene Collection" [] ]} ∅ ∅ ∅ ∅ 100 0 0
    None 0 None ∅ true [] [] (fun _ => 0%Z) g.

Definition mesh_object (name : string) (data : ID) (parent : option ID) : object :=
  mkObject name "MESH" (Some data) parent false
    [PyFloat 0; PyFloat 0; PyFloat 0] [PyFloat 0; PyFloat 0; PyFloat 0].

(** Two mesh objects, "Body" (1) and "Arm" (2), in the scene collection
    (0), with their meshes (10 and 11). *)
Definition two_meshes : World graph :=
  set_objects (fun _ => {[ 1 := mesh_object "Body" 10 None;
                           2 := mesh_object "Arm" 11 None ]})
    (set_collections (fun _ => {[ 0 := mkCollection "Scene Collection" [1; 2] ]})
       (set_meshes (fun _ => {[ 10 := mkBlock "Body" 1 [];
                                11 := mkBlock "Arm" 1 [] ]})
          (empty_world empty_graph))).

(** A host whose [bpy.data.objects.remove] fails with a RuntimeError. *)
Definition refusing_remove : handler (World graph) :=
  fun X c =>
    match c in hostE X return World graph -> result X * World graph with
    | data_objects_remove _ => fun w =>
        (Err (Exn RuntimeError "Object must have zero users to be removed"), w)
    | other => host graph_oracle _ other
    end.

(** The source and destination of a call of [os.rename]. *)
Definition rename_of (c : host_call) : option (string * string) :=
  match c with
  | Call (os_rename src dst) => Some (src, dst)
  | _ => None
  end.

(** ** Examples of shader graphs *)

Inductive example_slot : Type :=
| BaseColor
| NormalMap
| Roughness.

#[global] Instance example_slot_eq_dec : EqDecision example_slot.
Proof. solve_decision. Defined.

Definition example_value (s : example_slot) : key :=
  match s with
  | BaseColor => KStr "Base Color"
  | NormalMap => KStr "Normal"
  | Roughness => KStr "Roughness"
  end.

(** Material 1 has the tree 2 with the node 3, "Principled BSDF", and the
    node 7, "Normal Map".  The shader has the inputs "Base Color" (socket
    4, not linked) and "Normal" (socket 5, linked by 6 from node 7); it has
    no input "Roughness".  The input "Color" of node 7 (socket 8) is not
    linked.  Material 9 has the tree 10 without a shader node. *)
Definition example_graph : graph :=
  mkGraph
    {[ 1 := 2; 9 := 10 ]}
    {[ 2 := [3; 7]; 10 := [] ]}
    {[ 3 := "Principled BSDF"; 7 := "Normal Map" ]}
    {[ 3 := [("Base Color", 4); ("Normal", 5)]; 7 := [("Color", 8)] ]}
    {[ 4 := []; 5 := [6]; 8 := [] ]}
    {[ 6 := 7 ]}
    None ∅ ∅ ∅ ∅ ∅ ∅.

Definition example_materials : World graph := empty_world example_graph.

(** [C:/tex/wood_A0000.tga] has been rendered; an older [wood_A.tga] is in
    the way. *)
Definition example_files : World graph :=
  set_files (fun _ => {[ "C:/tex/wood_A0000.tga" := "new";
                         "C:/tex/wood_A.tga" := "old" ]})
    (empty_world empty_graph).

(** ** The destination of a render, cleared

    The state after the file at the full path of [fp], if it exists, has
    been removed, and the calls that do it. *)

Definition cleared {Ext : Type} (fp : FilePath) (w : World Ext) : World Ext :=
  if bool_decide (is_Some (w_files w !! getFullPath fp false))
  then set_files (delete (getFullPath fp false)) w
  else w.

Definition clearing {Ext : Type} (fp : FilePath) (w : World Ext)
    : list (step (World Ext)) :=
  Step (Call (os_path_exists (getFullPath fp false))) w None ::
  (if bool_decide (is_Some (w_files w !! getFullPath fp false))
   then [Step (Call (os_remove (getFullPath fp false))) w None]
   else []).

(** ** A FilePath constructor for the examples

    [FilePath(path)] splits the path at its last "/" and the file name at
    its last "."; [FilePath(path, has_name=False)] takes the whole path as
    the directory. *)

Fixpoint rsplit (c : ascii) (s : string) : option (string * string) :=
  match s with
  | EmptyString => None
  | String a s' =>
      match rsplit c s' with
      | Some (l, r) => Some (String a l, r)
      | None => if Ascii.eqb a c then Some (EmptyString, s') else None
      end
  end.

Definition example_FilePath_init (path : string) (has_name : bool) : FilePath :=
  if has_name then
    let '(d, f) := default (EmptyString, path) (rsplit "/" path) in
    let '(n, e) := default (f, EmptyString) (rsplit "." f) in
    mkFilePath d n e
  else mkFilePath path "" "".

(** ** The destination of extractAlphaToGreyscale, as specified

    If dst_img is provided it is the full destination path; otherwise, if
    dst_suffix is provided, the destination keeps the directory and the
    extension of the source and its name is the source name joined to
    dst_suffix with an underscore; otherwise the destination is the source
    path.  An argument is provided when it is neither None nor empty. *)
Definition destination (FilePath_init : string -> bool -> FilePath)
    (src_img : string) (dst_img dst_suffix : option string) : FilePath :=
  let srcTex := FilePath_init src_img true in
  if truthy dst_img then FilePath_init (default "" dst_img) true
  else if truthy dst_suffix then
    mkFilePath (fileDir srcTex)
      (fileName srcTex +:+ "_" +:+ default "" dst_suffix) (fileExt srcTex)
  else srcTex.

(** The source image [C:/tex/wood.tga] is on disk. *)
Definition example_source : World graph :=
  set_files (fun _ => {[ "C:/tex/wood.tga" := "rgba" ]}) (empty_world empty_graph).

(** ** The camera check of createCamera *)

(** The collection that createCamera takes for an argument [collection]
    when it does not have to create one: the first collection of
    [bpy.data.collections] with that name, or the active collection when
    no name is given. *)
Definition target_collection {Ext : Type} (collection : option string)
    (w : World Ext) : option ID :=
  if truthy collection then
    head (filter (fun x => name_of_id x w = Some (default "" collection))
            (data_collection_ids w))
  else Some (w_active_collection w).

(** Calls that read the host state or print. *)
Definition observes (c : host_call) : Prop :=
  match c with
  | Call (print _) | Call (id_name _) | Call (object_type _)
  | Call (collection_objects _) | Call data_collections
  | Call active_layer_collection | Call scene_camera => True
  | _ => False
  end.

(** Calls that create a camera or make one the camera of the scene. *)
Definition makes_camera (c : host_call) : Prop :=
  match c with
  | Call (data_cameras_new _) | Call (data_objects_new _ _)
  | Call (scene_set_camera _) => True
  | _ => False
  end.

(** [w'] differs from [w] in the standard output only. *)
Definition prints_only {Ext : Type} (w w' : World Ext) : Prop :=
  exists out, w' = set_stdout (fun _ => out) w.

Definition is_camera {Ext : Type} (w : World Ext) (o : ID) : Prop :=
  o_type <$> w_objects w !! o = Some "CAMERA".

#[global] Instance is_camera_dec {Ext : Type} (w : World Ext) (o : ID) :
  Decision (is_camera w o).
Proof. unfold is_camera. apply _. Defined.

Definition is_render (c : host_call) : Prop :=
  match c with
  | Call (ops_render_render _) => True
  | _ => False
  end.

(** The scene collection holds the camera object "Camera" (1, with the
    camera data 10), but the scene has no active camera. *)
Definition camera_not_active : World graph :=
  set_objects (fun _ => {[ 1 := mkObject "Camera" "CAMERA" (Some 10) None false
                                  [PyFloat 0; PyFloat 0; PyFloat 0]
                                  [PyFloat 0; PyFloat 0; PyFloat 0] ]})
    (set_collections (fun _ => {[ 0 := mkCollection "Scene Collection" [1] ]})
       (set_cameras (fun _ => {[ 10 := mkBlock "Camera" 1 [] ]})
          (set_ext (mkGraph ∅ {[ 50 := [] ]} ∅ ∅ ∅ ∅ (Some 50) ∅ ∅ ∅ ∅ ∅ ∅)
             (empty_world empty_graph)))).

(** The camera of the scene at each render of an execution. *)
Definition camera_at_render {Ext : Type} (t : list (step (World Ext)))
    : list (option ID) :=
  omap (fun s =>
          match step_call s with
          | Call (ops_render_render _) => Some (w_camera (step_world s))
          | _ => None
          end) t.

(** ** The purge of a collection *)

(** The state after the objects [os] have been removed, first to last. *)
Definition purged {Ext : Type} (os : list ID) (w : World Ext) : World Ext :=
  foldl (fun w o => delete_object o w) w os.


(** The data blocks that stay: cameras and collections always, meshes,
    materials and images unless their removal is enabled; and no object
    appears. *)
Definition keeps {Ext : Type} (meshes materials images : bool)
    (w w' : World Ext) : Prop :=
  dom (w_cameras w') = dom (w_cameras w) /\
  dom (w_collections w') = dom (w_collections w) /\
  (meshes = false -> dom (w_meshes w') = dom (w_meshes w)) /\
  (materials = false -> dom (w_materials w') = dom (w_materials w)) /\
  (images = false -> dom (w_images w') = dom (w_images w)) /\
  dom (w_objects w') ⊆ dom (w_objects w).

(** Meshes "Body" (10, used by object 1 only) and "Shared" (11, used by
    object 2 and by an object outside the collection), in the collection
    "Assets" (5) together with the empty 3; object 4 is in the scene
    collection. *)
Definition example_assets : World graph :=
  set_objects (fun _ =>
      {[ 1 := mesh_object "Body" 10 None;
         2 := mesh_object "Arm" 11 None;
         3 := mkObject "Root" "EMPTY" None None false [] [];
         4 := mesh_object "Other" 11 None ]})
    (set_collections (fun _ =>
         {[ 0 := mkCollection "Scene Collection" [4];
            5 := mkCollection "Assets" [1; 2; 3] ]})
       (set_meshes (fun _ => {[ 10 := mkBlock "Body" 1 [20];
                                11 := mkBlock "Shared" 2 [] ]})
          (set_materials (fun _ => {[ 20 := mkBlock "Skin" 1 [30] ]})
             (set_images (fun _ => {[ 30 := mkBlock "skin.png" 1 [] ]})
                (empty_world empty_graph))))).

(** ** Removal of orphans *)




(** ** Selection and hierarchy on the reference host *)

Definition selected {Ext : Type} (w : World Ext) (o : ID) : Prop :=
  o_selected <$> w_objects w !! o = Some true.

(** [c] is an object whose parent is [p]. *)
Definition child_of {Ext : Type} (w : World Ext) (p c : ID) : Prop :=
  o_parent <$> w_objects w !! c = Some (Some p).

(** The objects below [p]: its children, their children, and so on. *)
Inductive descendant {Ext : Type} (w : World Ext) (p : ID) : ID -> Prop :=
| descendant_child (c : ID) : child_of w p c -> descendant w p c
| descendant_step (c o : ID) :
    child_of w p c -> descendant w c o -> descendant w p o.

(** [p] exists and the hierarchy below it has fewer than [depth] levels:
    the recursion over it stays within the interpreter's stack. *)
Fixpoint within {Ext : Type} (depth : nat) (w : World Ext) (p : ID) : Prop :=
  match depth with
  | O => False
  | S depth =>
      is_Some (w_objects w !! p) /\
      forall c, child_of w p c -> within depth w c
  end.

(** Two objects that differ at most by the selection flag, which is not
    cleared. *)
Definition selection_of (a b : object) : Prop :=
  o_name b = o_name a /\ o_type b = o_type a /\ o_data b = o_data a /\
  o_parent b = o_parent a /\ o_location b = o_location a /\
  o_rotation_euler b = o_rotation_euler a /\
  (o_selected a = true -> o_selected b = true).

(** [w'] differs from [w] by the selection of objects only, and every
    object selected in [w] is selected in [w']. *)
Definition selects_only {Ext : Type} (w w' : World Ext) : Prop :=
  exists m, w' = set_objects (fun _ => m) w /\
            forall o, option_Forall2 selection_of (w_objects w !! o) (m !! o).

(** Calls that select an object or list the children of one. *)
Definition selects (c : host_call) : Prop :=
  match c with
  | Call (object_select_set _ true) | Call (object_children _) => True
  | _ => False
  end.

(** [w'] is [w] with the objects of [S] selected besides. *)
Definition selects_more {Ext : Type} (w w' : World Ext) (S : ID -> Prop) : Prop :=
  selects_only w w' /\ forall o, selected w' o <-> selected w o \/ S o.

(** [parent.children] on the reference host. *)
Definition children_of {Ext : Type} (w : World Ext) (p : ID) : list ID :=
  (filter (fun kv : ID * object => o_parent kv.2 = Some p)
     (map_to_list (w_objects w))).*1.

(** [within], computed. *)
Fixpoint within_b {Ext : Type} (depth : nat) (w : World Ext) (p : ID) : bool :=
  match depth with
  | O => false
  | S depth =>
      bool_decide (is_Some (w_objects w !! p)) &&
      forallb (within_b depth w) (children_of w p)
  end.

(** "Root" (1) is the parent of "Body" (2), which is the parent of "Arm"
    (3) and of the camera "Lens" (5); "Other" (4) has no parent and is
    selected. *)
Definition example_hierarchy : World graph :=
  set_objects (fun _ =>
      {[ 1 := mkObject "Root" "EMPTY" None None false [] [];
         2 := mesh_object "Body" 10 (Some 1);
         3 := mesh_object "Arm" 11 (Some 2);
         4 := mkObject "Other" "MESH" (Some 12) None true [] [];
         5 := mkObject "Lens" "CAMERA" (Some 20) (Some 2) false [] [] ]})
    (set_collections (fun _ =>
         {[ 0 := mkCollection "Scene Collection" [1; 2; 3; 4; 5] ]})
       (set_meshes (fun _ => {[ 10 := mkBlock "Body" 1 [];
                                11 := mkBlock "Arm" 1 [];
                                12 := mkBlock "Other" 1 [] ]})
          (set_cameras (fun _ => {[ 20 := mkBlock "Lens" 1 [] ]})
             (empty_world empty_graph)))).

(** [x] is the data block of object [o]. *)
Definition data_of {Ext : Type} (w : World Ext) (o : ID) (x : option ID) : Prop :=
  is_Some x /\ o_data <$> w_objects w !! o = Some x.

(** The objects that a traversal from [p] visits. *)
Definition reach {Ext : Type} (recursive : bool) (w : World Ext) (p o : ID)
    : Prop :=
  if recursive then descendant w p o else child_of w p o.

(** The descendants of [p] below its children. *)
Definition deeper {Ext : Type} (w : World Ext) (p o : ID) : Prop :=
  exists c, child_of w p c /\ descendant w c o.

(** ** The camera that createCamera makes *)

(** [w'] is [w] with a camera made by createCamera: the camera data block
    [n] and the object [S n] around it, which has the location given and
    the rotation given converted to radians, is the last member of
    collection [c], and is the camera of the scene when [set_as_active] is
    set. *)
Definition camera_created {Ext : Type} (name : string) (c : ID)
    (collection_name : string) (members : list ID)
    (location rotation : list pynum) (set_as_active : bool) (n : ID)
    (w w' : World Ext) : Prop :=
  w_objects w' =
    <[S n := mkObject name "CAMERA" (Some n) None false location
               (map radians rotation)]> (w_objects w) /\
  w_cameras w' = <[n := mkBlock name 1 []]> (w_cameras w) /\
  w_collections w' =
    <[c := mkCollection collection_name (members ++ [S n])]> (w_collections w) /\
  w_camera w' = (if set_as_active then Some (S n) else w_camera w).

(** Calls that list or remove the nodes of a tree. *)
Definition cleans (c : host_call) : Prop :=
  match c with
  | Call (tree_nodes _) | Call (tree_nodes_remove _ _) => True
  | _ => False
  end.

(** ** The files that the compositor functions replace *)

(** The file that removeBlenderFrameSuffix renames for [fp]. *)
Definition suffixed (fp : FilePath) : string :=
  getFullPath fp true +:+ "/" +:+ fileName fp +:+ "0000" +:+ "." +:+ fileExt fp.

(** A call that removes or renames a file does it for the output [fp]:
    the file removed is the full path of [fp], and the rename is from its
    suffixed name to its full path. *)
Definition replaces (fp : FilePath) (c : host_call) : Prop :=
  match c with
  | Call (os_remove path) => path = getFullPath fp false
  | Call (os_rename src dst) => src = suffixed fp /\ dst = getFullPath fp false
  | _ => True
  end.

(** [old] occurs in [s]. *)
Fixpoint occurs (old s : string) : bool :=
  String.prefix old s ||
  match s with
  | EmptyString => false
  | String _ s' => occurs old s'
  end.

(** [C:/tex/wood_A0000.tga] has been rendered and no [wood_A.tga] exists. *)
Definition example_rendered : World graph :=
  set_files (fun _ => {[ "C:/tex/wood_A0000.tga" := "new" ]})
    (empty_world empty_graph).

(** An older [wood_A.tga] exists and nothing has been rendered. *)
Definition example_not_rendered : World graph :=
  set_files (fun _ => {[ "C:/tex/wood_A.tga" := "old" ]})
    (empty_world empty_graph).

(** ** Materials *)

(** Calls that read an object, a material, a node tree, a node, a socket,
    a link or an image, and change nothing. *)
Definition inspects (c : host_call) : Prop :=
  match c with
  | Call (object_type _) | Call (object_active_material _)
  | Call (material_node_tree _) | Call (tree_nodes _) | Call (tree_nodes_get _ _)
  | Call (node_type _) | Call (node_image _) | Call (image_filepath _)
  | Call (node_inputs_getitem _ _) | Call (socket_links_len _)
  | Call (socket_links_getitem _ _) | Call (link_from_node _) => True
  | _ => False
  end.

(** Calls that load an image, assign one to a node or create a node. *)
Definition loads_or_creates (c : host_call) : Prop :=
  match c with
  | Call (data_images_load _ _) | Call (node_set_image _ _)
  | Call (tree_nodes_new _ _) => True
  | _ => False
  end.

(** The tree, the output and the input of a call that makes a link. *)
Definition link_of (c : host_call) : option (ID * ID * ID) :=
  match c with
  | Call (tree_links_new t a b) => Some (t, a, b)
  | _ => None
  end.

(** Material 1 has the tree 2 with the shader 3, whose input "Base Color"
    (socket 4) is linked by 6 from the image texture node 7; the image
    [C:/tex/new.png] is on disk. *)
Definition example_linked : World graph :=
  set_files (fun _ => {[ "C:/tex/new.png" := "rgb" ]})
    (empty_world
       (mkGraph
          {[ 1 := 2 ]}
          {[ 2 := [3; 7] ]}
          {[ 3 := "Principled BSDF"; 7 := "Image Texture" ]}
          {[ 3 := [("Base Color", 4)]; 7 := [] ]}
          {[ 4 := [6] ]}
          {[ 6 := 7 ]}
          None {[ 7 := [("Color", 8)] ]} ∅ ∅ ∅ ∅ ∅)).

(** The mesh that a call removes. *)
Definition removed_mesh (c : host_call) : option ID :=
  match c with
  | Call (data_meshes_remove m) => Some m
  | _ => None
  end.

(** [bpy.data.objects.remove] *)
Definition removes_object (c : host_call) : Prop :=
  match c with
  | Call (data_objects_remove _) => True
  | _ => False
  end.

(** ** The selection that joinObjects joins *)

(** Two objects that differ at most by the selection flag. *)
Definition reselected (a b : object) : Prop :=
  o_name b = o_name a /\ o_type b = o_type a /\ o_data b = o_data a /\
  o_parent b = o_parent a /\ o_location b = o_location a /\
  o_rotation_euler b = o_rotation_euler a.

(** The objects of [w'] are those of [w], selected or not. *)
Definition same_objects {Ext : Type} (w w' : World Ext) : Prop :=
  forall o, option_Forall2 reselected (w_objects w !! o) (w_objects w' !! o).

(** The parent of every object exists. *)
Definition parents_exist {Ext : Type} (w : World Ext) : Prop :=
  forall o ob q,
    w_objects w !! o = Some ob -> o_parent ob = Some q ->
    is_Some (w_objects w !! q).

(** * Properties *)

(** ** Execution of compound programs *)

Section RunLemmas.

Context {W : Type}.
Variable h : handler W.

Lemma run_bind {A B : Type} (p : prog A) (f : A -> prog B) (w : W) :
  run h (bind p f) w =
  let '(r, w1, t1) := run h p w in
  match r with
  | Ok x => let '(r2, w2, t2) := run h (f x) w1 in (r2, w2, t1 ++ t2)
  | Err e => (Err e, w1, t1)
  end.
Proof.
  revert B f w.
  induction p as [A r | A e | A X c k IH | A X body IHb cls hd IHh k IHk];
    intros B f w; simpl.
  - destruct (run h (f r) w) as [[r2 w2] t2]. reflexivity.
  - reflexivity.
  - destruct (h X c w) as [[x | e] w1]; [| reflexivity].
    rewrite IH. destruct (run h (k x) w1) as [[[y | e] w2] t1]; [| reflexivity].
    destruct (run h (f y) w2) as [[r2 w3] t2]. reflexivity.
  - destruct (run h body w) as [[[x | e] w1] t1].
    + rewrite IHk. destruct (run h (k x) w1) as [[[y | e] w2] t2]; [| reflexivity].
      destruct (run h (f y) w2) as [[r3 w3] t3]. by rewrite <- app_assoc.
    + destruct (isinstance e cls); [| reflexivity].
      destruct (run h hd w1) as [[[x | e'] w2] t2]; [| reflexivity].
      rewrite IHk. destruct (run h (k x) w2) as [[[y | e''] w3] t3]; [| reflexivity].
      destruct (run h (f y) w3) as [[r4 w4] t4].
      by rewrite <- !app_assoc.
Qed.

Lemma run_call {X : Type} (c : hostE X) (w : W) :
  run h (call c) w =
  match h X c w with
  | (Ok x, w1) => (Ok x, w1, [Step (Call c) w None])
  | (Err e, w1) => (Err e, w1, [Step (Call c) w (Some e)])
  end.
Proof. unfold call. simpl. by destruct (h X c w) as [[x | e] w1]. Qed.

(** A call followed by the rest of the program. *)
Lemma run_call_bind {X B : Type} (c : hostE X) (f : X -> prog B) (w : W) :
  run h (bind (call c) f) w =
  match h X c w with
  | (Ok x, w1) =>
      let '(r, w2, t) := run h (f x) w1 in
      (r, w2, Step (Call c) w None :: t)
  | (Err e, w1) => (Err e, w1, [Step (Call c) w (Some e)])
  end.
Proof. reflexivity. Qed.

End RunLemmas.

(** ** BatchUtilities *)

(** C1: on every host and for every script path and argument list,
    runBatchProcess makes exactly one call, [subprocess.run], whose argument
    vector is the hardcoded blender.exe path, "--background", "--python",
    the script path, the separator "--" and then the arguments, unchanged
    and in their order. *)
Theorem runBatchProcess_argument_vector :
  forall (W : Type) (h : handler W) (w : W)
         (python_file : string) (args : list string),
    calls h (BatchUtilites.runBatchProcess python_file args) w =
    [Call (subprocess_run
             ("C:\Program Files\Blender Foundation\Blender 3.3\blender.exe"
              :: "--background" :: "--python" :: python_file :: "--" :: args))].
Proof.
  intros W h w python_file args.
  unfold calls, steps, BatchUtilites.runBatchProcess.
  rewrite run_call_bind. simpl.
  by destruct (h Z _ w) as [[code | e] w1].
Qed.

(** ** Reasoning on the program text *)

Section TextLemmas.

Variable P : host_call -> Prop.

Lemma always_bind {A B : Type} (p : prog A) (f : A -> prog B) :
  always P p -> (forall x, always P (f x)) -> always P (bind p f).
Proof.
  intros Hp Hf.
  induction p as [A r | A e | A X c k IH | A X body _ cls hd _ k IH]; simpl in *.
  - apply Hf.
  - done.
  - destruct Hp as [Hc Hk]. split; [done |]. intros x. by apply IH.
  - destruct Hp as (Hb & Hh & Hk). repeat split; try done.
    intros x. by apply IH.
Qed.

Lemma always_call {X : Type} (c : hostE X) : P (Call c) -> always P (call c).
Proof. by split. Qed.

Lemma always_for_in {A : Type} (l : list A) (body : A -> prog unit) :
  (forall x, always P (body x)) -> always P (for_in l body).
Proof.
  intros Hb. induction l as [| x l IH]; simpl; [done |].
  apply always_bind; [apply Hb | done].
Qed.

Lemma always_for_flow {A R : Type} (l : list A) (body : A -> prog (flow R)) :
  (forall x, always P (body x)) -> always P (for_flow l body).
Proof.
  intros Hb. induction l as [| x l IH]; simpl; [done |].
  apply always_bind; [apply Hb |]. by intros [| |].
Qed.

Lemma always_for_acc {A S : Type} (l : list A) (s : S)
    (body : A -> S -> prog S) :
  (forall x s, always P (body x s)) -> always P (for_acc l s body).
Proof.
  intros Hb. revert s. induction l as [| x l IH]; intros s; simpl; [done |].
  apply always_bind; [apply Hb | done].
Qed.

Lemma always_list_comp {A B : Type} (l : list A) (f : A -> prog B) :
  (forall x, always P (f x)) -> always P (list_comp l f).
Proof.
  intros Hf. induction l as [| x l IH]; simpl; [done |].
  apply always_bind; [apply Hf |]. intros y.
  by apply always_bind.
Qed.

Lemma always_list_comp_if {A : Type} (l : list A) (cond : A -> prog bool) :
  (forall x, always P (cond x)) -> always P (list_comp_if l cond).
Proof.
  intros Hf. induction l as [| x l IH]; simpl; [done |].
  apply always_bind; [apply Hf |]. intros y.
  by apply always_bind.
Qed.

Lemma always_try_except {X : Type} (body hd : prog X) (cls : exn_class) :
  always P body -> always P hd -> always P (try_except body cls hd).
Proof. by repeat split. Qed.

End TextLemmas.

Section EndsLemmas.

Lemma ends_weaken {R : Type} (Q Q' : R -> Prop) (T T' : exn -> Prop)
    (p : prog R) :
  (forall r, Q r -> Q' r) -> (forall e, T e -> T' e) ->
  ends Q T p -> ends Q' T' p.
Proof.
  intros HQ HT.
  induction p as [A r | A e | A X c k IH | A X body _ cls hd _ k _]; simpl;
    eauto.
Qed.

Lemma ends_bind {A B : Type} (Q' : A -> Prop) (Q : B -> Prop)
    (T : exn -> Prop) (p : prog A) (f : A -> prog B) :
  ends Q' T p -> (forall x, Q' x -> ends Q T (f x)) -> ends Q T (bind p f).
Proof.
  intros Hp Hf.
  induction p as [A r | A e | A X c k IH | A X body _ cls hd _ k _]; simpl in *;
    eauto.
Qed.

Lemma ends_call {X : Type} (Q : X -> Prop) (T : exn -> Prop) (c : hostE X) :
  (forall x, Q x) -> ends Q T (call c).
Proof. intros HQ x. apply HQ. Qed.

Lemma ends_for_in {A : Type} (T : exn -> Prop) (l : list A)
    (body : A -> prog unit) :
  (forall x, ends (fun _ => True) T (body x)) ->
  ends (fun _ => True) T (for_in l body).
Proof.
  intros Hb. induction l as [| x l IH]; simpl; [done |].
  eapply ends_bind; [apply Hb | done].
Qed.

Lemma ends_for_flow {A R : Type} (T : exn -> Prop) (l : list A)
    (body : A -> prog (flow R)) :
  (forall x, ends (fun _ => True) T (body x)) ->
  ends (fun _ => True) T (for_flow l body).
Proof.
  intros Hb. induction l as [| x l IH]; simpl; [done |].
  eapply ends_bind; [apply Hb |]. by intros [| |] _.
Qed.

Lemma ends_for_acc {A S : Type} (T : exn -> Prop) (l : list A) (s : S)
    (body : A -> S -> prog S) :
  (forall x s, ends (fun _ => True) T (body x s)) ->
  ends (fun _ => True) T (for_acc l s body).
Proof.
  intros Hb. revert s. induction l as [| x l IH]; intros s; simpl; [done |].
  eapply ends_bind; [apply Hb | done].
Qed.

Lemma ends_list_comp {A B : Type} (T : exn -> Prop) (l : list A)
    (f : A -> prog B) :
  (forall x, ends (fun _ => True) T (f x)) ->
  ends (fun _ => True) T (list_comp l f).
Proof.
  intros Hf. induction l as [| x l IH]; simpl; [done |].
  eapply ends_bind; [apply Hf |]. intros y _.
  eapply ends_bind; [apply IH | done].
Qed.

Lemma ends_list_comp_if {A : Type} (T : exn -> Prop) (l : list A)
    (cond : A -> prog bool) :
  (forall x, ends (fun _ => True) T (cond x)) ->
  ends (fun _ => True) T (list_comp_if l cond).
Proof.
  intros Hf. induction l as [| x l IH]; simpl; [done |].
  eapply ends_bind; [apply Hf |]. intros y _.
  eapply ends_bind; [apply IH | done].
Qed.

End EndsLemmas.

(** A program without [try] hands every exception to its caller: when a
    call raises, the program ends with that exception, in the state the
    call left; the failing call is the last one. *)
Lemma no_try_propagates {W R : Type} (h : handler W) (p : prog R) (w : W)
    (e : exn) :
  no_try p -> raised h p w e ->
  outcome h p w = Err e /\
  exists s, last (steps h p w) = Some s /\ step_raised s = Some e /\
            final h p w = after h s.
Proof.
  unfold no_try, raised, outcome, steps, final. revert w.
  induction p as [A r | A e' | A X c k IH | A X body _ cls hd _ k _];
    intros w Hp (s & Hs & He); simpl in *.
  - by apply elem_of_nil in Hs.
  - by apply elem_of_nil in Hs.
  - destruct (h X c w) as [[x | e'] w1] eqn:Hc.
    + specialize (IH x w1 (Hp x)).
      destruct (run h (k x) w1) as [[r w2] t]. simpl in *.
      apply elem_of_cons in Hs as [-> | Hs]; [done |].
      destruct (IH (ex_intro _ s (conj Hs He))) as (Ho & s' & Hl & Hr & Hf).
      split; [done |]. exists s'. split_and!; try done.
      destruct t as [| a t]; [done |]. done.
    + simpl in *. apply list_elem_of_singleton in Hs as ->. simpl in He.
      injection He as ->. split; [done |].
      eexists. split_and!; [done | done |]. unfold after. simpl. by rewrite Hc.
  - done.
Qed.

(** Conversely, a program without [try] ends with a returned value, with
    the exception of a call of its own, or with an exception of the
    interpreter. *)
Lemma ends_outcome {W R : Type} (h : handler W) (Q : R -> Prop)
    (T : exn -> Prop) (p : prog R) (w : W) :
  ends Q T p ->
  match outcome h p w with
  | Ok r => Q r
  | Err e => raised h p w e \/ T e
  end.
Proof.
  unfold raised, outcome, steps. revert w.
  induction p as [A r | A e' | A X c k IH | A X body _ cls hd _ k _];
    intros w Hp; simpl in *.
  - done.
  - by right.
  - destruct (h X c w) as [[x | e'] w1] eqn:Hc.
    + specialize (IH x Q w1 (Hp x)).
      destruct (run h (k x) w1) as [[[r | e'] w2] t]; simpl in *; [done |].
      destruct IH as [(s & Hs & He) | HT]; [left | by right].
      exists s. split; [by apply elem_of_cons; right | done].
    + simpl. left. eexists. split; [apply list_elem_of_singleton; reflexivity |].
      done.
  - done.
Qed.

(** One step of a syntactic check of a program against [always]. *)
Ltac always_step :=
  lazymatch goal with
  | |- always _ (bind _ _) => apply always_bind; [| intros ?]
  | |- always _ (call _) => apply always_call; simpl; try tauto
  | |- always _ (Vis _ _) => split; [simpl; try tauto | intros ?]
  | |- always _ (for_in _ _) => apply always_for_in; intros ?
  | |- always _ (for_flow _ _) => apply always_for_flow; intros ?
  | |- always _ (for_acc _ _ _) => apply always_for_acc; intros ? ?
  | |- always _ (list_comp _ _) => apply always_list_comp; intros ?
  | |- always _ (list_comp_if _ _) => apply always_list_comp_if; intros ?
  | |- always _ (try_except _ _ _) => apply always_try_except
  | |- always _ (not_None ?x _) => destruct x; exact I
  | |- always _ (expect_str ?x) => destruct x; exact I
  | |- always _ (expect_struct ?x) => destruct x; exact I
  | |- always _ (list_first ?x) => destruct x; exact I
  | |- always _ (FilePath_exists _) => unfold FilePath_exists
  | |- always _ (FilePath_removeFile _) => unfold FilePath_removeFile
  | |- always _ (Ret _) => exact I
  | |- always _ (Throw _) => exact I
  | |- always _ (match ?x with _ => _ end) => destruct x
  | |- ~ _ /\ _ => split; [simpl; try tauto | intros ?]
  end.

(** The same for [ends], with a condition on the thrown exceptions that
    holds by computation. *)
Ltac no_try_step :=
  lazymatch goal with
  | |- ends _ _ (bind _ _) =>
      apply ends_bind with (Q' := fun _ => True); [| intros ? _]
  | |- ends _ _ (call _) => apply ends_call; intros; exact I
  | |- ends _ _ (Vis _ _) => intros ?
  | |- ends _ _ (for_in _ _) => apply ends_for_in; intros ?
  | |- ends _ _ (for_flow _ _) => apply ends_for_flow; intros ?
  | |- ends _ _ (for_acc _ _ _) => apply ends_for_acc; intros ? ?
  | |- ends _ _ (list_comp _ _) => apply ends_list_comp; intros ?
  | |- ends _ _ (list_comp_if _ _) => apply ends_list_comp_if; intros ?
  | |- ends _ _ (not_None ?x _) => destruct x; first [exact I | reflexivity]
  | |- ends _ _ (expect_str ?x) => destruct x; first [exact I | reflexivity]
  | |- ends _ _ (expect_struct ?x) => destruct x; first [exact I | reflexivity]
  | |- ends _ _ (list_first ?x) => destruct x; first [exact I | reflexivity]
  | |- ends _ _ (FilePath_exists _) => unfold FilePath_exists
  | |- ends _ _ (FilePath_removeFile _) => unfold FilePath_removeFile
  | |- ends _ _ (Ret _) => first [exact I | reflexivity]
  | |- ends _ _ (Throw _) => first [exact I | reflexivity]
  | |- ends _ _ (match ?x with _ => _ end) => destruct x
  end.

(** ** No function but runBatchProcess launches a process *)

Section NoSubprocess.

Lemma createCamera_quiet n c l r e a :
  always quiet (SceneUtilities.createCamera n c l r e a).
Proof. unfold SceneUtilities.createCamera, quiet. repeat always_step. Qed.

Lemma selectChildren_quiet depth parent recursive select_parent :
  always quiet (SceneUtilities.selectChildren depth parent recursive select_parent).
Proof.
  revert parent recursive select_parent.
  induction depth as [| depth IH]; intros parent recursive select_parent;
    simpl; [done |].
  unfold quiet in *. repeat first [apply IH | always_step].
Qed.

Lemma getChildren_quiet depth parent include_meshes recursive :
  always quiet (SceneUtilities.getChildren depth parent include_meshes recursive).
Proof.
  revert parent include_meshes recursive.
  induction depth as [| depth IH]; intros parent include_meshes recursive;
    simpl; [done |].
  unfold quiet in *. repeat first [apply IH | always_step].
Qed.

Lemma getChildMeshes_quiet depth parent recursive include_root :
  always quiet (SceneUtilities.getChildMeshes depth parent recursive include_root).
Proof.
  revert parent recursive include_root.
  induction depth as [| depth IH]; intros parent recursive include_root;
    simpl; [done |].
  unfold quiet in *. repeat first [apply IH | always_step].
Qed.

Lemma renderComposition_quiet t c f :
  always quiet (CompositorUtilities.renderComposition t c f).
Proof.
  unfold CompositorUtilities.renderComposition.
  repeat first [apply createCamera_quiet | unfold quiet; always_step].
Qed.

Lemma removeBlenderFrameSuffix_quiet fp f :
  always quiet (CompositorUtilities.removeBlenderFrameSuffix fp f).
Proof.
  unfold CompositorUtilities.removeBlenderFrameSuffix, quiet.
  repeat always_step.
Qed.

Lemma initCompositor_quiet t :
  always quiet (CompositorUtilities.initCompositor t).
Proof. unfold CompositorUtilities.initCompositor, quiet. repeat always_step. Qed.

Context (FilePath_init : string -> bool -> FilePath).
Context {BlenderMaterialTextureSlots : Type}
        `{EqDecision BlenderMaterialTextureSlots}.
Context (value : BlenderMaterialTextureSlots -> key)
        (Normal : BlenderMaterialTextureSlots).

Lemma getTextureFromSlot_quiet m s :
  always quiet (MaterialUtilities.getTextureFromSlot value Normal m s).
Proof.
  unfold MaterialUtilities.getTextureFromSlot, quiet. repeat always_step.
Qed.

Lemma createTextureNode_quiet t p :
  always quiet (MaterialUtilities.createTextureNode t p).
Proof.
  unfold MaterialUtilities.createTextureNode, quiet. repeat always_step.
Qed.

(** Every function of the repository other than runBatchProcess, with any
    arguments, is free of [subprocess.run]. *)
Lemma repository_never_subprocess (i : invocation) :
  is_runBatchProcess i = false ->
  never is_subprocess_run (program FilePath_init value Normal i).
Proof.
  unfold never. change (fun c => ~ is_subprocess_run c) with quiet.
  destruct i; intros Hi; try discriminate Hi; unfold program.
  - unfold DataUtilities.purgeMeshObjectsFromCollection, quiet.
    repeat always_step.
  - apply createCamera_quiet.
  - unfold SceneUtilities.moveCameraToViewSelected, quiet. repeat always_step.
  - apply selectChildren_quiet.
  - apply getChildren_quiet.
  - apply getChildMeshes_quiet.
  - unfold SceneUtilities.duplicateObject.
    repeat first [apply selectChildren_quiet | unfold quiet; always_step].
  - unfold SceneUtilities.joinObjects.
    repeat first [apply selectChildren_quiet | unfold quiet; always_step].
  - apply initCompositor_quiet.
  - apply renderComposition_quiet.
  - apply removeBlenderFrameSuffix_quiet.
  - unfold CompositorUtilities.extractAlphaToGreyscale.
    repeat first [apply initCompositor_quiet | apply renderComposition_quiet
                 | apply removeBlenderFrameSuffix_quiet
                 | unfold quiet; always_step].
  - unfold CompositorUtilities.packGreyscaleToAlpha.
    repeat first [apply initCompositor_quiet | apply renderComposition_quiet
                 | apply removeBlenderFrameSuffix_quiet
                 | unfold quiet; always_step].
  - unfold CompositorUtilities.blendImages.
    repeat first [apply initCompositor_quiet | apply renderComposition_quiet
                 | apply removeBlenderFrameSuffix_quiet
                 | unfold quiet; always_step].
  - unfold MaterialUtilities.getTextures, quiet. repeat always_step.
  - apply getTextureFromSlot_quiet.
  - unfold MaterialUtilities.setTextureBySlot.
    repeat first [apply getTextureFromSlot_quiet | apply createTextureNode_quiet
                 | unfold quiet; always_step].
  - apply createTextureNode_quiet.
Qed.

End NoSubprocess.

(** ** No function but joinObjects has a [try] statement *)

Section NoTry.

Lemma createCamera_no_try n c l r e a :
  no_try (SceneUtilities.createCamera n c l r e a).
Proof. unfold SceneUtilities.createCamera, no_try. repeat no_try_step. Qed.

Lemma selectChildren_no_try depth parent recursive select_parent :
  no_try (SceneUtilities.selectChildren depth parent recursive select_parent).
Proof.
  revert parent recursive select_parent.
  induction depth as [| depth IH]; intros parent recursive select_parent;
    [done |].
  unfold no_try in *. cbn [SceneUtilities.selectChildren].
  repeat first [apply IH | no_try_step].
Qed.

Lemma getChildren_no_try depth parent include_meshes recursive :
  no_try (SceneUtilities.getChildren depth parent include_meshes recursive).
Proof.
  revert parent include_meshes recursive.
  induction depth as [| depth IH]; intros parent include_meshes recursive;
    [done |].
  unfold no_try in *. cbn [SceneUtilities.getChildren].
  repeat first [apply IH | no_try_step].
Qed.

Lemma getChildMeshes_no_try depth parent recursive include_root :
  no_try (SceneUtilities.getChildMeshes depth parent recursive include_root).
Proof.
  revert parent recursive include_root.
  induction depth as [| depth IH]; intros parent recursive include_root;
    [done |].
  unfold no_try in *. cbn [SceneUtilities.getChildMeshes].
  repeat first [apply IH | no_try_step].
Qed.

Lemma renderComposition_no_try t c f :
  no_try (CompositorUtilities.renderComposition t c f).
Proof.
  unfold CompositorUtilities.renderComposition, no_try.
  repeat first [apply createCamera_no_try | no_try_step].
Qed.

Lemma removeBlenderFrameSuffix_no_try fp f :
  no_try (CompositorUtilities.removeBlenderFrameSuffix fp f).
Proof.
  unfold CompositorUtilities.removeBlenderFrameSuffix, no_try.
  repeat no_try_step.
Qed.

Lemma initCompositor_no_try t :
  no_try (CompositorUtilities.initCompositor t).
Proof. unfold CompositorUtilities.initCompositor, no_try. repeat no_try_step. Qed.

Context (FilePath_init : string -> bool -> FilePath).
Context {BlenderMaterialTextureSlots : Type}
        `{EqDecision BlenderMaterialTextureSlots}.
Context (value : BlenderMaterialTextureSlots -> key)
        (Normal : BlenderMaterialTextureSlots).

Lemma getTextureFromSlot_no_try m s :
  no_try (MaterialUtilities.getTextureFromSlot value Normal m s).
Proof.
  unfold MaterialUtilities.getTextureFromSlot, no_try. repeat no_try_step.
Qed.

Lemma createTextureNode_no_try t p :
  no_try (MaterialUtilities.createTextureNode t p).
Proof.
  unfold MaterialUtilities.createTextureNode, no_try. repeat no_try_step.
Qed.

(** With [cleanup_empties=False] joinObjects does not reach its [try]. *)
Lemma joinObjects_merge_no_try depth a s :
  no_try (SceneUtilities.joinObjects depth a s false).
Proof.
  unfold SceneUtilities.joinObjects, no_try.
  repeat first [apply selectChildren_no_try | no_try_step].
Qed.

(** Every function of the repository other than joinObjects, with any
    arguments, is free of [try]. *)
Lemma repository_no_try (i : invocation) :
  is_joinObjects i = false ->
  no_try (program FilePath_init value Normal i).
Proof.
  destruct i; intros Hi; try discriminate Hi; unfold program.
  - unfold BatchUtilites.runBatchProcess, no_try. repeat no_try_step.
  - unfold DataUtilities.purgeMeshObjectsFromCollection, no_try.
    repeat no_try_step.
  - apply createCamera_no_try.
  - unfold SceneUtilities.moveCameraToViewSelected, no_try.
    repeat no_try_step.
  - apply selectChildren_no_try.
  - apply getChildren_no_try.
  - apply getChildMeshes_no_try.
  - unfold SceneUtilities.duplicateObject, no_try.
    repeat first [apply selectChildren_no_try | no_try_step].
  - apply initCompositor_no_try.
  - apply renderComposition_no_try.
  - apply removeBlenderFrameSuffix_no_try.
  - unfold CompositorUtilities.extractAlphaToGreyscale, no_try.
    repeat first [apply initCompositor_no_try | apply renderComposition_no_try
                 | apply removeBlenderFrameSuffix_no_try | no_try_step].
  - unfold CompositorUtilities.packGreyscaleToAlpha, no_try.
    repeat first [apply initCompositor_no_try | apply renderComposition_no_try
                 | apply removeBlenderFrameSuffix_no_try | no_try_step].
  - unfold CompositorUtilities.blendImages, no_try.
    repeat first [apply initCompositor_no_try | apply renderComposition_no_try
                 | apply removeBlenderFrameSuffix_no_try | no_try_step].
  - unfold MaterialUtilities.getTextures, no_try. repeat no_try_step.
  - apply getTextureFromSlot_no_try.
  - unfold MaterialUtilities.setTextureBySlot, no_try.
    repeat first [apply getTextureFromSlot_no_try
                 | apply createTextureNode_no_try | no_try_step].
  - apply createTextureNode_no_try.
Qed.

End NoTry.

(** C7: runBatchProcess returns only after its one call, [subprocess.run],
    has returned, and with the state that call left; on the reference
    host, where [subprocess.run] starts the process and waits for it, the
    process launched has exited when runBatchProcess returns; and no other
    function of the repository, with any arguments, calls [subprocess.run]
    on any path.  The programs are sequential: the vocabulary of calls has
    no means to start a thread or a second process. *)
Theorem runBatchProcess_blocks_until_exit :
  forall (FilePath_init : string -> bool -> FilePath)
         (Slots : Type) (Slots_eq : EqDecision Slots)
         (value : Slots -> key) (Normal : Slots)
         (python_file : string) (args : list string),
    let argv :=
      "C:\Program Files\Blender Foundation\Blender 3.3\blender.exe"
      :: "--background" :: "--python" :: python_file :: "--" :: args in
    (forall (W : Type) (h : handler W) (w : W),
        run h (BatchUtilites.runBatchProcess python_file args) w =
        match h Z (subprocess_run argv) w with
        | (Ok _, w1) =>
            (Ok tt, w1, [Step (Call (subprocess_run argv)) w None])
        | (Err e, w1) =>
            (Err e, w1, [Step (Call (subprocess_run argv)) w (Some e)])
        end) /\
    (forall (Ext : Type) (oracle : handler (World Ext)) (w : World Ext),
        outcome (host oracle)
          (BatchUtilites.runBatchProcess python_file args) w = Ok tt /\
        w_processes
          (final (host oracle)
             (BatchUtilites.runBatchProcess python_file args) w) =
        w_processes w ++ [mkProcess argv (Exited (w_exit_code w argv))]) /\
    (forall i : invocation,
        is_runBatchProcess i = false ->
        never is_subprocess_run (program FilePath_init value Normal i)).
Proof.
  intros FilePath_init Slots Slots_eq value Normal python_file args argv.
  split_and!.
  - intros W h w. subst argv. unfold BatchUtilites.runBatchProcess.
    rewrite run_call_bind. simpl.
    by destruct (h Z _ w) as [[code | e] w1].
  - intros Ext oracle w. subst argv.
    unfold outcome, final, BatchUtilites.runBatchProcess.
    rewrite run_call_bind. simpl.
    unfold wait. simpl.
    rewrite lookup_app_r by done. rewrite Nat.sub_diag. simpl.
    split; [done |].
    rewrite insert_app_r_alt by done. by rewrite Nat.sub_diag.
  - intros i Hi. by apply repository_never_subprocess.
Qed.

(** The launch of a process by joinObjects would contradict C7; it makes
    none. *)
Lemma runBatchProcess_blocks_until_exit_witness :
  never is_subprocess_run
    (program (fun s _ => mkFilePath s "" "") (fun b : bool => KInt 0) true
       (joinObjects_ 3 1 2 true)).
Proof.
  apply (runBatchProcess_blocks_until_exit
           (fun s _ => mkFilePath s "" "") bool _ (fun b : bool => KInt 0) true
           "script.py" []).
  reflexivity.
Defined.

(** ** joinObjects *)

(** The execution of joinObjects with its cleanup block is the execution
    without it, followed by the guarded removal. *)
Lemma joinObjects_cleanup {W : Type} (h : handler W) (w w1 : W) (depth : nat)
    (a s : ID) (t1 : list (step W)) :
  run h (SceneUtilities.joinObjects depth a s false) w = (Ok tt, w1, t1) ->
  run h (SceneUtilities.joinObjects depth a s true) w =
  match h unit (data_objects_remove s) w1 with
  | (Ok _, w2) =>
      (Ok tt, w2, t1 ++ [Step (Call (data_objects_remove s)) w1 None])
  | (Err e, w2) =>
      (if isinstance e ReferenceError then Ok tt else Err e, w2,
       t1 ++ [Step (Call (data_objects_remove s)) w1 (Some e)])
  end.
Proof.
  unfold SceneUtilities.joinObjects.
  repeat (rewrite !(run_bind h);
          match goal with
          | |- context [run h ?p ?w0] =>
              lazymatch p with
              | bind _ _ => fail
              | Ret _ => fail
              | try_except _ _ _ => fail
              | _ => destruct (run h p w0) as [[[? | ?] ?] ?] eqn:?
              end
          end; try (intros; discriminate)).
  simpl. intros H. simplify_eq.
  destruct (h unit (data_objects_remove s) w1) as [[[] | e] w'] eqn:Hr; simpl.
  - by rewrite <- !app_assoc.
  - destruct (bool_decide (exn_type e = ReferenceError)); simpl;
      by rewrite <- !app_assoc.
Qed.


(** C2: when joinObjects is called with [cleanup_empties=True] and its
    merge part completes, an exception [e] raised by the removal of
    secondary_parent is swallowed when it is a ReferenceError, and
    joinObjects returns normally; an exception of another class reaches the
    caller unchanged.  No other function of the repository has a [try]
    statement, and neither has the part of joinObjects before the removal. *)
Theorem joinObjects_swallows_ReferenceError :
  forall (FilePath_init : string -> bool -> FilePath)
         (Slots : Type) (Slots_eq : EqDecision Slots)
         (value : Slots -> key) (Normal : Slots)
         (W : Type) (h : handler W) (w w1 w2 : W) (depth : nat)
         (active_parent secondary_parent : ID) (t1 : list (step W)) (e : exn),
    run h (SceneUtilities.joinObjects depth active_parent secondary_parent false) w
    = (Ok tt, w1, t1) ->
    h unit (data_objects_remove secondary_parent) w1 = (Err e, w2) ->
    (exn_type e = ReferenceError ->
     run h (SceneUtilities.joinObjects depth active_parent secondary_parent true) w
     = (Ok tt, w2,
        t1 ++ [Step (Call (data_objects_remove secondary_parent)) w1 (Some e)])) /\
    (exn_type e <> ReferenceError ->
     run h (SceneUtilities.joinObjects depth active_parent secondary_parent true) w
     = (Err e, w2,
        t1 ++ [Step (Call (data_objects_remove secondary_parent)) w1 (Some e)])) /\
    (forall i : invocation,
        is_joinObjects i = false ->
        no_try (program FilePath_init value Normal i)) /\
    no_try (SceneUtilities.joinObjects depth active_parent secondary_parent false).
Proof.
  intros FilePath_init Slots Slots_eq value Normal W h w w1 w2 depth a s t1 e
    Hmerge Hremove.
  pose proof (joinObjects_cleanup h w w1 depth a s t1 Hmerge) as Hrun.
  rewrite Hremove in Hrun.
  change (isinstance e ReferenceError)
    with (bool_decide (exn_type e = ReferenceError)) in Hrun.
  split_and!.
  - intros He. by rewrite Hrun, bool_decide_eq_true_2.
  - intros He. by rewrite Hrun, bool_decide_eq_false_2.
  - intros i Hi. by apply repository_no_try.
  - apply joinObjects_merge_no_try.
Qed.

(** The two meshes "Body" and "Arm" are joined: the join destroys "Arm",
    its removal raises ReferenceError, and joinObjects returns. *)
Lemma joinObjects_swallows_ReferenceError_witness :
  outcome (host graph_oracle) (SceneUtilities.joinObjects 3 1 2 true) two_meshes
  = Ok tt.
Proof.
  set (w1 := final (host graph_oracle)
               (SceneUtilities.joinObjects 3 1 2 false) two_meshes).
  set (t1 := steps (host graph_oracle)
               (SceneUtilities.joinObjects 3 1 2 false) two_meshes).
  assert (H1 : run (host graph_oracle)
                 (SceneUtilities.joinObjects 3 1 2 false) two_meshes
               = (Ok tt, w1, t1)) by (vm_compute; reflexivity).
  assert (H2 : host graph_oracle unit (data_objects_remove 2) w1
               = (Err (removed "Object"), w1)) by (vm_compute; reflexivity).
  destruct (joinObjects_swallows_ReferenceError
              (fun s _ => mkFilePath s "" "") bool _ (fun _ => KInt 0) true
              (World graph) (host graph_oracle) two_meshes w1 w1 3 1 2 t1
              (removed "Object") H1 H2) as (H & _).
  unfold outcome. rewrite H; reflexivity.
Defined.

(** On a host whose removal fails otherwise, the failure reaches the
    caller. *)
Example joinObjects_propagates_RuntimeError :
  outcome refusing_remove (SceneUtilities.joinObjects 3 1 2 true) two_meshes
  = Err (Exn RuntimeError "Object must have zero users to be removed").
Proof. vm_compute. reflexivity. Qed.

(** ** The frame suffix and the file names *)

Lemma append_inv_head (s a b : string) : s +:+ a = s +:+ b -> a = b.
Proof. induction s as [| c s IH]; simpl; [done |]. intros [=]. auto. Qed.

Lemma append_length (a b : string) :
  String.length (a +:+ b) = String.length a + String.length b.
Proof. induction a as [| c a IH]; simpl; [done |]. by rewrite IH. Qed.

(** The file with the "0000" suffix is not the destination. *)
Lemma tmpOutput_ne_full (fp : FilePath) :
  getFullPath fp true +:+ "/" +:+ fileName fp +:+ "0000" +:+ "." +:+ fileExt fp
  <> getFullPath fp false.
Proof.
  unfold getFullPath. intros H.
  do 3 apply append_inv_head in H. discriminate H.
Qed.

Lemma pretty_N_go_head (x : N) (s : string) :
  (0 < x)%N ->
  exists c s', pretty_N_go x s = String c s' /\ c <> "0"%char.
Proof.
  revert s. induction (N.lt_wf_0 x) as [x _ IH]; intros s Hx.
  rewrite pretty_N_go_step by done.
  destruct (decide (x `div` 10 = 0)%N) as [H0 | H0].
  - rewrite H0, pretty_N_go_0. eexists _, _. split; [done |].
    assert (x < 10)%N.
    { pose proof (N.div_mod x 10 ltac:(done)) as Hd.
      rewrite H0, N.mul_0_r, N.add_0_l in Hd. rewrite Hd.
      by apply N.mod_lt. }
    rewrite N.mod_small by done.
    assert (x = 1 \/ x = 2 \/ x = 3 \/ x = 4 \/ x = 5 \/ x = 6
            \/ x = 7 \/ x = 8 \/ x = 9)%N as Hc by lia.
    by destruct Hc as [-> | [-> | [-> | [-> | [-> | [-> | [-> | [-> | ->]]]]]]]].
  - apply IH; [by apply N.div_lt | by apply N.neq_0_lt_0].
Qed.

Lemma pretty_N_head (x : N) :
  (0 < x)%N -> exists c s', pretty x = String c s' /\ c <> "0"%char.
Proof.
  intros Hx. unfold pretty, pretty_N.
  destruct (decide (x = 0)%N); [lia |]. by apply pretty_N_go_head.
Qed.

Lemma zfill_pos_ne_zeros (x : N) : (0 < x)%N -> zfill 4 (pretty x) <> "0000".
Proof.
  intros Hx. destruct (pretty_N_head x Hx) as (c & s & -> & Hc).
  unfold zfill. generalize (4 - String.length (String c s)). intros k H.
  destruct k as [| [| [| [| [| k]]]]];
    cbv beta iota delta [String.append zeros] in H; by simplify_eq.
Qed.

(** Only frame 0 has the suffix "0000". *)
Lemma frame_suffix_0000 (frame : Z) : frame <> 0%Z -> frame_suffix frame <> "0000".
Proof.
  intros Hf. unfold frame_suffix.
  destruct (frame <? 0)%Z eqn:Hneg; [done |].
  apply zfill_pos_ne_zeros. apply Z.ltb_ge in Hneg. lia.
Qed.

Lemma frame_suffix_nonempty (frame : Z) : frame_suffix frame <> "".
Proof.
  unfold frame_suffix. destruct (frame <? 0)%Z; [done |].
  unfold zfill. intros H.
  assert (String.length (zeros (4 - String.length (pretty (Z.to_N frame)))
                         +:+ pretty (Z.to_N frame)) = 0) as Hl by by rewrite H.
  rewrite append_length in Hl.
  assert (forall k, String.length (zeros k) = k) as Hz.
  { induction k; simpl; auto. }
  rewrite Hz in Hl. lia.
Qed.

(** The file of a render differs from the destination, and from the file
    with the "0000" suffix unless the frame is 0. *)
Lemma rendered_file_ne_full (fp : FilePath) (frame : Z) :
  rendered_file fp frame <> getFullPath fp false.
Proof.
  unfold rendered_file, getFullPath. intros H.
  do 3 apply append_inv_head in H.
  apply (frame_suffix_nonempty frame).
  assert (String.length (frame_suffix frame +:+ "." +:+ fileExt fp)
          = String.length ("." +:+ fileExt fp)) as Hlen by by rewrite H.
  rewrite append_length in Hlen.
  destruct (frame_suffix frame); [done | simpl in Hlen; lia].
Qed.

Lemma rendered_file_ne_tmpOutput (fp : FilePath) (frame : Z) :
  frame <> 0%Z ->
  rendered_file fp frame
  <> getFullPath fp true +:+ "/" +:+ fileName fp +:+ "0000" +:+ "." +:+ fileExt fp.
Proof.
  intros Hf. unfold rendered_file. intros H.
  do 3 apply append_inv_head in H.
  apply (frame_suffix_0000 frame Hf).
  assert (forall a b t : string,
             String.length a = String.length b -> a +:+ t = b +:+ t -> a = b)
    as Hinj.
  { induction a as [| x a IH]; intros [| y b] t Hl Hab; simpl in *;
      try done; simplify_eq; f_equal; eauto. }
  destruct (decide (String.length (frame_suffix frame) = 4)) as [Hl | Hl].
  - by apply (Hinj _ "0000" ("." +:+ fileExt fp)).
  - exfalso. apply Hl.
    assert (String.length (frame_suffix frame +:+ "." +:+ fileExt fp)
            = String.length ("0000" +:+ "." +:+ fileExt fp)) as Hlen
      by by rewrite H.
    rewrite !append_length in Hlen. simpl in Hlen. lia.
Qed.

(** ** removeBlenderFrameSuffix on the reference host *)

Section Files.

Context {Ext : Type}.
Variable oracle : handler (World Ext).

Lemma cleared_files (fp : FilePath) (w : World Ext) :
  w_files (cleared fp w) = delete (getFullPath fp false) (w_files w).
Proof.
  unfold cleared. case_bool_decide as H; [done |].
  symmetry. apply delete_id. by apply eq_None_not_Some.
Qed.

(** The whole execution: the destination is cleared, then the file with
    the "0000" suffix is renamed, if there is one. *)
Lemma removeBlenderFrameSuffix_run (fp : FilePath) (frame : Z) (w : World Ext) :
  let tmp :=
    getFullPath fp true +:+ "/" +:+ fileName fp +:+ "0000" +:+ "."
      +:+ fileExt fp in
  let full := getFullPath fp false in
  run (host oracle) (CompositorUtilities.removeBlenderFrameSuffix fp frame) w =
  match w_files w !! tmp with
  | Some content =>
      (Ok tt,
       set_files (fun fs => <[full := content]> (delete tmp fs)) (cleared fp w),
       clearing fp w ++ [Step (Call (os_rename tmp full)) (cleared fp w) None])
  | None =>
      let e := Exn FileNotFoundError
                 ("No such file or directory: '" +:+ tmp +:+ "' -> '"
                  +:+ full +:+ "'") in
      (Err e, cleared fp w,
       clearing fp w ++ [Step (Call (os_rename tmp full)) (cleared fp w) (Some e)])
  end.
Proof.
  intros tmp full.
  pose proof (tmpOutput_ne_full fp) as Hne. fold tmp full in Hne.
  assert (w_files (cleared fp w) !! tmp = w_files w !! tmp) as Htmp.
  { rewrite cleared_files. by apply lookup_delete_ne. }
  assert (w_files (cleared fp w) !! full = None) as Hfull.
  { rewrite cleared_files. apply lookup_delete_eq. }
  assert (run (host oracle)
            (call (os_rename tmp full);; Ret tt) (cleared fp w) =
          match w_files w !! tmp with
          | Some content =>
              (Ok tt,
               set_files (fun fs => <[full := content]> (delete tmp fs))
                 (cleared fp w),
               [Step (Call (os_rename tmp full)) (cleared fp w) None])
          | None =>
              let e := Exn FileNotFoundError
                         ("No such file or directory: '" +:+ tmp +:+ "' -> '"
                          +:+ full +:+ "'") in
              (Err e, cleared fp w,
               [Step (Call (os_rename tmp full)) (cleared fp w) (Some e)])
          end) as Hrename.
  { rewrite run_call_bind. cbn [host]. unfold rename.
    rewrite Htmp, Hfull.
    destruct (w_files w !! tmp) as [content |]; [| done].
    rewrite bool_decide_eq_false_2 by (by intros [? ?]).
    by rewrite andb_false_r. }
  unfold CompositorUtilities.removeBlenderFrameSuffix, FilePath_exists,
    FilePath_removeFile.
  fold tmp full. rewrite run_call_bind. cbn [host].
  unfold cleared, clearing in *. fold full in Hrename |- *.
  case_bool_decide as Hex.
  - rewrite run_bind, run_call. cbn [host].
    destruct Hex as [old Hold]. rewrite Hold.
    rewrite Hrename. by destruct (w_files w !! tmp).
  - rewrite run_bind. cbn [run]. rewrite Hrename.
    by destruct (w_files w !! tmp).
Qed.

End Files.

(** C4: for a FilePath with directory d, name n and extension e, when the
    rendered file d/n0000.e exists, removeBlenderFrameSuffix returns after
    asking whether d/n.e exists, removing it if it does, and then renaming
    d/n0000.e to d/n.e; afterwards d/n.e holds the rendered content and
    d/n0000.e is gone, and no other file has changed. *)
Theorem removeBlenderFrameSuffix_renames_render :
  forall (Ext : Type) (oracle : handler (World Ext)) (w : World Ext)
         (d n e : string) (frame : Z) (content : string),
    let file_path := mkFilePath d n e in
    let tmp := d +:+ "/" +:+ n +:+ "0000" +:+ "." +:+ e in
    let full := d +:+ "/" +:+ n +:+ "." +:+ e in
    let p := CompositorUtilities.removeBlenderFrameSuffix file_path frame in
    w_files w !! tmp = Some content ->
    outcome (host oracle) p w = Ok tt /\
    calls (host oracle) p w =
      Call (os_path_exists full)
      :: (if bool_decide (is_Some (w_files w !! full))
          then [Call (os_remove full)] else [])
      ++ [Call (os_rename tmp full)] /\
    w_files (final (host oracle) p w) = <[full := content]> (delete tmp (w_files w)) /\
    w_files (final (host oracle) p w) !! full = Some content /\
    w_files (final (host oracle) p w) !! tmp = None.
Proof.
  intros Ext oracle w d n e frame content file_path tmp full p Htmp.
  pose proof (tmpOutput_ne_full file_path) as Hne.
  pose proof (removeBlenderFrameSuffix_run oracle file_path frame w) as Hrun.
  cbv zeta in Hrun.
  change (getFullPath file_path true +:+ "/" +:+ fileName file_path +:+ "0000"
            +:+ "." +:+ fileExt file_path) with tmp in Hrun, Hne.
  change (getFullPath file_path false) with full in Hrun, Hne.
  rewrite Htmp in Hrun.
  assert (w_files (final (host oracle) p w)
          = <[full := content]> (delete tmp (w_files w))) as Hfiles.
  { unfold final, p. rewrite Hrun. cbn. rewrite cleared_files.
    change (getFullPath file_path false) with full.
    rewrite delete_delete. by rewrite insert_delete_eq. }
  split_and!.
  - unfold outcome, p. by rewrite Hrun.
  - unfold calls, steps, p. rewrite Hrun. cbn [snd]. unfold clearing.
    change (getFullPath file_path false) with full.
    rewrite map_app. cbn. by case_bool_decide.
  - done.
  - rewrite Hfiles. apply lookup_insert_eq.
  - rewrite Hfiles. rewrite lookup_insert_ne by done. apply lookup_delete_eq.
Qed.

(** The render [wood_A0000.tga] replaces the older [wood_A.tga]. *)
Lemma removeBlenderFrameSuffix_renames_render_witness :
  w_files (final (host graph_oracle)
             (CompositorUtilities.removeBlenderFrameSuffix
                (mkFilePath "C:/tex" "wood_A" "tga") 0)
             example_files)
  !! "C:/tex/wood_A.tga" = Some "new".
Proof.
  apply (removeBlenderFrameSuffix_renames_render
           graph graph_oracle example_files "C:/tex" "wood_A" "tga" 0 "new").
  vm_compute. reflexivity.
Defined.

(** C9: removeBlenderFrameSuffix does not look at [frame]: the program is
    the same for every frame, and on every host the only file it renames is
    the one with the literal suffix "0000".  The suffix of a render of a
    frame other than 0 is not "0000", and on the reference host the file of
    such a render is still there, under its suffixed name, after the call. *)
Theorem removeBlenderFrameSuffix_ignores_frame :
  forall (file_path : FilePath) (frame : Z),
    let tmp :=
      getFullPath file_path true +:+ "/" +:+ fileName file_path +:+ "0000"
        +:+ "." +:+ fileExt file_path in
    (forall frame' : Z,
        CompositorUtilities.removeBlenderFrameSuffix file_path frame =
        CompositorUtilities.removeBlenderFrameSuffix file_path frame') /\
    (forall (W : Type) (h : handler W) (w : W),
        Forall (fun c => forall src dst,
                    rename_of c = Some (src, dst) ->
                    src = tmp /\ dst = getFullPath file_path false)
          (calls h (CompositorUtilities.removeBlenderFrameSuffix file_path frame) w)) /\
    (frame <> 0%Z ->
     frame_suffix frame <> "0000" /\
     rendered_file file_path frame <> tmp /\
     forall (Ext : Type) (oracle : handler (World Ext)) (w : World Ext)
            (content : string),
       w_files w !! rendered_file file_path frame = Some content ->
       w_files (final (host oracle)
                  (CompositorUtilities.removeBlenderFrameSuffix file_path frame) w)
       !! rendered_file file_path frame = Some content).
Proof.
  intros file_path frame tmp. split_and!.
  - reflexivity.
  - intros W h w.
    unfold calls, steps, CompositorUtilities.removeBlenderFrameSuffix,
      FilePath_exists, FilePath_removeFile.
    rewrite run_call_bind.
    destruct (h bool _ w) as [[[|] | e1] w1]; cbn.
    + destruct (h unit (os_remove _) w1) as [[[] | e2] w2]; cbn.
      * destruct (h unit (os_rename _ _) w2) as [[[] | e3] w3]; cbn;
          repeat first [apply Forall_nil_2 | apply Forall_cons_2]; cbn;
          intros; by simplify_eq.
      * repeat first [apply Forall_nil_2 | apply Forall_cons_2]; cbn;
          intros; by simplify_eq.
    + destruct (h unit (os_rename _ _) w1) as [[[] | e3] w3]; cbn;
        repeat first [apply Forall_nil_2 | apply Forall_cons_2]; cbn;
          intros; by simplify_eq.
    + repeat first [apply Forall_nil_2 | apply Forall_cons_2]; cbn;
          intros; by simplify_eq.
  - intros Hframe.
    pose proof (rendered_file_ne_tmpOutput file_path frame Hframe) as Hne.
    pose proof (rendered_file_ne_full file_path frame) as Hfull.
    split_and!; [by apply frame_suffix_0000 | done |].
    intros Ext oracle w content Hfile.
    pose proof (removeBlenderFrameSuffix_run oracle file_path frame w) as Hrun.
    cbv zeta in Hrun. fold tmp in Hrun, Hne.
    unfold final. rewrite Hrun.
    destruct (w_files w !! tmp) as [c |]; cbn; rewrite cleared_files.
    + rewrite lookup_insert_ne by done.
      rewrite lookup_delete_ne by done.
      by rewrite lookup_delete_ne.
    + by rewrite lookup_delete_ne.
Qed.

(** A render of frame 1 to [wood_A] is the file [wood_A0001.tga]; the
    call leaves it where it is. *)
Lemma removeBlenderFrameSuffix_ignores_frame_witness :
  w_files (final (host graph_oracle)
             (CompositorUtilities.removeBlenderFrameSuffix
                (mkFilePath "C:/tex" "wood_A" "tga") 1)
             (set_files (insert "C:/tex/wood_A0001.tga" "frame 1") example_files))
  !! "C:/tex/wood_A0001.tga" = Some "frame 1".
Proof.
  apply (removeBlenderFrameSuffix_ignores_frame
           (mkFilePath "C:/tex" "wood_A" "tga") 1).
  - discriminate.
  - vm_compute. reflexivity.
Defined.

(** ** Errors *)

(** C3: getTextureFromSlot and removeBlenderFrameSuffix have no [try]
    statement, so on every host an exception raised by one of their calls
    ends the function with that same exception, in the state the failing
    call left, and the failing call is the last one made.  In particular,
    when the node tree has no node "Principled BSDF" the lookup returns
    None and the attribute access on it raises AttributeError; when the
    input of the slot is missing, the exception of that subscript reaches
    the caller; and on the reference host, when the file with the "0000"
    suffix does not exist, removeBlenderFrameSuffix ends with the
    FileNotFoundError of [os.rename]. *)
Theorem errors_reach_the_caller_unchanged :
  forall (Slots : Type) (Slots_eq : EqDecision Slots)
         (value : Slots -> key) (Normal : Slots)
         (material : ID) (slot : Slots) (file_path : FilePath) (frame : Z),
    let get := MaterialUtilities.getTextureFromSlot value Normal material slot in
    let strip := CompositorUtilities.removeBlenderFrameSuffix file_path frame in
    let tmp :=
      getFullPath file_path true +:+ "/" +:+ fileName file_path +:+ "0000"
        +:+ "." +:+ fileExt file_path in
    (no_try get /\ no_try strip) /\
    (forall (W : Type) (h : handler W) (w : W) (e : exn),
        raised h get w e ->
        outcome h get w = Err e /\
        exists s, last (steps h get w) = Some s /\ step_raised s = Some e /\
                  final h get w = after h s) /\
    (forall (W : Type) (h : handler W) (w w1 w2 : W) (tree : ID),
        h _ (material_node_tree material) w = (Ok (Some tree), w1) ->
        h _ (tree_nodes_get tree "Principled BSDF") w1 = (Ok None, w2) ->
        outcome h get w = Err (NoneType_has_no_attribute "inputs") /\
        final h get w = w2) /\
    (forall (W : Type) (h : handler W) (w w1 w2 w3 : W) (tree shader : ID)
            (e : exn),
        h _ (material_node_tree material) w = (Ok (Some tree), w1) ->
        h _ (tree_nodes_get tree "Principled BSDF") w1 = (Ok (Some shader), w2) ->
        h _ (node_inputs_getitem shader (value slot)) w2 = (Err e, w3) ->
        outcome h get w = Err e /\ final h get w = w3) /\
    (forall (W : Type) (h : handler W) (w : W) (e : exn),
        raised h strip w e ->
        outcome h strip w = Err e /\
        exists s, last (steps h strip w) = Some s /\ step_raised s = Some e /\
                  final h strip w = after h s) /\
    (forall (Ext : Type) (oracle : handler (World Ext)) (w : World Ext),
        w_files w !! tmp = None ->
        exists e, outcome (host oracle) strip w = Err e /\
                  exn_type e = FileNotFoundError /\
                  last (steps (host oracle) strip w)
                  = Some (Step (Call (os_rename tmp (getFullPath file_path false)))
                            (cleared file_path w) (Some e))).
Proof.
  intros Slots Slots_eq value Normal material slot file_path frame get strip tmp.
  assert (no_try get) as Hget by apply getTextureFromSlot_no_try.
  assert (no_try strip) as Hstrip by apply removeBlenderFrameSuffix_no_try.
  split_and!; try done.
  - intros W h w e. by apply no_try_propagates.
  - intros W h w w1 w2 tree H1 H2.
    unfold outcome, final, get, MaterialUtilities.getTextureFromSlot.
    rewrite run_call_bind, H1. cbn [bind not_None].
    rewrite run_call_bind, H2. by cbn.
  - intros W h w w1 w2 w3 tree shader e H1 H2 H3.
    unfold outcome, final, get, MaterialUtilities.getTextureFromSlot.
    rewrite run_call_bind, H1. cbn [bind not_None].
    rewrite run_call_bind, H2. cbn [bind not_None].
    rewrite run_call_bind, H3. by cbn.
  - intros W h w e. by apply no_try_propagates.
  - intros Ext oracle w Htmp.
    pose proof (removeBlenderFrameSuffix_run oracle file_path frame w) as Hrun.
    cbv zeta in Hrun. fold tmp strip in Hrun. rewrite Htmp in Hrun.
    eexists. unfold outcome, steps. rewrite Hrun. cbn [fst snd].
    split_and!; [done | done |]. by rewrite last_snoc.
Qed.

(** The "Normal" input of the example shader is linked to a normal map
    node whose "Color" input is not linked: the subscript [links[0]] raises
    IndexError, which getTextureFromSlot hands to its caller. *)
Lemma errors_reach_the_caller_unchanged_witness :
  outcome (host graph_oracle)
    (MaterialUtilities.getTextureFromSlot example_value NormalMap 1 NormalMap)
    example_materials
  = Err (Exn IndexError "bpy_prop_collection[index]: index out of range").
Proof.
  apply (errors_reach_the_caller_unchanged
           example_slot _ example_value NormalMap 1 NormalMap
           (mkFilePath "" "" "") 0).
  eexists. split.
  - apply (list_elem_of_lookup_2 _ 8). vm_compute. reflexivity.
  - reflexivity.
Defined.

(** The example shader has no input "Roughness". *)
Example getTextureFromSlot_missing_input :
  outcome (host graph_oracle)
    (MaterialUtilities.getTextureFromSlot example_value NormalMap 1 Roughness)
    example_materials
  = Err (key_not_found "Roughness").
Proof. vm_compute. reflexivity. Qed.

(** The tree of material 9 has no node "Principled BSDF". *)
Example getTextureFromSlot_missing_shader :
  outcome (host graph_oracle)
    (MaterialUtilities.getTextureFromSlot example_value NormalMap 9 BaseColor)
    example_materials
  = Err (NoneType_has_no_attribute "inputs").
Proof. vm_compute. reflexivity. Qed.

(** An input that is not linked is no error: the result is None. *)
Example getTextureFromSlot_not_linked :
  outcome (host graph_oracle)
    (MaterialUtilities.getTextureFromSlot example_value NormalMap 1 BaseColor)
    example_materials
  = Ok None.
Proof. vm_compute. reflexivity. Qed.

(** ** extractAlphaToGreyscale *)

(** createCamera in the active collection raises nothing of its own. *)
Lemma createCamera_active_ends n l r e a :
  ends (fun _ => True) (fun _ => False)
    (SceneUtilities.createCamera n None l r e a).
Proof.
  unfold SceneUtilities.createCamera. cbn [truthy].
  repeat no_try_step.
Qed.

Lemma renderComposition_ends t c f :
  ends (fun _ => True) (fun _ => False)
    (CompositorUtilities.renderComposition t c f).
Proof.
  unfold CompositorUtilities.renderComposition.
  repeat first [apply createCamera_active_ends | no_try_step].
Qed.

Lemma removeBlenderFrameSuffix_ends fp f :
  ends (fun _ => True) (fun _ => False)
    (CompositorUtilities.removeBlenderFrameSuffix fp f).
Proof.
  unfold CompositorUtilities.removeBlenderFrameSuffix.
  repeat no_try_step.
Qed.

Lemma initCompositor_ends t :
  ends (fun _ => True) (fun e => e = NoneType_has_no_attribute "nodes")
    (CompositorUtilities.initCompositor t).
Proof. unfold CompositorUtilities.initCompositor. repeat no_try_step. Qed.

(** C10: extractAlphaToGreyscale returns, unless a call to the host raises
    or the scene has no node tree, the FilePath it chose: built from
    dst_img when dst_img is provided, whatever dst_suffix is; otherwise,
    when dst_suffix is provided, built from the directory of the source
    with the source name, an underscore and dst_suffix as its name and the
    extension of the source; otherwise built from the full path of the
    source.  When the FilePath constructor keeps a directory given with
    [has_name=False] and reads the full path of the source back, this is
    the destination of the specification. *)
Theorem extractAlphaToGreyscale_destination :
  forall (FilePath_init : string -> bool -> FilePath)
         (src_img : string) (dst_img dst_suffix : option string)
         (format : string) (do_cleanup : bool),
    let srcTex := FilePath_init src_img true in
    let chosen :=
      if truthy dst_img then FilePath_init (default "" dst_img) true
      else if truthy dst_suffix then
        mkFilePath (fileDir (FilePath_init (getFullPath srcTex true) false))
          (fileName srcTex +:+ "_" +:+ default "" dst_suffix) (fileExt srcTex)
      else FilePath_init (getFullPath srcTex false) true in
    let p :=
      CompositorUtilities.extractAlphaToGreyscale FilePath_init src_img
        dst_img dst_suffix format do_cleanup in
    (forall (W : Type) (h : handler W) (w : W),
        match outcome h p w with
        | Ok r => r = chosen
        | Err e => raised h p w e \/ e = NoneType_has_no_attribute "nodes"
        end) /\
    ((forall d, fileDir (FilePath_init d false) = d) ->
     FilePath_init (getFullPath srcTex false) true = srcTex ->
     chosen = destination FilePath_init src_img dst_img dst_suffix).
Proof.
  intros FilePath_init src_img dst_img dst_suffix format do_cleanup srcTex
    chosen p.
  split.
  - intros W h w. apply ends_outcome.
    unfold p, CompositorUtilities.extractAlphaToGreyscale.
    eapply ends_bind; [apply initCompositor_ends |].
    intros [nodeTree outputNode] _.
    repeat lazymatch goal with
           | |- ends ?Q ?T (bind (call ?c) ?f) =>
               change (forall x, ends Q T (f x)); intros ?; cbv beta
           end.
    apply ends_bind with (Q' := fun r => r = chosen).
    + unfold chosen.
      destruct dst_img as [dst |]; cbn [truthy].
      * destruct (negb (dst =? "")%string); [done |].
        destruct dst_suffix as [suffix |]; cbn [truthy]; [| done].
        by destruct (negb (suffix =? "")%string).
      * destruct dst_suffix as [suffix |]; cbn [truthy]; [| done].
        by destruct (negb (suffix =? "")%string).
    + intros dstTex ->.
      repeat first
        [ eapply ends_weaken;
            [| | apply renderComposition_ends]; [done | done]
        | eapply ends_weaken;
            [| | apply removeBlenderFrameSuffix_ends]; [done | done]
        | no_try_step ].
  - intros Hdir Hfull. unfold chosen, destination. fold srcTex.
    destruct (truthy dst_img); [done |].
    destruct (truthy dst_suffix); [| done].
    by rewrite Hdir.
Qed.

(** With the suffix "A" the alpha of [C:/tex/wood.tga] goes to
    [C:/tex/wood_A.tga]. *)
Lemma extractAlphaToGreyscale_destination_witness :
  outcome (host graph_oracle)
    (CompositorUtilities.extractAlphaToGreyscale example_FilePath_init
       "C:/tex/wood.tga" None (Some "A") "TARGA" true) example_source
  = Ok (destination example_FilePath_init "C:/tex/wood.tga" None (Some "A")).
Proof.
  destruct (extractAlphaToGreyscale_destination example_FilePath_init
              "C:/tex/wood.tga" None (Some "A") "TARGA" true) as [Hrun Hspec].
  specialize (Hrun _ (host graph_oracle) example_source).
  rewrite <- Hspec; [| reflexivity | reflexivity].
  destruct (outcome _ _ _) as [r | e] eqn:Hout.
  - by rewrite Hrun.
  - exfalso. vm_compute in Hout. discriminate Hout.
Defined.

Example extractAlphaToGreyscale_writes_destination :
  map_to_list
    (w_files (final (host graph_oracle)
       (CompositorUtilities.extractAlphaToGreyscale example_FilePath_init
          "C:/tex/wood.tga" None (Some "A") "TARGA" true) example_source))
  = [("C:/tex/wood_A.tga", "render"); ("C:/tex/wood.tga", "rgba")].
Proof. vm_compute. reflexivity. Qed.

(** dst_img has precedence over dst_suffix. *)
Example extractAlphaToGreyscale_precedence :
  outcome (host graph_oracle)
    (CompositorUtilities.extractAlphaToGreyscale example_FilePath_init
       "C:/tex/wood.tga" (Some "C:/out/alpha.tga") (Some "A") "TARGA" true)
    example_source
  = Ok (mkFilePath "C:/out" "alpha" "tga").
Proof. vm_compute. reflexivity. Qed.

(** ** Loops that return from their body *)

Section Loops.

Context {W : Type}.
Variable h : handler W.

(** A loop whose body returns [r] at the elements that are [good] and goes
    on at the others returns [r] when the list has a good element. *)
Lemma run_for_flow_found {A R : Type} (l : list A) (body : A -> prog (flow R))
    (Inv : W -> Prop) (good : A -> Prop) (Q : host_call -> Prop) (r : R) (w : W) :
  (forall x w, Inv w -> x ∈ l ->
     exists w' t, Inv w' /\ Forall Q (map step_call t) /\
       ((good x /\ run h (body x) w = (Ok (Return r), w', t)) \/
        (~ good x /\ run h (body x) w = (Ok Next, w', t)))) ->
  Exists good l -> Inv w ->
  exists w' t, run h (for_flow l body) w = (Ok (Some r), w', t) /\ Inv w' /\
               Forall Q (map step_call t).
Proof.
  intros Hbody Hex. revert w.
  induction l as [| x l IH]; intros w Hinv; [by apply Exists_nil in Hex |].
  destruct (Hbody x w Hinv) as (w1 & t1 & Hinv1 & Ht1 & Hcase);
    [by left |].
  cbn [for_flow]. rewrite run_bind.
  destruct Hcase as [[Hgood ->] | [Hbad ->]].
  - exists w1, (t1 ++ []). cbn. split_and!; [done | done |].
    by rewrite app_nil_r.
  - apply Exists_cons in Hex as [Hx | Hex]; [done |].
    destruct (IH (fun y v Hv Hy => Hbody y v Hv (list_elem_of_further _ _ _ Hy))
                Hex w1 Hinv1) as (w2 & t2 & Hrun & Hinv2 & Ht2).
    exists w2, (t1 ++ t2). rewrite Hrun. split_and!; [done | done |].
    rewrite map_app. by apply Forall_app.
Qed.

(** A loop whose body goes on at every element ends without a result. *)
Lemma run_for_flow_not_found {A R : Type} (l : list A)
    (body : A -> prog (flow R)) (Inv : W -> Prop) (Q : host_call -> Prop)
    (w : W) :
  (forall x w, Inv w -> x ∈ l ->
     exists w' t, Inv w' /\ Forall Q (map step_call t) /\
       run h (body x) w = (Ok Next, w', t)) ->
  Inv w ->
  exists w' t, run h (for_flow l body) w = (Ok None, w', t) /\ Inv w' /\
               Forall Q (map step_call t).
Proof.
  intros Hbody. revert w.
  induction l as [| x l IH]; intros w Hinv.
  - exists w, []. by split_and!.
  - destruct (Hbody x w Hinv) as (w1 & t1 & Hinv1 & Ht1 & Hrun1); [by left |].
    cbn [for_flow]. rewrite run_bind, Hrun1.
    destruct (IH (fun y v Hv Hy => Hbody y v Hv (list_elem_of_further _ _ _ Hy))
                w1 Hinv1) as (w2 & t2 & Hrun & Hinv2 & Ht2).
    exists w2, (t1 ++ t2). rewrite Hrun. split_and!; [done | done |].
    rewrite map_app. by apply Forall_app.
Qed.

End Loops.

(** ** Invariants of an execution *)

Section Invariants.

Context {W : Type}.
Variable h : handler W.

(** The calls of an execution are calls of the program. *)
Lemma always_calls (P : host_call -> Prop) {R : Type} (p : prog R) (w : W) :
  always P p -> Forall P (calls h p w).
Proof.
  unfold calls, steps. revert w.
  induction p as [A r | A e | A X c k IH | A X body IHb cls hd IHh k IHk];
    intros w Hp; cbn [run always] in *.
  - constructor.
  - constructor.
  - destruct Hp as [Hc Hk].
    destruct (h X c w) as [[x | e] w1].
    + specialize (IH x w1 (Hk x)).
      destruct (run h (k x) w1) as [[r w2] t]. cbn in *. by constructor.
    + cbn. by repeat constructor.
  - destruct Hp as (Hb & Hh & Hk). specialize (IHb w Hb).
    destruct (run h body w) as [[[x | e] w1] t1].
    + specialize (IHk x w1 (Hk x)).
      destruct (run h (k x) w1) as [[r2 w2] t2]. cbn in *.
      rewrite map_app. by apply Forall_app.
    + destruct (isinstance e cls); [| done].
      specialize (IHh w1 Hh).
      destruct (run h hd w1) as [[[x | e'] w2] t2].
      * specialize (IHk x w2 (Hk x)).
        destruct (run h (k x) w2) as [[r3 w3] t3]. cbn in *.
        rewrite !map_app. by rewrite !Forall_app.
      * cbn in *. rewrite map_app. by apply Forall_app.
Qed.

(** A reflexive and transitive relation kept by every call of an execution
    relates its first and last state. *)
Lemma run_invariant (I : W -> W -> Prop) (P : host_call -> Prop) :
  (forall w, I w w) ->
  (forall a b c, I a b -> I b c -> I a c) ->
  (forall X (c : hostE X) w, P (Call c) -> I w (h X c w).2) ->
  forall (R : Type) (p : prog R) (w : W),
    Forall P (calls h p w) -> I w (final h p w).
Proof.
  intros Hrefl Htrans Hstep R p. unfold calls, steps, final.
  induction p as [A r | A e | A X c k IH | A X body IHb cls hd IHh k IHk];
    intros w; cbn [run].
  - intros _. apply Hrefl.
  - intros _. apply Hrefl.
  - pose proof (Hstep X c w) as Hc.
    destruct (h X c w) as [[x | e] w1].
    + specialize (IH x w1).
      destruct (run h (k x) w1) as [[r w2] t]. cbn in *.
      intros [Hobs Ht]%Forall_cons.
      eapply Htrans; [by apply Hc | by apply IH].
    + cbn. intros [Hobs _]%Forall_cons. by apply Hc.
  - specialize (IHb w).
    destruct (run h body w) as [[[x | e] w1] t1].
    + specialize (IHk x w1).
      destruct (run h (k x) w1) as [[r2 w2] t2]. cbn in *.
      rewrite map_app. intros [H1 H2]%Forall_app.
      eapply Htrans; [by apply IHb | by apply IHk].
    + destruct (isinstance e cls); [| by cbn in *].
      specialize (IHh w1).
      destruct (run h hd w1) as [[[x | e'] w2] t2].
      * specialize (IHk x w2).
        destruct (run h (k x) w2) as [[r3 w3] t3]. cbn in *.
        rewrite !map_app. intros [H1 [H2 H3]%Forall_app]%Forall_app.
        eapply Htrans; [by apply IHb |].
        eapply Htrans; [by apply IHh | by apply IHk].
      * cbn in *. rewrite map_app. intros [H1 H2]%Forall_app.
        eapply Htrans; [by apply IHb | by apply IHh].
Qed.

End Invariants.

(** ** createCamera on the reference host *)

Section Camera.

Context {Ext : Type}.
Variable oracle : handler (World Ext).

Lemma prints_only_refl (w : World Ext) : prints_only w w.
Proof. exists (w_stdout w). by destruct w. Qed.

Lemma prints_only_print (w w' : World Ext) (f : list string -> list string) :
  prints_only w w' -> prints_only w (set_stdout f w').
Proof. intros [out ->]. by exists (f out). Qed.

Lemma prints_only_trans (w1 w2 w3 : World Ext) :
  prints_only w1 w2 -> prints_only w2 w3 -> prints_only w1 w3.
Proof. intros [o1 ->] [o2 ->]. by exists o2. Qed.

(** A call that observes leaves everything but the standard output. *)
Lemma observes_prints_only {X : Type} (c : hostE X) (w : World Ext) :
  observes (Call c) -> prints_only w (host oracle X c w).2.
Proof.
  destruct c; cbn; try done; intros _; try apply prints_only_refl.
  - by apply prints_only_print, prints_only_refl.
  - destruct (name_of_id x w); apply prints_only_refl.
  - unfold with_object. destruct (w_objects w !! o); apply prints_only_refl.
  - destruct (w_collections w !! c); apply prints_only_refl.
Qed.

(** So does an execution all of whose calls observe. *)
Lemma observed_prints_only {R : Type} (p : prog R) (w : World Ext) :
  Forall observes (calls (host oracle) p w) ->
  prints_only w (final (host oracle) p w).
Proof.
  apply (run_invariant (host oracle) prints_only observes).
  - apply prints_only_refl.
  - apply prints_only_trans.
  - intros X c v. apply observes_prints_only.
Qed.

(** *** Answers of the host in a state that differs by its output *)

Lemma host_id_name (w w' : World Ext) (x : ID) (n : string) :
  prints_only w w' -> name_of_id x w = Some n ->
  host oracle _ (id_name x) w' = (Ok n, w').
Proof.
  intros [out ->] H. cbn.
  change (name_of_id x (set_stdout (fun _ => out) w)) with (name_of_id x w).
  by rewrite H.
Qed.

Lemma host_object_type (w w' : World Ext) (o : ID) (ob : object) :
  prints_only w w' -> w_objects w !! o = Some ob ->
  host oracle _ (object_type o) w' = (Ok (o_type ob), w').
Proof. intros [out ->] H. cbn. unfold with_object. cbn. by rewrite H. Qed.

Lemma host_collection_objects (w w' : World Ext) (c : ID) (col : collection) :
  prints_only w w' -> w_collections w !! c = Some col ->
  host oracle _ (collection_objects c) w' = (Ok (c_objects col), w').
Proof. intros [out ->] H. cbn. by rewrite H. Qed.

Lemma host_print (w : World Ext) (s : string) :
  host oracle _ (print s) w = (Ok tt, set_stdout (fun out => out ++ [s]) w).
Proof. reflexivity. Qed.

Lemma name_of_object (w : World Ext) (o : ID) (ob : object) :
  w_objects w !! o = Some ob -> name_of_id o w = Some (o_name ob).
Proof. intros H. unfold name_of_id. by rewrite H. Qed.

Lemma name_of_collection (w : World Ext) (c : ID) (col : collection) :
  w_collections w !! c = Some col -> is_Some (name_of_id c w).
Proof.
  intros H. unfold name_of_id. destruct (w_objects w !! c); [done |].
  by rewrite H.
Qed.

End Camera.

(** The state at hand differs from the initial one by its output. *)
Ltac solve_prints :=
  repeat apply prints_only_print; first [eassumption | apply prints_only_refl].

Section CameraCheck.

Context {Ext : Type}.
Variable oracle : handler (World Ext).

(** The check for existing cameras: the loop of createCamera returns at the
    first camera of the collection, and ends when there is none. *)
Lemma createCamera_check (w0 w : World Ext) (c : ID) (cn : string)
    (objs : list ID) :
  name_of_id c w0 = Some cn ->
  Forall (fun o => is_Some (w_objects w0 !! o)) objs ->
  prints_only w0 w ->
  exists w' t,
    run (host oracle)
      (for_flow objs (fun obj =>
         n <- call (id_name obj);;
         call (print n);;
         t <- call (object_type obj);;
         call (print t);;
         t <- call (object_type obj);;
         if String.eqb t "CAMERA" then
           n <- call (id_name obj);;
           cn <- call (id_name c);;
           call (print ("WARNING:: Camera [" +:+ n
                        +:+ "] already exists in collection [" +:+ cn +:+ "]"));;
           Ret (Return tt)
         else Ret Next))
      w
    = (Ok (if decide (Exists (is_camera w0) objs) then Some tt else None),
       w', t) /\
    prints_only w0 w' /\
    Forall observes (map step_call t).
Proof.
  intros Hcn Hlive Hw.
  match goal with |- context [for_flow objs ?b] => set (body := b) end.
  assert (forall x w, prints_only w0 w -> x ∈ objs ->
            exists w' t, prints_only w0 w' /\ Forall observes (map step_call t) /\
              run (host oracle) (body x) w
              = (Ok (if decide (is_camera w0 x) then Return tt else Next), w', t))
    as Hbody.
  { clear w Hw. intros x w Hw Hx. unfold body.
    rewrite Forall_forall in Hlive. destruct (Hlive x Hx) as [ob Hob].
    pose proof (name_of_object w0 x ob Hob) as Hname.
    rewrite run_call_bind, (host_id_name oracle w0 _ x _) by solve_prints.
    rewrite run_call_bind, (host_print oracle).
    rewrite run_call_bind, (host_object_type oracle w0 _ x ob) by solve_prints.
    rewrite run_call_bind, (host_print oracle).
    rewrite run_call_bind, (host_object_type oracle w0 _ x ob) by solve_prints.
    assert (is_camera w0 x <-> o_type ob = "CAMERA") as Hiff.
    { unfold is_camera. rewrite Hob. cbn. split; [by intros [=] | by intros ->]. }
    destruct (String.eqb_spec (o_type ob) "CAMERA") as [Ht | Ht].
    - rewrite run_call_bind, (host_id_name oracle w0 _ x _) by solve_prints.
      rewrite run_call_bind, (host_id_name oracle w0 _ c cn) by solve_prints.
      rewrite run_call_bind, (host_print oracle). cbn [run].
      rewrite decide_True by (by apply Hiff).
      eexists _, _. split_and!; [| | reflexivity]; [solve_prints |].
      cbn. by repeat constructor.
    - cbn [run]. rewrite decide_False by (by rewrite Hiff).
      eexists _, _. split_and!; [| | reflexivity]; [solve_prints |].
      cbn. by repeat constructor. }
  destruct (decide (Exists (is_camera w0) objs)) as [Hex | Hno].
  - destruct (run_for_flow_found (host oracle) objs body (prints_only w0)
                (is_camera w0) observes tt w) as (w' & t & Hrun & Hinv & Ht);
      [| done | done | by exists w', t].
    intros x v Hv Hx.
    destruct (Hbody x v Hv Hx) as (w' & t & Hinv & Ht & Hrun).
    exists w', t. split_and!; [done | done |].
    rewrite Hrun. destruct (decide (is_camera w0 x)); [by left | by right].
  - destruct (run_for_flow_not_found (host oracle) objs body (prints_only w0)
                observes w) as (w' & t & Hrun & Hinv & Ht);
      [| done | by exists w', t].
    intros x v Hv Hx.
    destruct (Hbody x v Hv Hx) as (w' & t & Hinv & Ht & Hrun).
    exists w', t. split_and!; [done | done |].
    rewrite Hrun. rewrite decide_False; [done |].
    intros Hc. apply Hno. apply Exists_exists. by exists x.
Qed.

End CameraCheck.

Section CreateCamera.

Context {Ext : Type}.
Variable oracle : handler (World Ext).

(** The collections of [bpy.data.collections] with the name [s]. *)
Lemma createCamera_named (w0 w : World Ext) (l : list ID) (s : string) :
  prints_only w0 w ->
  Forall (fun x => is_Some (name_of_id x w0)) l ->
  exists t,
    run (host oracle)
      (list_comp_if l (fun x => n <- call (id_name x);; Ret (String.eqb s n))) w
    = (Ok (filter (fun x => name_of_id x w0 = Some s) l), w, t) /\
    Forall observes (map step_call t).
Proof.
  intros Hw Hl. induction l as [| x l IH]; cbn [list_comp_if].
  - by exists [].
  - apply Forall_cons in Hl as [[n Hn] Hl].
    destruct (IH Hl) as (t & Hrun & Ht).
    rewrite run_bind, run_call_bind, (host_id_name oracle w0 w x n) by done.
    cbn [run]. rewrite run_bind, Hrun. cbn [run].
    rewrite filter_cons.
    destruct (String.eqb_spec s n) as [-> | Hne].
    + rewrite decide_True by done.
      eexists. split; [reflexivity |]. cbn. rewrite app_nil_r. by constructor.
    + rewrite decide_False by (rewrite Hn; by intros [= ->]).
      eexists. split; [reflexivity |]. cbn. rewrite app_nil_r. by constructor.
Qed.

Lemma data_collections_named (w : World Ext) :
  Forall (fun x => is_Some (name_of_id x w)) (data_collection_ids w).
Proof.
  apply Forall_forall. intros x Hx. unfold data_collection_ids in Hx.
  apply list_elem_of_filter in Hx as [_ Hx].
  apply list_elem_of_fmap in Hx as ([y col] & -> & Hy).
  apply elem_of_map_to_list in Hy. cbn. by eapply name_of_collection.
Qed.

Lemma observes_not_makes_camera (c : host_call) :
  observes c -> ~ makes_camera c.
Proof. destruct c as [X c]. destruct c; cbn; tauto. Qed.

(** The run of createCamera when the target collection has a camera. *)
Lemma createCamera_existing_run (w : World Ext) (name : string)
    (in_collection : option string) (location rotation : list pynum)
    (set_as_active : bool) (c : ID) (col : collection) :
  target_collection in_collection w = Some c ->
  w_collections w !! c = Some col ->
  Forall (fun o => is_Some (w_objects w !! o)) (c_objects col) ->
  Exists (is_camera w) (c_objects col) ->
  exists w' t,
    run (host oracle)
      (SceneUtilities.createCamera name in_collection location rotation false
         set_as_active) w = (Ok None, w', t) /\
    Forall observes (map step_call t) /\
    Call (collection_objects c) ∈ map step_call t.
Proof.
  intros Htarget Hcol Hlive Hcam.
  destruct (name_of_collection w c col Hcol) as [cn Hcn].
  unfold SceneUtilities.createCamera, target_collection in *.
  rewrite run_bind.
  assert (exists w1 t1,
             run (host oracle)
               (if truthy in_collection then
                  collection <- expect_str in_collection;;
                  colls <- call data_collections;;
                  camCollection <- list_comp_if colls (fun x =>
                    n <- call (id_name x);;
                    Ret (String.eqb collection n));;
                  match camCollection with
                  | [] =>
                      camCollection <- call (data_collections_new collection);;
                      call (scene_collection_children_link camCollection);;
                      Ret camCollection
                  | c :: _ => Ret c
                  end
                else
                  camCollection <- call active_layer_collection;;
                  n <- call (id_name camCollection);;
                  call (print ("Use current active collection [" +:+ n +:+ "]"));;
                  Ret camCollection) w = (Ok c, w1, t1) /\
             prints_only w w1 /\ Forall observes (map step_call t1))
    as (w1 & t1 & -> & Hw1 & Ht1).
  { destruct (truthy in_collection) eqn:Htruthy.
    - destruct in_collection as [s |]; [| done]. cbn [expect_str bind default] in *.
      rewrite run_call_bind. cbn [host].
      destruct (createCamera_named w w (data_collection_ids w) s
                  (prints_only_refl w) (data_collections_named w))
        as (t & Hrun & Ht).
      rewrite run_bind, Hrun.
      destruct (filter _ (data_collection_ids w)) as [| c' cs]; [done |].
      injection Htarget as ->. cbn [run].
      eexists _, _. split_and!; [done | apply prints_only_refl |].
      cbn. rewrite app_nil_r. by constructor.
    - injection Htarget as <-.
      rewrite run_call_bind. cbn [host].
      rewrite run_call_bind, (host_id_name oracle w w _ cn)
        by (done || apply prints_only_refl).
      rewrite run_call_bind, host_print. cbn [run].
      eexists _, _. split_and!; [done | solve_prints |].
      cbn. by repeat constructor. }
  cbn [negb]. rewrite run_bind, run_call_bind, host_print.
  rewrite run_call_bind, (host_collection_objects oracle w _ c col)
    by (done || solve_prints).
  destruct (createCamera_check oracle w
              (set_stdout (fun out => out ++ ["check existing"]) w1) c cn
              (c_objects col) Hcn Hlive) as (w2 & t2 & Hrun & Hw2 & Ht2);
    [solve_prints |].
  rewrite Hrun. rewrite decide_True by done. cbn [run].
  eexists _, _. split_and!; [done | |].
  - rewrite app_nil_r, map_app. apply Forall_app. split; [done |].
    cbn. by repeat constructor.
  - rewrite app_nil_r, map_app. apply elem_of_app. right. cbn.
    apply elem_of_cons. right. apply elem_of_cons. by left.
Qed.

End CreateCamera.

(** C5: with [create_if_camera_exists=False], when the target collection
    exists, its members are live objects and one of them has the type
    "CAMERA", createCamera returns None; the state it leaves differs from
    the initial one in the standard output only, so no camera data block or
    object has been created and the camera of the scene is the same; none
    of its calls creates a camera or assigns the scene camera, and the
    objects of the target collection have been asked from the host. *)
Theorem createCamera_returns_when_camera_exists :
  forall (Ext : Type) (oracle : handler (World Ext)) (w : World Ext)
         (name : string) (in_collection : option string)
         (location rotation : list pynum) (set_as_active : bool)
         (c : ID) (col : collection),
    let p :=
      SceneUtilities.createCamera name in_collection location rotation false
        set_as_active in
    target_collection in_collection w = Some c ->
    w_collections w !! c = Some col ->
    Forall (fun o => is_Some (w_objects w !! o)) (c_objects col) ->
    Exists (is_camera w) (c_objects col) ->
    outcome (host oracle) p w = Ok None /\
    prints_only w (final (host oracle) p w) /\
    w_cameras (final (host oracle) p w) = w_cameras w /\
    w_objects (final (host oracle) p w) = w_objects w /\
    w_camera (final (host oracle) p w) = w_camera w /\
    Forall (fun c => ~ makes_camera c) (calls (host oracle) p w) /\
    Call (collection_objects c) ∈ calls (host oracle) p w.
Proof.
  intros Ext oracle w name in_collection location rotation set_as_active c col p
    Htarget Hcol Hlive Hcam.
  destruct (createCamera_existing_run oracle w name in_collection location
              rotation set_as_active c col Htarget Hcol Hlive Hcam)
    as (w' & t & Hrun & Ht & Hin).
  fold p in Hrun.
  assert (prints_only w (final (host oracle) p w)) as Hp.
  { apply observed_prints_only. unfold calls, steps. by rewrite Hrun. }
  unfold outcome, calls, steps. rewrite Hrun. cbn [fst snd].
  split_and!; try done.
  - by destruct Hp as [out ->].
  - by destruct Hp as [out ->].
  - by destruct Hp as [out ->].
  - eapply Forall_impl; [exact Ht |]. apply observes_not_makes_camera.
Qed.

(** The scene collection of the example holds a camera: createCamera in
    the active collection returns None. *)
Lemma createCamera_returns_when_camera_exists_witness :
  outcome (host graph_oracle)
    (SceneUtilities.createCamera "RenderCam" None
       [PyInt 0; PyInt 0; PyInt 0] [PyInt 0; PyInt 0; PyInt 0] false true)
    camera_not_active
  = Ok None.
Proof.
  apply (createCamera_returns_when_camera_exists
           graph graph_oracle camera_not_active "RenderCam" None
           [PyInt 0; PyInt 0; PyInt 0] [PyInt 0; PyInt 0; PyInt 0] true
           0 (mkCollection "Scene Collection" [1])).
  - reflexivity.
  - vm_compute. reflexivity.
  - repeat constructor. vm_compute. eexists. reflexivity.
  - apply Exists_cons_hd. vm_compute. reflexivity.
Defined.

(** ** renderComposition *)

Section RenderComposition.

Context {Ext : Type}.
Variable oracle : handler (World Ext).

(** Steps without a render contribute nothing to [camera_at_render]. *)
Lemma camera_at_render_none (t : list (step (World Ext))) :
  Forall (fun c => ~ is_render c) (map step_call t) ->
  camera_at_render t = [].
Proof.
  induction t as [| s t IH]; [done |].
  rewrite map_cons, Forall_cons. intros [Hs Ht].
  unfold camera_at_render in *. cbn [omap list_omap].
  rewrite (IH Ht). destruct s as [[X c] w e]. cbn in *.
  by destruct c.
Qed.

Lemma camera_at_render_app (t1 t2 : list (step (World Ext))) :
  camera_at_render (t1 ++ t2) = camera_at_render t1 ++ camera_at_render t2.
Proof. apply omap_app. Qed.

Lemma camera_at_render_render (b : bool) (w : World Ext) (e : option exn)
    (t : list (step (World Ext))) :
  camera_at_render (Step (Call (ops_render_render b)) w e :: t)
  = w_camera w :: camera_at_render t.
Proof. reflexivity. Qed.

Lemma camera_at_render_skip (s : step (World Ext))
    (t : list (step (World Ext))) :
  ~ is_render (step_call s) -> camera_at_render (s :: t) = camera_at_render t.
Proof.
  intros Hs. change (s :: t) with ([s] ++ t).
  rewrite camera_at_render_app, (camera_at_render_none [s]); [done |].
  by repeat constructor.
Qed.



End RenderComposition.



Example renderComposition_returns_without_camera :
  w_camera camera_not_active = None /\
  outcome (host graph_oracle)
    (CompositorUtilities.renderComposition 50 true 0) camera_not_active
  = Ok tt /\
  w_camera (final (host graph_oracle)
              (CompositorUtilities.renderComposition 50 true 0)
              camera_not_active) = None.
Proof. vm_compute. by split_and!. Qed.

(** In a scene without any camera, the camera "RenderCam" is created in the
    active collection and is the camera of the scene at the render. *)
Example renderComposition_creates_RenderCam :
  camera_at_render
    (steps (host graph_oracle)
       (CompositorUtilities.renderComposition 100 false 0) example_source)
  = [Some 101] /\
  o_name <$> w_objects (final (host graph_oracle)
               (CompositorUtilities.renderComposition 100 false 0) example_source)
             !! 101 = Some "RenderCam".
Proof. vm_compute. by split. Qed.

(** ** purgeMeshObjectsFromCollection on the reference host *)

Section Purge.

Context {Ext : Type}.
Variable oracle : handler (World Ext).

Lemma keeps_refl (m mat img : bool) (w : World Ext) : keeps m mat img w w.
Proof. by unfold keeps. Qed.

Lemma keeps_trans (m mat img : bool) (a b c : World Ext) :
  keeps m mat img a b -> keeps m mat img b c -> keeps m mat img a c.
Proof.
  unfold keeps. intros (H1 & H2 & H3 & H4 & H5 & H6) (G1 & G2 & G3 & G4 & G5 & G6).
  split_and!.
  - by rewrite G1.
  - by rewrite G2.
  - intros E. by rewrite G3, H3.
  - intros E. by rewrite G4, H4.
  - intros E. by rewrite G5, H5.
  - by etrans.
Qed.


Lemma release_block_dom (d : ID) (m : gmap ID datablock) :
  dom (release_block d m) = dom m.
Proof. unfold release_block. apply dom_alter_L. Qed.

Lemma release_keeps (d : ID) (w : World Ext) :
  keeps false false false w (release d w).
Proof.
  unfold keeps, release. cbn. by rewrite !release_block_dom.
Qed.


Lemma release_objects (d : ID) (w : World Ext) :
  w_objects (release d w) = w_objects w.
Proof. reflexivity. Qed.

Lemma unlink_dom (o : ID) (m : gmap ID collection) :
  dom (unlink o <$> m) = dom m.
Proof. apply dom_fmap_L. Qed.

Lemma delete_object_keeps (o : ID) (w : World Ext) :
  keeps false false false w (delete_object o w).
Proof.
  unfold delete_object.
  set (w1 := match w_objects w !! o with
             | Some ob => match o_data ob with
                          | Some d => release d w
                          | None => w
                          end
             | None => w
             end).
  assert (keeps false false false w w1) as H1.
  { unfold w1. destruct (w_objects w !! o) as [ob |]; [| apply keeps_refl].
    destruct (o_data ob); [apply release_keeps | apply keeps_refl]. }
  assert (w_objects w1 = w_objects w) as Hobj.
  { unfold w1. destruct (w_objects w !! o) as [ob |]; [| done].
    by destruct (o_data ob). }
  destruct H1 as (H1 & H2 & H3 & H4 & H5 & H6).
  unfold keeps. cbn. rewrite dom_fmap_L, dom_fmap_L, dom_delete_L, Hobj.
  split_and!; auto.
  intros x Hx. by apply elem_of_difference in Hx as [Hx _].
Qed.





Lemma delete_object_objects (o : ID) (w : World Ext) :
  w_objects (delete_object o w) = unparent o <$> delete o (w_objects w).
Proof.
  unfold delete_object. cbn.
  destruct (w_objects w !! o) as [ob |]; [| done]. by destruct (o_data ob).
Qed.

Lemma purged_keeps (os : list ID) (w : World Ext) :
  keeps false false false w (purged os w).
Proof.
  revert w. induction os as [| o os IH]; intros w; cbn; [apply keeps_refl |].
  eapply keeps_trans; [apply delete_object_keeps | apply IH].
Qed.




End Purge.


(** ** Only orphans are removed *)

Section Orphans.







End Orphans.



Section Selection.

Context {Ext : Type}.
Variable oracle : handler (World Ext).

Lemma selection_of_refl (a : object) : selection_of a a.
Proof. by unfold selection_of. Qed.

Lemma selection_of_trans (a b c : object) :
  selection_of a b -> selection_of b c -> selection_of a c.
Proof.
  unfold selection_of.
  intros (A1 & A2 & A3 & A4 & A5 & A6 & A7) (B1 & B2 & B3 & B4 & B5 & B6 & B7).
  split_and!; try congruence. auto.
Qed.

Lemma selects_only_refl (w : World Ext) : selects_only w w.
Proof.
  exists (w_objects w). split; [by destruct w |].
  intros o. destruct (w_objects w !! o); constructor. apply selection_of_refl.
Qed.

Lemma selects_only_trans (a b c : World Ext) :
  selects_only a b -> selects_only b c -> selects_only a c.
Proof.
  intros (m1 & -> & H1) (m2 & -> & H2). exists m2. split; [done |].
  intros o. specialize (H1 o). specialize (H2 o). cbn in H2.
  destruct H1 as [x y Hxy |]; inversion H2 as [y' z Hyz |]; subst;
    constructor. by eapply selection_of_trans.
Qed.

Lemma selects_only_lookup (w w' : World Ext) (o : ID) :
  selects_only w w' ->
  option_Forall2 selection_of (w_objects w !! o) (w_objects w' !! o).
Proof. intros (m & -> & H). apply H. Qed.

Lemma selects_only_live (w w' : World Ext) (o : ID) :
  selects_only w w' ->
  is_Some (w_objects w !! o) <-> is_Some (w_objects w' !! o).
Proof.
  intros H. destruct (selects_only_lookup w w' o H); split; intros [? ?]; done.
Qed.

Lemma selects_only_child_of (w w' : World Ext) (p c : ID) :
  selects_only w w' -> child_of w p c <-> child_of w' p c.
Proof.
  intros H. unfold child_of.
  destruct (selects_only_lookup w w' c H) as [a b (_ & _ & _ & Hp & _) |];
    cbn; [by rewrite Hp | done].
Qed.

Lemma selects_only_descendant (w w' : World Ext) (p o : ID) :
  selects_only w w' -> descendant w p o <-> descendant w' p o.
Proof.
  intros H. split.
  - induction 1 as [p c Hc | p c o Hc _ IH].
    + apply descendant_child. by apply (selects_only_child_of w w').
    + eapply descendant_step; [by apply (selects_only_child_of w w') | done].
  - induction 1 as [p c Hc | p c o Hc _ IH].
    + apply descendant_child. by apply (selects_only_child_of w w').
    + eapply descendant_step; [by apply (selects_only_child_of w w') | done].
Qed.

Lemma selects_only_within (depth : nat) (w w' : World Ext) (p : ID) :
  selects_only w w' -> within depth w p -> within depth w' p.
Proof.
  intros H. revert p. induction depth as [| depth IH]; intros p; [done |].
  cbn. intros [Hp Hc]. split; [by apply (selects_only_live w w') |].
  intros c Hcp. apply IH, Hc. by apply (selects_only_child_of w w').
Qed.

Lemma descendant_children (w : World Ext) (p o : ID) :
  descendant w p o <->
  exists c, child_of w p c /\ (o = c \/ descendant w c o).
Proof.
  split.
  - intros [c Hc | c o' Hc Hd]; exists c; auto.
  - intros (c & Hc & [-> | Hd]);
      [by apply descendant_child | by eapply descendant_step].
Qed.

Lemma elem_of_children_of (w : World Ext) (p c : ID) :
  c ∈ children_of w p <-> child_of w p c.
Proof.
  unfold children_of, child_of. rewrite list_elem_of_fmap. split.
  - intros ([k ob] & -> & [Hp Hin]%list_elem_of_filter).
    apply elem_of_map_to_list in Hin. cbn in *. by rewrite Hin, <- Hp.
  - intros H. destruct (w_objects w !! c) as [ob |] eqn:Hc; [| done].
    cbn in H. exists (c, ob). split; [done |].
    apply list_elem_of_filter. split; [cbn; congruence |].
    by apply elem_of_map_to_list.
Qed.

Lemma host_object_children (w : World Ext) (p : ID) :
  is_Some (w_objects w !! p) ->
  host oracle _ (object_children p) w = (Ok (children_of w p), w).
Proof. intros [ob H]. cbn. unfold with_object. by rewrite H. Qed.

Lemma host_object_select_set (w : World Ext) (o : ID) :
  is_Some (w_objects w !! o) ->
  exists w', host oracle _ (object_select_set o true) w = (Ok tt, w') /\
             selects_more w w' (eq o).
Proof.
  intros [ob H]. cbn. unfold update_object, with_object. rewrite H.
  eexists. split; [reflexivity |]. split.
  - eexists. split; [reflexivity |]. intros x.
    destruct (decide (x = o)) as [-> | Hne].
    + rewrite lookup_alter_eq, H. constructor. by unfold selection_of.
    + rewrite lookup_alter_ne by done.
      destruct (w_objects w !! x); constructor. apply selection_of_refl.
  - intros x. unfold selected. cbn.
    destruct (decide (x = o)) as [-> | Hne].
    + rewrite lookup_alter_eq, H. cbn. split; [by right | done].
    + rewrite lookup_alter_ne by done. split; [by left |].
      intros [? | ?]; [done | by subst].
Qed.

Lemma selects_more_refl (w : World Ext) : selects_more w w (fun _ => False).
Proof. split; [apply selects_only_refl |]. intros o. tauto. Qed.

Lemma selects_more_trans (a b c : World Ext) (S1 S2 : ID -> Prop) :
  selects_more a b S1 -> selects_more b c S2 ->
  selects_more a c (fun o => S1 o \/ S2 o).
Proof.
  intros [H1 E1] [H2 E2]. split; [by eapply selects_only_trans |].
  intros o. rewrite E2, E1. tauto.
Qed.

Lemma selects_more_iff (a b : World Ext) (S1 S2 : ID -> Prop) :
  (forall o, S1 o <-> S2 o) -> selects_more a b S1 -> selects_more a b S2.
Proof.
  intros H [H1 E1]. split; [done |]. intros o. by rewrite E1, H.
Qed.

(** A loop whose body only selects. *)
Lemma for_in_selects (w : World Ext) (body : ID -> prog unit)
    (B : ID -> ID -> Prop) (l : list ID) :
  (forall c w2, c ∈ l -> selects_only w w2 ->
     exists w3 t, run (host oracle) (body c) w2 = (Ok tt, w3, t) /\
                  selects_more w2 w3 (B c)) ->
  forall w2, selects_only w w2 ->
    exists w3 t, run (host oracle) (for_in l body) w2 = (Ok tt, w3, t) /\
                 selects_more w2 w3 (fun o => exists c, c ∈ l /\ B c o).
Proof.
  induction l as [| a l IH]; intros Hbody w2 Hw2.
  - exists w2, []. split; [done |].
    eapply selects_more_iff; [| apply selects_more_refl].
    intros o. split; [done |]. intros (c & Hc & _). by apply elem_of_nil in Hc.
  - cbn [for_in]. rewrite run_bind.
    destruct (Hbody a w2) as (w3 & t & -> & Hpost); [by left | done |].
    destruct (IH (fun c w2 Hc => Hbody c w2 (proj2 (elem_of_cons l c a) (or_intror Hc))) w3)
      as (w4 & t' & -> & Hpost').
    { eapply selects_only_trans; [done | apply Hpost]. }
    eexists _, _. split; [reflexivity |].
    eapply selects_more_iff; [| by eapply selects_more_trans].
    intros o. cbn. split.
    + intros [H | (c & Hc & H)]; [exists a | exists c]; split; auto;
        [by left | by right].
    + intros (c & [-> | Hc]%elem_of_cons & H); [by left | right; eauto].
Qed.

(** One level of selectChildren, given what the recursive call does. *)
Lemma selectChildren_level (depth : nat) (w : World Ext) (p : ID)
    (recursive select_parent : bool) (B : ID -> ID -> Prop) :
  is_Some (w_objects w !! p) ->
  (forall c w2, child_of w p c -> selects_only w w2 ->
     exists w3 t,
       run (host oracle)
         (if recursive then SceneUtilities.selectChildren depth c true false
          else Ret tt) w2 = (Ok tt, w3, t) /\
       selects_more w2 w3 (B c)) ->
  exists w' t,
    run (host oracle)
      (SceneUtilities.selectChildren (S depth) p recursive select_parent) w
    = (Ok tt, w', t) /\
    selects_more w w'
      (fun o => (select_parent = true /\ o = p) \/
                exists c, child_of w p c /\ (o = c \/ B c o)).
Proof.
  intros Hp Hrec. cbn [SceneUtilities.selectChildren].
  assert (exists w1 t1,
             run (host oracle)
               (if select_parent then call (object_select_set p true)
                else Ret tt) w = (Ok tt, w1, t1) /\
             selects_more w w1 (fun o => select_parent = true /\ o = p))
    as (w1 & t1 & Hrun1 & Hpost1).
  { destruct select_parent.
    - destruct (host_object_select_set w p Hp) as (w1 & Hsel & Hpost).
      exists w1. eexists. rewrite run_call, Hsel. split; [reflexivity |].
      eapply selects_more_iff; [| exact Hpost]. intros o. intuition congruence.
    - exists w, []. split; [done |].
      eapply selects_more_iff; [| apply selects_more_refl].
      intros o. intuition congruence. }
  rewrite run_bind, Hrun1. rewrite run_call_bind.
  rewrite host_object_children
    by (by apply (selects_only_live w w1); [apply Hpost1 |]).
  destruct (for_in_selects w
              (fun child =>
                 call (object_select_set child true);;
                 if recursive
                 then SceneUtilities.selectChildren depth child true false
                 else Ret tt)
              (fun c o => o = c \/ B c o) (children_of w1 p)) with (w2 := w1)
    as (w2 & t2 & Hrun2 & Hpost2).
  { intros c w2 Hc Hw2.
    apply elem_of_children_of in Hc.
    apply (selects_only_child_of w w1) in Hc; [| apply Hpost1].
    assert (is_Some (w_objects w2 !! c)) as Hlive.
    { apply (selects_only_live w w2); [done |].
      unfold child_of in Hc. destruct (w_objects w !! c); [done | discriminate]. }
    destruct (host_object_select_set w2 c Hlive) as (w3 & Hsel & Hpost).
    rewrite run_call_bind, Hsel.
    destruct (Hrec c w3 Hc) as (w4 & t4 & -> & Hpost4).
    { eapply selects_only_trans; [done | apply Hpost]. }
    eexists _, _. split; [reflexivity |].
    eapply selects_more_iff; [| by eapply selects_more_trans].
    intros o. cbn. intuition congruence. }
  { apply Hpost1. }
  rewrite Hrun2. eexists _, _. split; [reflexivity |].
  eapply selects_more_iff; [| by eapply selects_more_trans].
  intros o. cbn. split.
  - intros [H | (c & Hc & H)]; [by left | right].
    exists c. split; [| done].
    apply (selects_only_child_of w w1); [apply Hpost1 |].
    by apply elem_of_children_of.
  - intros [H | (c & Hc & H)]; [by left | right].
    exists c. split; [| done].
    apply elem_of_children_of.
    by apply (selects_only_child_of w w1); [apply Hpost1 |].
Qed.

(** selectChildren over a hierarchy that fits the stack. *)
Lemma selectChildren_run (depth : nat) (w : World Ext) (p : ID)
    (select_parent : bool) :
  within depth w p ->
  exists w' t,
    run (host oracle)
      (SceneUtilities.selectChildren depth p true select_parent) w
    = (Ok tt, w', t) /\
    selects_more w w'
      (fun o => (select_parent = true /\ o = p) \/ descendant w p o).
Proof.
  revert w p select_parent.
  induction depth as [| depth IH]; intros w p sp; [done |].
  intros [Hp Hc].
  destruct (selectChildren_level depth w p true sp (descendant w) Hp)
    as (w' & t & Hrun & Hpost).
  { intros c w2 Hcp Hw2.
    destruct (IH w2 c false) as (w3 & t & Hrun & Hpost).
    { by apply (selects_only_within depth w w2), Hc. }
    exists w3, t. split; [done |].
    eapply selects_more_iff; [| exact Hpost].
    intros o. cbv beta. rewrite <- (selects_only_descendant w w2) by done.
    intuition congruence. }
  exists w', t. split; [done |].
  eapply selects_more_iff; [| exact Hpost].
  intros o. by rewrite descendant_children.
Qed.

Lemma selectChildren_flat_run (depth : nat) (w : World Ext) (p : ID)
    (select_parent : bool) :
  0 < depth -> is_Some (w_objects w !! p) ->
  exists w' t,
    run (host oracle)
      (SceneUtilities.selectChildren depth p false select_parent) w
    = (Ok tt, w', t) /\
    selects_more w w'
      (fun o => (select_parent = true /\ o = p) \/ child_of w p o).
Proof.
  destruct depth as [| depth]; [lia |]. intros _ Hp.
  destruct (selectChildren_level depth w p false select_parent
              (fun _ _ => False) Hp) as (w' & t & Hrun & Hpost).
  { intros c w2 _ _. exists w2, []. split; [done |]. apply selects_more_refl. }
  exists w', t. split; [done |].
  eapply selects_more_iff; [| exact Hpost].
  intros o. split.
  - intros [H | (c & Hc & [-> | []])]; auto.
  - intros [H | H]; [by left | right; eauto].
Qed.

Lemma within_b_sound (depth : nat) (w : World Ext) (p : ID) :
  within_b depth w p = true -> within depth w p.
Proof.
  revert p. induction depth as [| depth IH]; intros p; [done |].
  cbn. intros [Hp Hc]%andb_prop. apply bool_decide_eq_true in Hp.
  split; [done |].
  intros c Hcp%elem_of_children_of. apply IH.
  rewrite forallb_forall in Hc. apply Hc. by apply list_elem_of_In.
Qed.

(** A call that selects leaves everything but the selection. *)
Lemma selects_selects_only {X : Type} (c : hostE X) (w : World Ext) :
  selects (Call c) -> selects_only w (host oracle X c w).2.
Proof.
  destruct c; cbn; try done.
  - intros _. unfold with_object.
    destruct (w_objects w !! o); apply selects_only_refl.
  - destruct state; [| done]. intros _.
    destruct (w_objects w !! o) as [ob |] eqn:Ho.
    + destruct (host_object_select_set w o) as (w' & Hsel & Hpost); [done |].
      cbn in Hsel. rewrite Hsel. apply Hpost.
    + unfold update_object, with_object. rewrite Ho. apply selects_only_refl.
Qed.

Lemma selectChildren_selects (depth : nat) (parent : ID)
    (recursive select_parent : bool) :
  always selects
    (SceneUtilities.selectChildren depth parent recursive select_parent).
Proof.
  revert parent recursive select_parent.
  induction depth as [| depth IH]; intros parent recursive select_parent;
    cbn [SceneUtilities.selectChildren]; [done |].
  repeat first [apply IH | always_step].
Qed.

End Selection.

(** X1: whatever the stack depth, the flags and the state of the scene,
    and whether it returns or raises, selectChildren makes no call but
    [select_set(True)] and reads of [children]; on the reference host the
    state it leaves differs from the initial one by the selection flags of
    objects only, and no object that was selected has been deselected. *)
Theorem selectChildren_only_selects :
  forall (Ext : Type) (oracle : handler (World Ext)) (w : World Ext)
         (depth : nat) (parent : ID) (recursive select_parent : bool),
    let p := SceneUtilities.selectChildren depth parent recursive select_parent in
    Forall selects (calls (host oracle) p w) /\
    selects_only w (final (host oracle) p w).
Proof.
  intros Ext oracle w depth parent recursive select_parent p.
  assert (Forall selects (calls (host oracle) p w)) as Hcalls
    by apply always_calls, selectChildren_selects.
  split; [done |].
  apply (run_invariant (host oracle) selects_only selects); [| | | done].
  - apply selects_only_refl.
  - apply selects_only_trans.
  - intros X c v. apply selects_selects_only.
Qed.

(** X2: when the parent exists and the recursion over its hierarchy fits
    the stack, [selectChildren(parent, recursive, select_parent)] returns,
    and the objects selected afterwards are those selected before, the
    parent when [select_parent] is set, and every descendant of the parent,
    or its children only when [recursive] is not set; nothing but the
    selection has changed. *)
Theorem selectChildren_selects_the_hierarchy :
  forall (Ext : Type) (oracle : handler (World Ext)) (w : World Ext)
         (depth : nat) (parent : ID) (recursive select_parent : bool),
    let p := SceneUtilities.selectChildren depth parent recursive select_parent in
    (if recursive then within depth w parent
     else 0 < depth /\ is_Some (w_objects w !! parent)) ->
    outcome (host oracle) p w = Ok tt /\
    selects_only w (final (host oracle) p w) /\
    forall o,
      selected (final (host oracle) p w) o <->
      selected w o \/ (select_parent = true /\ o = parent) \/
      (if recursive then descendant w parent o else child_of w parent o).
Proof.
  intros Ext oracle w depth parent recursive select_parent p Hfits.
  unfold outcome, final, p. destruct recursive.
  - destruct (selectChildren_run oracle depth w parent select_parent Hfits)
      as (w' & t & -> & Honly & Hsel).
    by split_and!.
  - destruct Hfits as [Hdepth Hlive].
    destruct (selectChildren_flat_run oracle depth w parent select_parent
                Hdepth Hlive) as (w' & t & -> & Honly & Hsel).
    by split_and!.
Qed.

(** The hierarchy of "Root" is selected with its parent; "Other", selected
    before, stays selected. *)
Lemma selectChildren_selects_the_hierarchy_witness :
  outcome (host graph_oracle)
    (SceneUtilities.selectChildren 3 1 true true) example_hierarchy = Ok tt /\
  selected
    (final (host graph_oracle) (SceneUtilities.selectChildren 3 1 true true)
       example_hierarchy) 3.
Proof.
  destruct (selectChildren_selects_the_hierarchy
              graph graph_oracle example_hierarchy 3 1 true true)
    as (Hout & _ & Hsel).
  - apply within_b_sound. vm_compute. reflexivity.
  - split; [exact Hout |]. apply Hsel. right. right.
    apply (descendant_step _ 1 2 3); [reflexivity |].
    apply descendant_child. reflexivity.
Defined.

(** ** The readers of a hierarchy *)

Section Hierarchy.

Context {Ext : Type}.
Variable oracle : handler (World Ext).

Lemma child_of_live (w : World Ext) (p c : ID) :
  child_of w p c -> is_Some (w_objects w !! c).
Proof. unfold child_of. by destruct (w_objects w !! c). Qed.

(** The data of an object is appended when it has one. *)
Lemma append_data_run (w : World Ext) (o : ID) (acc : list (option ID)) :
  is_Some (w_objects w !! o) ->
  exists r t,
    run (host oracle)
      (d <- call (object_data o);;
       match d with
       | Some _ => d <- call (object_data o);; Ret (acc ++ [d])
       | None => Ret acc
       end) w = (Ok (acc ++ r), w, t) /\
    forall x, x ∈ r <-> data_of w o x.
Proof.
  intros [ob Ho]. rewrite run_call_bind. cbn [host]. unfold with_object.
  rewrite Ho. unfold data_of. rewrite Ho. cbn [fmap option_fmap option_map].
  destruct (o_data ob) as [d |] eqn:Hd.
  - rewrite run_call_bind. cbn [host]. unfold with_object. rewrite Ho, Hd.
    cbn. exists [Some d]. eexists. split; [reflexivity |].
    intros x. rewrite list_elem_of_singleton. split.
    + intros ->. split; [by eexists | done].
    + intros [_ [= <-]]. done.
  - cbn. exists []. eexists. split; [by rewrite app_nil_r |].
    intros x. split; [by intros ?%elem_of_nil |].
    intros [[d ->] [=]].
Qed.

(** The same, followed by the rest of a loop body. *)
Lemma append_data_then_run (w : World Ext) (o : ID) (acc : list (option ID)) :
  is_Some (w_objects w !! o) ->
  exists r t0,
    (forall x, x ∈ r <-> data_of w o x) /\
    forall k : list (option ID) -> prog (list (option ID)),
      run (host oracle)
        (d <- call (object_data o);;
         children <-
           match d with
           | Some _ => d <- call (object_data o);; Ret (acc ++ [d])
           | None => Ret acc
           end;;
         k children) w
      = let '(r', w', t) := run (host oracle) (k (acc ++ r)) w in
        (r', w', t0 ++ t).
Proof.
  intros [ob Ho]. unfold data_of. rewrite Ho.
  cbn [fmap option_fmap option_map].
  destruct (o_data ob) as [d |] eqn:Hd.
  - exists [Some d],
      [Step (Call (object_data o)) w None; Step (Call (object_data o)) w None].
    split.
    + intros x. rewrite list_elem_of_singleton. split.
      * intros ->. split; [by eexists | done].
      * intros [_ [= <-]]. done.
    + intros k. rewrite run_call_bind. cbn [host]. unfold with_object.
      rewrite Ho, Hd. rewrite run_bind, run_call_bind. cbn [host].
      unfold with_object. rewrite Ho, Hd. cbn [run].
      destruct (run (host oracle) (k (acc ++ [Some d])) w) as [[r' w'] t].
      cbn. reflexivity.
  - exists [], [Step (Call (object_data o)) w None]. split.
    + intros x. split; [by intros ?%elem_of_nil |].
      intros [[d ->] [=]].
    + intros k. rewrite run_call_bind. cbn [host]. unfold with_object.
      rewrite Ho, Hd. cbn [bind run]. rewrite app_nil_r.
      destruct (run (host oracle) (k acc) w) as [[r' w'] t].
      cbn. reflexivity.
Qed.

(** A loop that appends to a list and leaves the state. *)
Lemma for_acc_members (w : World Ext)
    (body : ID -> list (option ID) -> prog (list (option ID)))
    (B : ID -> option ID -> Prop) (l : list ID) :
  (forall c acc, c ∈ l ->
     exists r t, run (host oracle) (body c acc) w = (Ok (acc ++ r), w, t) /\
                 forall x, x ∈ r <-> B c x) ->
  forall acc,
    exists r t, run (host oracle) (for_acc l acc body) w = (Ok (acc ++ r), w, t) /\
                forall x, x ∈ r <-> exists c, c ∈ l /\ B c x.
Proof.
  induction l as [| a l IH]; intros Hbody acc.
  - exists [], []. cbn. rewrite app_nil_r. split; [done |].
    intros x. split; [by intros ?%elem_of_nil |].
    intros (c & Hc%elem_of_nil & _). done.
  - cbn [for_acc]. rewrite run_bind.
    destruct (Hbody a acc) as (r1 & t1 & -> & Hr1); [by left |].
    destruct (IH (fun c acc Hc =>
                    Hbody c acc (proj2 (elem_of_cons l c a) (or_intror Hc)))
                 (acc ++ r1)) as (r2 & t2 & -> & Hr2).
    exists (r1 ++ r2). eexists. rewrite app_assoc. split; [reflexivity |].
    intros x. rewrite elem_of_app, Hr1, Hr2. split.
    + intros [H | (c & Hc & H)]; [exists a | exists c]; split; auto;
        [by left | by right].
    + intros (c & [-> | Hc]%elem_of_cons & H); [by left | right; eauto].
Qed.

(** One level of getChildMeshes, given what the recursive call returns. *)
Lemma getChildMeshes_level (depth : nat) (w : World Ext) (p : ID)
    (recursive include_root : bool) (R : ID -> option ID -> Prop) :
  is_Some (w_objects w !! p) ->
  (recursive = true -> forall c, child_of w p c ->
     exists r t,
       run (host oracle) (SceneUtilities.getChildMeshes depth c true false) w
       = (Ok r, w, t) /\
       forall x, x ∈ r <-> R c x) ->
  exists r t,
    run (host oracle)
      (SceneUtilities.getChildMeshes (S depth) p recursive include_root) w
    = (Ok r, w, t) /\
    forall x, x ∈ r <->
      (include_root = true /\ data_of w p x) \/
      exists c, child_of w p c /\
                (data_of w c x \/ (recursive = true /\ R c x)).
Proof.
  intros Hp Hrec. cbn [SceneUtilities.getChildMeshes].
  assert (exists r t,
             run (host oracle)
               (if include_root then
                  d <- call (object_data p);;
                  match d with
                  | Some _ =>
                      d <- call (object_data p);;
                      Ret (([] : list (option ID)) ++ [d])
                  | None => Ret []
                  end
                else Ret []) w = (Ok r, w, t) /\
             forall x, x ∈ r <-> include_root = true /\ data_of w p x)
    as (r0 & t0 & Hrun0 & Hr0).
  { destruct include_root.
    - destruct (append_data_run w p [] Hp) as (r & t & Hrun & Hr).
      exists r, t. split; [exact Hrun |]. intros x. rewrite Hr. tauto.
    - exists [], []. split; [done |]. intros x.
      split; [by intros ?%elem_of_nil | by intros [? _]]. }
  rewrite run_bind, Hrun0. rewrite run_call_bind.
  rewrite host_object_children by done.
  match goal with
  | |- context [for_acc _ _ ?b] =>
      destruct (for_acc_members w b
                  (fun c x => data_of w c x \/ (recursive = true /\ R c x))
                  (children_of w p)) with (acc := r0)
        as (r1 & t1 & Hrun1 & Hr1)
  end.
  { intros c acc Hc%elem_of_children_of.
    destruct (append_data_then_run w c acc (child_of_live w p c Hc))
      as (r & t & Hr & ->).
    destruct recursive.
    - destruct (Hrec eq_refl c Hc) as (r' & t' & Hrun' & Hr').
      rewrite run_bind, Hrun'. cbn.
      exists (r ++ r'). eexists. rewrite (app_assoc acc r r').
      split; [reflexivity |].
      intros x. rewrite elem_of_app, Hr, Hr'. intuition congruence.
    - cbn. exists r. eexists. split; [reflexivity |].
      intros x. rewrite Hr. intuition congruence. }
  rewrite Hrun1. exists (r0 ++ r1). eexists. split; [reflexivity |].
  intros x. rewrite elem_of_app, Hr0, Hr1.
  setoid_rewrite elem_of_children_of. tauto.
Qed.

Lemma getChildMeshes_run (depth : nat) (w : World Ext) (p : ID)
    (include_root : bool) :
  within depth w p ->
  exists r t,
    run (host oracle) (SceneUtilities.getChildMeshes depth p true include_root) w
    = (Ok r, w, t) /\
    forall x, x ∈ r <->
      (include_root = true /\ data_of w p x) \/
      exists o, descendant w p o /\ data_of w o x.
Proof.
  revert p include_root.
  induction depth as [| depth IH]; intros p include_root; [done |].
  intros [Hp Hc].
  destruct (getChildMeshes_level depth w p true include_root
              (fun c x => exists o, descendant w c o /\ data_of w o x) Hp)
    as (r & t & Hrun & Hr).
  { intros _ c Hcp. destruct (IH c false (Hc c Hcp)) as (r & t & Hrun & Hr).
    exists r, t. split; [done |]. intros x. rewrite Hr.
    split; [by intros [[[=] _] | ?] | by right]. }
  exists r, t. split; [done |]. intros x. rewrite Hr.
  split.
  - intros [H | (c & Hc' & [H | [_ (o & Ho & H)]])]; [by left | right ..].
    + exists c. split; [by apply descendant_child | done].
    + exists o. split; [by eapply descendant_step | done].
  - intros [H | (o & (c & Hc' & [-> | Ho])%descendant_children & H)];
      [by left | right ..]; exists c; (split; [done |]).
    + by left.
    + right. split; [done |]. by exists o.
Qed.

(** One level of getChildren, given what the recursive call returns. *)
Lemma getChildren_level (depth : nat) (w : World Ext) (p : ID)
    (include_meshes recursive : bool) (R : ID -> option ID -> Prop) :
  is_Some (w_objects w !! p) ->
  (recursive = true -> forall c, child_of w p c ->
     exists r t,
       run (host oracle) (SceneUtilities.getChildren depth c true true) w
       = (Ok r, w, t) /\
       forall x, x ∈ r <-> R c x) ->
  exists r t,
    run (host oracle)
      (SceneUtilities.getChildren (S depth) p include_meshes recursive) w
    = (Ok r, w, t) /\
    forall x, x ∈ r <->
      exists c, child_of w p c /\
                (x = Some c \/ (include_meshes = true /\ data_of w c x) \/
                 (recursive = true /\ R c x)).
Proof.
  intros Hp Hrec. cbn [SceneUtilities.getChildren].
  rewrite run_call_bind. rewrite host_object_children by done.
  match goal with
  | |- context [for_acc _ _ ?b] =>
      destruct (for_acc_members w b
                  (fun c x => x = Some c \/
                              (include_meshes = true /\ data_of w c x) \/
                              (recursive = true /\ R c x))
                  (children_of w p)) with (acc := @nil (option ID))
        as (r1 & t1 & Hrun1 & Hr1)
  end.
  { intros c acc Hc%elem_of_children_of. cbv zeta.
    rewrite run_bind.
    assert (exists r t,
               run (host oracle)
                 (if include_meshes then
                    d <- call (object_data c);;
                    match d with
                    | Some _ =>
                        d <- call (object_data c);;
                        Ret ((acc ++ [Some c]) ++ [d])
                    | None => Ret (acc ++ [Some c])
                    end
                  else Ret (acc ++ [Some c])) w
               = (Ok ((acc ++ [Some c]) ++ r), w, t) /\
               forall x, x ∈ r <-> include_meshes = true /\ data_of w c x)
      as (r & t & -> & Hr).
    { destruct include_meshes.
      - destruct (append_data_run w c (acc ++ [Some c])
                    (child_of_live w p c Hc)) as (r & t & Hrun & Hr).
        exists r, t. split; [exact Hrun |]. intros x. rewrite Hr. tauto.
      - exists [], []. rewrite app_nil_r. split; [done |]. intros x.
        split; [by intros ?%elem_of_nil | by intros [? _]]. }
    destruct recursive.
    - destruct (Hrec eq_refl c Hc) as (r' & t' & Hrun' & Hr').
      rewrite run_bind, Hrun'. cbn.
      exists (Some c :: r ++ r'). eexists.
      rewrite <- !app_assoc. split; [reflexivity |].
      intros x. rewrite elem_of_cons, elem_of_app, Hr, Hr'.
      intuition congruence.
    - cbn. exists (Some c :: r). eexists.
      rewrite <- !app_assoc. split; [reflexivity |].
      intros x. rewrite elem_of_cons, Hr. intuition congruence. }
  cbn [app] in Hrun1. rewrite Hrun1. exists r1. eexists.
  split; [reflexivity |].
  intros x. rewrite Hr1. by setoid_rewrite elem_of_children_of.
Qed.

Lemma getChildren_run (depth : nat) (w : World Ext) (p : ID) :
  within depth w p ->
  exists r t,
    run (host oracle) (SceneUtilities.getChildren depth p true true) w
    = (Ok r, w, t) /\
    forall x, x ∈ r <->
      exists o, descendant w p o /\ (x = Some o \/ data_of w o x).
Proof.
  revert p. induction depth as [| depth IH]; intros p; [done |].
  intros [Hp Hc].
  destruct (getChildren_level depth w p true true
              (fun c x => exists o, descendant w c o /\
                                    (x = Some o \/ data_of w o x)) Hp)
    as (r & t & Hrun & Hr).
  { intros _ c Hcp. by apply IH, Hc. }
  exists r, t. split; [done |]. intros x. rewrite Hr.
  split.
  - intros (c & Hc' & [-> | [[_ H] | [_ (o & Ho & H)]]]).
    + exists c. split; [by apply descendant_child | by left].
    + exists c. split; [by apply descendant_child | by right].
    + exists o. split; [by eapply descendant_step | done].
  - intros (o & (c & Hc' & [-> | Ho])%descendant_children & H);
      exists c; (split; [done |]).
    + destruct H as [-> | H]; [by left | right; by left].
    + right. right. split; [done |]. by exists o.
Qed.

End Hierarchy.

(** X3: when the parent exists and the recursion fits the stack,
    getChildMeshes returns and leaves the host state as it was.  The list
    it returns holds the data block of the parent, when [include_root] is
    set and the parent has one, and the data block of every descendant
    that has one (of every child when [recursive] is not set), and nothing
    else: there is no None in it, and the type of the objects plays no
    part, so that the data of a camera is returned like that of a mesh. *)
Theorem getChildMeshes_returns_the_data_below :
  forall (Ext : Type) (oracle : handler (World Ext)) (w : World Ext)
         (depth : nat) (parent : ID) (recursive include_root : bool),
    let p := SceneUtilities.getChildMeshes depth parent recursive include_root in
    (if recursive then within depth w parent
     else 0 < depth /\ is_Some (w_objects w !! parent)) ->
    exists r,
      outcome (host oracle) p w = Ok r /\
      final (host oracle) p w = w /\
      forall x, x ∈ r <->
        (include_root = true /\ data_of w parent x) \/
        exists o, reach recursive w parent o /\ data_of w o x.
Proof.
  intros Ext oracle w depth parent recursive include_root p Hfits.
  unfold outcome, final, p. destruct recursive.
  - destruct (getChildMeshes_run oracle depth w parent include_root Hfits)
      as (r & t & -> & Hr).
    by exists r.
  - destruct Hfits as [Hdepth Hlive].
    destruct depth as [| depth]; [lia |].
    destruct (getChildMeshes_level oracle depth w parent false include_root
                (fun _ _ => False) Hlive) as (r & t & -> & Hr); [done |].
    exists r. split_and!; [done | done |].
    intros x. rewrite Hr. unfold reach. split.
    + intros [H | (c & Hc & [H | [[=] _]])]; [by left | right; eauto].
    + intros [H | (c & Hc & H)]; [by left | right; eauto].
Qed.

(** The data of "Lens", a camera below "Body", is among the data returned
    for "Root". *)
Lemma getChildMeshes_returns_the_data_below_witness :
  exists r,
    outcome (host graph_oracle)
      (SceneUtilities.getChildMeshes 3 1 true true) example_hierarchy = Ok r /\
    Some 20 ∈ r /\ None ∉ r.
Proof.
  destruct (getChildMeshes_returns_the_data_below
              graph graph_oracle example_hierarchy 3 1 true true)
    as (r & Hout & _ & Hr).
  - apply within_b_sound. vm_compute. reflexivity.
  - exists r. split; [exact Hout |]. split.
    + apply Hr. right. exists 5. split.
      * apply (descendant_step _ 1 2 5); [reflexivity |].
        apply descendant_child. reflexivity.
      * split; [by eexists | reflexivity].
    + intros [[_ [[d Hd] _]] | (o & _ & [[d Hd] _])]%Hr; discriminate Hd.
Defined.

(** X4: when the parent exists and the recursion fits the stack,
    getChildren returns and leaves the host state as it was.  The list it
    returns holds every descendant of the parent (every child when
    [recursive] is not set), and the data blocks of objects that have one:
    of the children only when [include_meshes] is set, but of the deeper
    descendants whenever [recursive] is set, because the recursive call
    does not pass [include_meshes] on. *)
Theorem getChildren_returns_the_hierarchy :
  forall (Ext : Type) (oracle : handler (World Ext)) (w : World Ext)
         (depth : nat) (parent : ID) (include_meshes recursive : bool),
    let p := SceneUtilities.getChildren depth parent include_meshes recursive in
    (if recursive then within depth w parent
     else 0 < depth /\ is_Some (w_objects w !! parent)) ->
    exists r,
      outcome (host oracle) p w = Ok r /\
      final (host oracle) p w = w /\
      forall x, x ∈ r <->
        (exists o, reach recursive w parent o /\ x = Some o) \/
        (exists o, data_of w o x /\
                   ((include_meshes = true /\ child_of w parent o) \/
                    (recursive = true /\ deeper w parent o))).
Proof.
  intros Ext oracle w depth parent include_meshes recursive p Hfits.
  unfold outcome, final, p.
  destruct depth as [| depth]; [by destruct recursive; [| lia] |].
  assert (is_Some (w_objects w !! parent)) as Hlive
    by (destruct recursive; apply Hfits).
  destruct (getChildren_level oracle depth w parent include_meshes recursive
              (fun c x => exists o, descendant w c o /\
                                    (x = Some o \/ data_of w o x)) Hlive)
    as (r & t & -> & Hr).
  { intros -> c Hc. apply getChildren_run. by apply Hfits. }
  exists r. split_and!; [done | done |].
  intros x. rewrite Hr. unfold reach, deeper. split.
  - intros (c & Hc & [-> | [[Him H] | [-> (o & Ho & [-> | H])]]]).
    + left. exists c. split; [| done].
      destruct recursive; [by apply descendant_child | done].
    + right. exists c. split; [done |]. by left.
    + left. exists o. split; [by eapply descendant_step | done].
    + right. exists o. split; [done |]. right. split; [done |]. by exists c.
  - intros [(o & Ho & ->) | (o & H & [[Him Hc] | [-> (c & Hc & Ho)]])].
    + destruct recursive.
      * apply descendant_children in Ho as (c & Hc & [-> | Ho]);
          exists c; (split; [done |]); [by left |].
        right. right. split; [done |]. exists o. split; [done | by left].
      * exists o. split; [done | by left].
    + exists o. split; [done |]. right. by left.
    + exists c. split; [done |]. right. right. split; [done |].
      exists o. split; [done | by right].
Qed.

(** Without [include_meshes] the mesh of "Body", a child of "Root", is
    left out, and the mesh of "Arm", a child of "Body", is returned. *)
Lemma getChildren_returns_the_hierarchy_witness :
  exists r,
    outcome (host graph_oracle)
      (SceneUtilities.getChildren 3 1 false true) example_hierarchy = Ok r /\
    Some 11 ∈ r /\ Some 10 ∉ r.
Proof.
  destruct (getChildren_returns_the_hierarchy
              graph graph_oracle example_hierarchy 3 1 false true)
    as (r & Hout & _ & Hr).
  - apply within_b_sound. vm_compute. reflexivity.
  - exists r. split; [exact Hout |]. split.
    + apply Hr. right. exists 3. split.
      * split; [by eexists | reflexivity].
      * right. split; [done |]. exists 2. split; [reflexivity |].
        apply descendant_child. reflexivity.
    + intros Hin. vm_compute in Hout. injection Hout as <-.
      repeat (apply elem_of_cons in Hin as [Hin | Hin]; [discriminate Hin |]).
      by apply elem_of_nil in Hin.
Defined.

(** ** The selection that the operators work on *)

Section Operators.

Context {Ext : Type}.
Variable oracle : handler (World Ext).

Lemma select_all_objects_run (w : World Ext) (objects : list ID) :
  Forall (fun o => is_Some (w_objects w !! o)) objects ->
  exists w' t,
    run (host oracle) (for_in objects (fun o => call (object_select_set o true))) w
    = (Ok tt, w', t) /\
    selects_more w w' (fun o => o ∈ objects).
Proof.
  intros Hlive.
  destruct (for_in_selects oracle w
              (fun o => call (object_select_set o true)) eq objects)
    with (w2 := w) as (w' & t & Hrun & Hpost).
  - intros c w2 Hc Hw2. rewrite Forall_forall in Hlive.
    destruct (host_object_select_set oracle w2 c) as (w3 & Hsel & Hpost).
    { apply (selects_only_live w w2); [done | by apply Hlive]. }
    rewrite run_call, Hsel. by eexists _, _.
  - apply selects_only_refl.
  - exists w', t. split; [done |].
    eapply selects_more_iff; [| exact Hpost].
    intros o. split; [by intros (c & Hc & ->) | intros Ho; by exists o].
Qed.

End Operators.

(** X5: when the objects given exist, moveCameraToViewSelected invokes the
    operator [view3d.camera_to_view_selected] after selecting them, and
    the selection it is invoked with is the one found on entry together
    with the objects given: the function does not clear the selection
    first, and up to the operator nothing but the selection has changed. *)
Theorem moveCameraToViewSelected_adds_to_the_selection :
  forall (Ext : Type) (oracle : handler (World Ext)) (w : World Ext)
         (objects : list ID) (camera_name : string)
         (camera_backwards_offset : pynum),
    let p :=
      SceneUtilities.moveCameraToViewSelected objects camera_name
        camera_backwards_offset in
    Forall (fun o => is_Some (w_objects w !! o)) objects ->
    exists t w1 e rest,
      steps (host oracle) p w =
        t ++ Step (Call ops_view3d_camera_to_view_selected) w1 e :: rest /\
      map step_call t = map (fun o => Call (object_select_set o true)) objects /\
      selects_only w w1 /\
      forall o, selected w1 o <-> selected w o \/ o ∈ objects.
Proof.
  intros Ext oracle w objects camera_name offset p Hlive.
  destruct (select_all_objects_run oracle w objects Hlive)
    as (w1 & t & Hrun & Honly & Hsel).
  assert (map step_call t
          = map (fun o => Call (object_select_set o true)) objects) as Hcalls.
  { clear Honly Hsel Hlive. revert w t w1 Hrun.
    induction objects as [| o objects IH]; intros w t w1 Hrun.
    - cbn in Hrun. by injection Hrun as _ <-.
    - cbn [for_in] in Hrun. rewrite run_call_bind in Hrun.
      destruct (host oracle unit (object_select_set o true) w)
        as [[[] | e] w2]; [| discriminate Hrun].
      destruct (run (host oracle)
                  (for_in objects (fun o => call (object_select_set o true))) w2)
        as [[r w3] t3] eqn:Hrest.
      injection Hrun as -> -> <-. cbn. f_equal. by eapply IH. }
  unfold steps, p, SceneUtilities.moveCameraToViewSelected.
  rewrite run_bind, Hrun. rewrite run_call_bind.
  destruct (host oracle unit ops_view3d_camera_to_view_selected w1)
    as [[[] | e] w2].
  - match goal with
    | |- context [run (host oracle) ?rest w2] =>
        destruct (run (host oracle) rest w2) as [[r w3] t3]
    end.
    exists t, w1, None, t3. by split_and!.
  - exists t, w1, (Some e), []. by split_and!.
Qed.

(** "Other" was selected before: the view is fitted to it as well as to
    "Arm". *)
Lemma moveCameraToViewSelected_adds_to_the_selection_witness :
  exists t w1 e rest,
    steps (host graph_oracle)
      (SceneUtilities.moveCameraToViewSelected [3] "Lens" (PyInt 0))
      example_hierarchy =
      t ++ Step (Call ops_view3d_camera_to_view_selected) w1 e :: rest /\
    selected w1 3 /\ selected w1 4.
Proof.
  destruct (moveCameraToViewSelected_adds_to_the_selection
              graph graph_oracle example_hierarchy [3] "Lens" (PyInt 0))
    as (t & w1 & e & rest & Hsteps & _ & _ & Hsel).
  - repeat constructor. vm_compute. by eexists.
  - exists t, w1, e, rest. split; [exact Hsteps |]. split; apply Hsel.
    + right. by left.
    + left. reflexivity.
Defined.

(** X6: duplicateObject on an object without children, with
    [include_parent] not set and nothing selected in the scene, finds the
    selection empty: [selected_objects[0]] raises IndexError before any
    operator is invoked, and the state is left as it was. *)
Theorem duplicateObject_of_a_leaf_raises_IndexError :
  forall (Ext : Type) (oracle : handler (World Ext)) (w : World Ext)
         (depth : nat) (mesh : ID),
    let p := SceneUtilities.duplicateObject depth mesh false in
    0 < depth ->
    is_Some (w_objects w !! mesh) ->
    (forall c, ~ child_of w mesh c) ->
    (forall o, ~ selected w o) ->
    outcome (host oracle) p w = Err list_index_out_of_range /\
    final (host oracle) p w = w /\
    calls (host oracle) p w =
      [Call (object_children mesh); Call context_selected_objects].
Proof.
  intros Ext oracle w depth mesh p Hdepth Hlive Hleaf Hnone.
  destruct depth as [| depth]; [lia |].
  assert (children_of w mesh = []) as Hchildren.
  { apply elem_of_nil_inv. intros c Hc%elem_of_children_of. by eapply Hleaf. }
  assert ((filter (fun kv : ID * object => o_selected kv.2 = true)
             (map_to_list (w_objects w))).*1 = []) as Hsel.
  { apply elem_of_nil_inv.
    intros o ([k ob] & -> & [Hs Hin]%list_elem_of_filter)%list_elem_of_fmap.
    apply elem_of_map_to_list in Hin. apply (Hnone k).
    unfold selected. cbn in *. by rewrite Hin, <- Hs. }
  unfold outcome, final, calls, steps, p, SceneUtilities.duplicateObject.
  cbn [SceneUtilities.selectChildren]. cbn [bind].
  rewrite run_bind, run_call_bind.
  rewrite host_object_children, Hchildren by done. cbn [for_in run].
  rewrite run_call_bind. cbn [host]. rewrite Hsel. by cbn.
Qed.

(** "Arm" has no children, and nothing is selected in the scene of the
    two meshes. *)
Lemma duplicateObject_of_a_leaf_raises_IndexError_witness :
  outcome (host graph_oracle) (SceneUtilities.duplicateObject 5 2 false)
    two_meshes
  = Err list_index_out_of_range.
Proof.
  apply (duplicateObject_of_a_leaf_raises_IndexError
           graph graph_oracle two_meshes 5 2).
  - lia.
  - vm_compute. by eexists.
  - intros c Hc%elem_of_children_of. vm_compute in Hc.
    by apply elem_of_nil in Hc.
  - intros o Ho. unfold selected in Ho.
    destruct (w_objects two_meshes !! o) as [ob |] eqn:Hob; [| discriminate Ho].
    apply elem_of_map_to_list in Hob. vm_compute in Hob.
    repeat (apply elem_of_cons in Hob as [Hob | Hob];
            [injection Hob as -> ->; discriminate Ho |]).
    by apply elem_of_nil in Hob.
Defined.

(** ** createCamera when it creates *)

(** The fields of a state built by the setters. *)
Ltac world_simpl :=
  cbn [w_objects w_collections w_cameras w_meshes w_materials w_images w_next
       w_master w_active_collection w_camera w_frame w_active_object w_files
       w_windows w_stdout w_processes w_exit_code w_ext
       set_objects set_collections set_cameras set_meshes set_materials
       set_images set_next set_camera set_frame set_active_object set_files
       set_stdout set_processes set_ext acquire release].

Section CreateCameraNew.

Context {Ext : Type}.
Variable oracle : handler (World Ext).

(** The part of createCamera after the check for existing cameras. *)
Lemma createCamera_tail_run (w0 w : World Ext) (name : string) (c : ID)
    (col : collection) (location rotation : list pynum) (set_as_active : bool) :
  prints_only w0 w ->
  w_collections w0 !! c = Some col ->
  S (w_next w0) ∉ c_objects col ->
  exists w' t,
    run (host oracle)
      (camera <- call (data_cameras_new name);;
       camera <- call (data_objects_new name camera);;
       call (object_set_location camera location);;
       call (object_set_rotation_euler camera (map radians rotation));;
       (if struct_truthy c
        then call (collection_objects_link c camera)
        else Ret tt);;
       (if set_as_active then call (scene_set_camera camera) else Ret tt);;
       Ret (Some camera)) w
    = (Ok (Some (S (w_next w0))), w', t) /\
    camera_created name c (c_name col) (c_objects col) location rotation
      set_as_active (w_next w0) w0 w'.
Proof.
  intros [out ->] Hcol Hfresh.
  assert (forall w1 : World Ext,
             type_of_data (w_next w0)
               (set_cameras (insert (w_next w0) (mkBlock name 0 [])) w1)
             = "CAMERA") as Htype.
  { intros w1. unfold type_of_data. cbn [w_cameras set_cameras].
    rewrite lookup_insert_eq. by rewrite bool_decide_eq_true_2. }
  rewrite run_call_bind. cbn [host fresh]. world_simpl.
  rewrite run_call_bind. cbn [host fresh]. world_simpl. rewrite Htype.
  rewrite run_call_bind. cbn [host]. unfold update_object, with_object.
  world_simpl. rewrite lookup_insert_eq.
  rewrite run_call_bind. cbn [host]. unfold update_object, with_object.
  world_simpl. rewrite lookup_alter_eq, lookup_insert_eq.
  cbn [fmap option_fmap option_map].
  rewrite run_bind. cbn [struct_truthy]. rewrite run_call. cbn [host].
  world_simpl. rewrite Hcol. unfold with_object. world_simpl.
  rewrite !lookup_alter_eq, lookup_insert_eq.
  cbn [fmap option_fmap option_map].
  rewrite bool_decide_eq_false_2 by done.
  destruct set_as_active.
  - rewrite run_bind, run_call. cbn [host]. unfold with_object. world_simpl.
    rewrite !lookup_alter_eq, lookup_insert_eq.
    cbn [fmap option_fmap option_map run].
    eexists _, _. split; [reflexivity |].
    unfold camera_created. world_simpl.
    unfold acquire_block. rewrite !alter_insert_eq. by cbn.
  - cbn [run].
    eexists _, _. split; [reflexivity |].
    unfold camera_created. world_simpl.
    unfold acquire_block. rewrite !alter_insert_eq. by cbn.
Qed.

(** The choice of the collection, when it exists. *)
Lemma createCamera_collection_run (w : World Ext)
    (in_collection : option string) (c : ID) (col : collection) :
  target_collection in_collection w = Some c ->
  w_collections w !! c = Some col ->
  exists w1 t1,
    run (host oracle)
      (if truthy in_collection then
         collection <- expect_str in_collection;;
         colls <- call data_collections;;
         camCollection <- list_comp_if colls (fun x =>
           n <- call (id_name x);;
           Ret (String.eqb collection n));;
         match camCollection with
         | [] =>
             camCollection <- call (data_collections_new collection);;
             call (scene_collection_children_link camCollection);;
             Ret camCollection
         | c :: _ => Ret c
         end
       else
         camCollection <- call active_layer_collection;;
         n <- call (id_name camCollection);;
         call (print ("Use current active collection [" +:+ n +:+ "]"));;
         Ret camCollection) w = (Ok c, w1, t1) /\
    prints_only w w1.
Proof.
  intros Htarget Hcol.
  destruct (name_of_collection w c col Hcol) as [cn Hcn].
  unfold target_collection in Htarget.
  destruct (truthy in_collection) eqn:Htruthy.
  - destruct in_collection as [s |]; [| done].
    cbn [expect_str bind default] in *.
    rewrite run_call_bind. cbn [host].
    destruct (createCamera_named oracle w w (data_collection_ids w) s
                (prints_only_refl w) (data_collections_named w))
      as (t & Hrun & Ht).
    rewrite run_bind, Hrun.
    destruct (filter _ (data_collection_ids w)) as [| c' cs]; [done |].
    injection Htarget as ->. cbn [run].
    eexists _, _. split; [done | apply prints_only_refl].
  - injection Htarget as <-.
    rewrite run_call_bind. cbn [host].
    rewrite run_call_bind, (host_id_name oracle w w _ cn)
      by (done || apply prints_only_refl).
    rewrite run_call_bind, host_print. cbn [run].
    eexists _, _. split; [done | solve_prints].
Qed.

(** The check for existing cameras, when it finds none or is skipped. *)
Lemma createCamera_no_camera_run (w0 w : World Ext) (c : ID) (col : collection)
    (create_if_camera_exists : bool) :
  prints_only w0 w ->
  w_collections w0 !! c = Some col ->
  (create_if_camera_exists = false ->
   Forall (fun o => is_Some (w_objects w0 !! o)) (c_objects col) /\
   ~ Exists (is_camera w0) (c_objects col)) ->
  exists w' t,
    run (host oracle)
      (if negb create_if_camera_exists then
         call (print "check existing");;
         objs <- call (collection_objects c);;
         for_flow objs (fun obj =>
           n <- call (id_name obj);;
           call (print n);;
           t <- call (object_type obj);;
           call (print t);;
           t <- call (object_type obj);;
           if String.eqb t "CAMERA" then
             n <- call (id_name obj);;
             cn <- call (id_name c);;
             call (print ("WARNING:: Camera [" +:+ n
                          +:+ "] already exists in collection [" +:+ cn +:+ "]"));;
             Ret (Return tt)
           else Ret Next)
       else Ret None) w = (Ok None, w', t) /\
    prints_only w0 w'.
Proof.
  intros Hw Hcol Hcheck.
  destruct create_if_camera_exists; cbn [negb].
  - by exists w, [].
  - destruct (Hcheck eq_refl) as [Hlive Hnone].
    destruct (name_of_collection w0 c col Hcol) as [cn Hcn].
    rewrite run_call_bind, host_print.
    rewrite run_call_bind, (host_collection_objects oracle w0 _ c col)
      by (done || solve_prints).
    destruct (createCamera_check oracle w0
                (set_stdout (fun out => out ++ ["check existing"]) w) c cn
                (c_objects col) Hcn Hlive) as (w2 & t2 & Hrun & Hw2 & Ht2);
      [solve_prints |].
    rewrite Hrun. rewrite decide_False by done.
    by eexists _, _.
Qed.

(** createCamera in a collection that exists. *)
Lemma createCamera_creates_run (w : World Ext) (name : string)
    (in_collection : option string) (location rotation : list pynum)
    (create_if_camera_exists set_as_active : bool) (c : ID) (col : collection) :
  target_collection in_collection w = Some c ->
  w_collections w !! c = Some col ->
  (create_if_camera_exists = false ->
   Forall (fun o => is_Some (w_objects w !! o)) (c_objects col) /\
   ~ Exists (is_camera w) (c_objects col)) ->
  S (w_next w) ∉ c_objects col ->
  exists w' t,
    run (host oracle)
      (SceneUtilities.createCamera name in_collection location rotation
         create_if_camera_exists set_as_active) w
    = (Ok (Some (S (w_next w))), w', t) /\
    camera_created name c (c_name col) (c_objects col) location rotation
      set_as_active (w_next w) w w'.
Proof.
  intros Htarget Hcol Hcheck Hfresh.
  destruct (createCamera_collection_run w in_collection c col Htarget Hcol)
    as (w1 & t1 & Hrun1 & Hw1).
  destruct (createCamera_no_camera_run w w1 c col create_if_camera_exists
              Hw1 Hcol Hcheck) as (w2 & t2 & Hrun2 & Hw2).
  destruct (createCamera_tail_run w w2 name c col location rotation
              set_as_active Hw2 Hcol Hfresh) as (w3 & t3 & Hrun3 & Hw3).
  unfold SceneUtilities.createCamera.
  rewrite run_bind, Hrun1. cbv zeta. rewrite run_bind, Hrun2.
  cbv beta iota. rewrite Hrun3. by eexists _, _.
Qed.

(** createCamera in a collection that it has to create. *)
Lemma createCamera_new_collection_run (w : World Ext) (name collection : string)
    (location rotation : list pynum)
    (create_if_camera_exists set_as_active : bool) :
  collection <> "" ->
  target_collection (Some collection) w = None ->
  exists w' t,
    run (host oracle)
      (SceneUtilities.createCamera name (Some collection) location rotation
         create_if_camera_exists set_as_active) w
    = (Ok (Some (S (S (w_next w)))), w', t) /\
    camera_created name (w_next w) collection [] location rotation
      set_as_active (S (w_next w)) w w' /\
    Call (data_collections_new collection) ∈ map step_call t /\
    Call (scene_collection_children_link (w_next w)) ∈ map step_call t.
Proof.
  intros Hne Htarget.
  assert (truthy (Some collection) = true) as Htruthy.
  { cbn. by destruct (String.eqb_spec collection ""). }
  unfold target_collection in Htarget. rewrite Htruthy in Htarget.
  change (default "" (Some collection)) with collection in Htarget.
  apply head_None in Htarget.
  set (w1 := set_collections
               (insert (w_next w) (mkCollection collection []))
               (set_next (S (w_next w)) w)).
  assert (w_collections w1 !! w_next w = Some (mkCollection collection []))
    as Hcol by apply lookup_insert_eq.
  destruct (createCamera_no_camera_run w1 w1 (w_next w)
              (mkCollection collection []) create_if_camera_exists
              (prints_only_refl w1) Hcol) as (w2 & t2 & Hrun2 & Hw2).
  { intros _. split; [constructor | by intros ?%Exists_nil]. }
  destruct (createCamera_tail_run w1 w2 name (w_next w)
              (mkCollection collection []) location rotation set_as_active
              Hw2 Hcol) as (w3 & t3 & Hrun3 & Hw3).
  { cbn. by intros ?%elem_of_nil. }
  unfold SceneUtilities.createCamera. rewrite Htruthy.
  rewrite run_bind. cbn [expect_str]. cbn [bind].
  rewrite run_call_bind. cbn [host].
  destruct (createCamera_named oracle w w (data_collection_ids w) collection
              (prints_only_refl w) (data_collections_named w))
    as (t & Hrun & Ht).
  rewrite run_bind, Hrun, Htarget.
  rewrite run_call_bind. cbn [host fresh]. fold w1.
  rewrite run_call_bind. cbn [host]. rewrite Hcol. cbn [run].
  cbv zeta. rewrite run_bind, Hrun2. cbv beta iota. rewrite Hrun3.
  eexists _, _. split; [reflexivity |].
  destruct Hw3 as (Hobjs & Hcams & Hcolls & Hcam).
  split_and!.
  - unfold camera_created. split_and!; [done | done | | done].
    rewrite Hcolls. unfold w1. cbn. apply insert_insert_eq.
  - rewrite map_app. apply elem_of_app. left. cbn [map step_call].
    apply elem_of_cons. right. rewrite map_app. apply elem_of_app. right.
    cbn. by left.
  - rewrite map_app. apply elem_of_app. left. cbn [map step_call].
    apply elem_of_cons. right. rewrite map_app. apply elem_of_app. right.
    cbn. right. by left.
Qed.

Lemma createCamera_never_renders n c l r e a :
  always (fun c => ~ is_render c) (SceneUtilities.createCamera n c l r e a).
Proof. unfold SceneUtilities.createCamera. repeat always_step. Qed.

End CreateCameraNew.

(** X7: in a collection that exists (the first collection with the name
    given, or the active collection when no name is given), when
    [create_if_camera_exists] is set or the members of the collection
    exist and none is a camera, createCamera returns a new camera object.
    It has the name given, the type "CAMERA", a new camera data block with
    that name for its data, the location given as it is and the rotation
    given converted to radians; it is the last member of the collection,
    and the camera of the scene when [set_as_active] is set, the scene
    camera being left as it was otherwise. *)
Theorem createCamera_creates_the_camera :
  forall (Ext : Type) (oracle : handler (World Ext)) (w : World Ext)
         (name : string) (in_collection : option string)
         (location rotation : list pynum)
         (create_if_camera_exists set_as_active : bool)
         (c : ID) (col : collection),
    let p :=
      SceneUtilities.createCamera name in_collection location rotation
        create_if_camera_exists set_as_active in
    let camera := S (w_next w) in
    let w' := final (host oracle) p w in
    target_collection in_collection w = Some c ->
    w_collections w !! c = Some col ->
    (create_if_camera_exists = false ->
     Forall (fun o => is_Some (w_objects w !! o)) (c_objects col) /\
     ~ Exists (is_camera w) (c_objects col)) ->
    camera ∉ c_objects col ->
    outcome (host oracle) p w = Ok (Some camera) /\
    w_objects w' =
      <[camera := mkObject name "CAMERA" (Some (w_next w)) None false location
                    (map radians rotation)]> (w_objects w) /\
    w_cameras w' = <[w_next w := mkBlock name 1 []]> (w_cameras w) /\
    w_collections w' =
      <[c := mkCollection (c_name col) (c_objects col ++ [camera])]>
        (w_collections w) /\
    w_camera w' = (if set_as_active then Some camera else w_camera w).
Proof.
  intros Ext oracle w name in_collection location rotation
    create_if_camera_exists set_as_active c col p camera w'
    Htarget Hcol Hcheck Hfresh.
  destruct (createCamera_creates_run oracle w name in_collection location
              rotation create_if_camera_exists set_as_active c col
              Htarget Hcol Hcheck Hfresh) as (w2 & t & Hrun & Hcreated).
  unfold w', outcome, final, p. rewrite Hrun. cbn [fst snd].
  split; [done | exact Hcreated].
Qed.

(** In the scene of the two meshes a camera "Cam" is created in the scene
    collection and made the camera of the scene. *)
Lemma createCamera_creates_the_camera_witness :
  outcome (host graph_oracle)
    (SceneUtilities.createCamera "Cam" None [PyInt 1; PyInt 2; PyInt 3]
       [PyInt 90; PyInt 0; PyInt 0] false true) two_meshes
  = Ok (Some 101) /\
  w_camera (final (host graph_oracle)
    (SceneUtilities.createCamera "Cam" None [PyInt 1; PyInt 2; PyInt 3]
       [PyInt 90; PyInt 0; PyInt 0] false true) two_meshes)
  = Some 101.
Proof.
  destruct (createCamera_creates_the_camera
              graph graph_oracle two_meshes "Cam" None
              [PyInt 1; PyInt 2; PyInt 3] [PyInt 90; PyInt 0; PyInt 0]
              false true 0 (mkCollection "Scene Collection" [1; 2]))
    as (Hout & _ & _ & _ & Hcam).
  - reflexivity.
  - vm_compute. reflexivity.
  - intros _. split.
    + repeat constructor; vm_compute; by eexists.
    + intros H. repeat (apply Exists_cons in H as [H | H];
                        [vm_compute in H; discriminate H |]).
      by apply Exists_nil in H.
  - cbn. intros H.
    repeat (apply elem_of_cons in H as [H | H]; [discriminate H |]).
    by apply elem_of_nil in H.
  - by split.
Defined.

(** X8: when a collection name is given and [bpy.data.collections] has
    no collection with that name, createCamera creates a collection with
    that name, links it to the scene, and creates the camera in it: the
    new collection has the camera object for its only member, and the
    camera is as when the collection exists.  The check for existing
    cameras finds the new collection empty, so the camera is created
    whatever [create_if_camera_exists] is. *)
Theorem createCamera_creates_the_collection :
  forall (Ext : Type) (oracle : handler (World Ext)) (w : World Ext)
         (name collection : string) (location rotation : list pynum)
         (create_if_camera_exists set_as_active : bool),
    let p :=
      SceneUtilities.createCamera name (Some collection) location rotation
        create_if_camera_exists set_as_active in
    let camera := S (S (w_next w)) in
    let w' := final (host oracle) p w in
    collection <> "" ->
    target_collection (Some collection) w = None ->
    outcome (host oracle) p w = Ok (Some camera) /\
    Call (data_collections_new collection) ∈ calls (host oracle) p w /\
    Call (scene_collection_children_link (w_next w)) ∈ calls (host oracle) p w /\
    w_collections w' =
      <[w_next w := mkCollection collection [camera]]> (w_collections w) /\
    w_objects w' =
      <[camera := mkObject name "CAMERA" (Some (S (w_next w))) None false
                    location (map radians rotation)]> (w_objects w) /\
    w_cameras w' = <[S (w_next w) := mkBlock name 1 []]> (w_cameras w) /\
    w_camera w' = (if set_as_active then Some camera else w_camera w).
Proof.
  intros Ext oracle w name collection location rotation
    create_if_camera_exists set_as_active p camera w' Hne Htarget.
  destruct (createCamera_new_collection_run oracle w name collection location
              rotation create_if_camera_exists set_as_active Hne Htarget)
    as (w2 & t & Hrun & (Hobjs & Hcams & Hcolls & Hcam) & Hnew & Hlink).
  unfold w', outcome, final, calls, steps, p. rewrite Hrun. cbn [fst snd].
  by split_and!.
Qed.

(** No collection "Cameras" exists in the scene of the two meshes: it is
    created, with the new camera for its only member. *)
Lemma createCamera_creates_the_collection_witness :
  c_objects <$>
    w_collections
      (final (host graph_oracle)
         (SceneUtilities.createCamera "Cam" (Some "Cameras")
            [PyInt 0; PyInt 0; PyInt 0] [PyInt 0; PyInt 0; PyInt 0] false true)
         two_meshes) !! 100
  = Some [102].
Proof.
  destruct (createCamera_creates_the_collection
              graph graph_oracle two_meshes "Cam" "Cameras"
              [PyInt 0; PyInt 0; PyInt 0] [PyInt 0; PyInt 0; PyInt 0]
              false true) as (_ & _ & _ & Hcolls & _).
  - done.
  - vm_compute. reflexivity.
  - rewrite Hcolls. by rewrite lookup_insert_eq.
Defined.


(** ** renderComposition when the render has a camera *)

Section RenderWithCamera.

Context {Ext : Type}.
Variable oracle : handler (World Ext).

Lemma cleanup_cleans (node_tree : ID) (do_cleanup : bool) (w : World Ext) :
  Forall cleans
    (calls (host oracle)
       ((if do_cleanup then
           nodes <- call (tree_nodes node_tree);;
           for_in nodes (fun node => call (tree_nodes_remove node_tree node))
         else Ret tt);;
        Ret tt) w).
Proof.
  apply (always_calls (host oracle) cleans).
  destruct do_cleanup; repeat always_step.
Qed.

Lemma cleans_not_render (c : host_call) : cleans c -> ~ is_render c.
Proof. destruct c as [X c]. destruct c; cbn; tauto. Qed.

(** From the frame on: the frame is set, the render is invoked, and the
    nodes are removed. *)
Lemma renderComposition_tail_run (node_tree : ID) (do_cleanup : bool)
    (frame : Z) (w : World Ext) :
  exists e rest,
    steps (host oracle)
      (call (scene_frame_set frame);;
       call (ops_render_render true);;
       (if do_cleanup then
          nodes <- call (tree_nodes node_tree);;
          for_in nodes (fun node => call (tree_nodes_remove node_tree node))
        else Ret tt);;
       Ret tt) w
    = Step (Call (scene_frame_set frame)) w None
      :: Step (Call (ops_render_render true)) (set_frame frame w) e :: rest /\
    Forall cleans (map step_call rest) /\
    (do_cleanup = false -> rest = []).
Proof.
  unfold steps. rewrite run_call_bind. cbn [host]. rewrite run_call_bind.
  pose proof (cleanup_cleans node_tree do_cleanup) as Hclean.
  unfold calls, steps in Hclean.
  destruct (host oracle unit (ops_render_render true) (set_frame frame w))
    as [[[] | e] w1].
  - specialize (Hclean w1).
    assert (do_cleanup = false ->
            (run (host oracle)
               ((if do_cleanup then
                   nodes <- call (tree_nodes node_tree);;
                   for_in nodes (fun node =>
                     call (tree_nodes_remove node_tree node))
                 else Ret tt);;
                Ret tt) w1).2 = []) as Hnil by (by intros ->).
    destruct (run (host oracle) _ w1) as [[r w2] t].
    exists None, t. by split_and!.
  - exists (Some e), []. by split_and!.
Qed.

End RenderWithCamera.

(** X9: when the scene has a camera, renderComposition goes straight to
    the render: it reads the scene camera, sets the frame given and
    invokes the render operator in the state found on entry with that
    frame set; it prints nothing and creates nothing.  The calls after the
    render list and remove the nodes of the tree, and there is none when
    [do_cleanup] is not set. *)
Theorem renderComposition_renders_with_the_scene_camera :
  forall (Ext : Type) (oracle : handler (World Ext)) (w : World Ext)
         (node_tree : ID) (do_cleanup : bool) (frame : Z) (camera : ID),
    let p := CompositorUtilities.renderComposition node_tree do_cleanup frame in
    w_camera w = Some camera ->
    exists e rest,
      steps (host oracle) p w =
        Step (Call scene_camera) w None
        :: Step (Call (scene_frame_set frame)) w None
        :: Step (Call (ops_render_render true)) (set_frame frame w) e
        :: rest /\
      Forall cleans (map step_call rest) /\
      (do_cleanup = false -> rest = []) /\
      camera_at_render (steps (host oracle) p w) = [Some camera].
Proof.
  intros Ext oracle w node_tree do_cleanup frame camera p Hcam.
  destruct (renderComposition_tail_run oracle node_tree do_cleanup frame w)
    as (e & rest & Hsteps & Hrest & Hnil).
  assert (steps (host oracle) p w =
          Step (Call scene_camera) w None
          :: Step (Call (scene_frame_set frame)) w None
          :: Step (Call (ops_render_render true)) (set_frame frame w) e
          :: rest) as Hp.
  { unfold steps in *. unfold p, CompositorUtilities.renderComposition.
    rewrite run_call_bind. cbn [host]. rewrite Hcam.
    assert (negb (bool_decide (is_Some (Some camera))) = false) as ->
      by (by rewrite bool_decide_eq_true_2).
    rewrite run_bind. cbn [run].
    match goal with
    | H : (run (host oracle) ?q w).2 = _ |- context [run (host oracle) ?q' w] =>
        change q' with q; destruct (run (host oracle) q w) as [[r w2] t]
    end.
    cbn in Hsteps. cbn. by rewrite Hsteps. }
  exists e, rest. split_and!; [done | done | done |].
  rewrite Hp.
  rewrite camera_at_render_skip by (cbn; tauto).
  rewrite camera_at_render_skip by (cbn; tauto).
  rewrite camera_at_render_render, camera_at_render_none.
  - cbn. by rewrite Hcam.
  - eapply Forall_impl; [exact Hrest |]. apply cleans_not_render.
Qed.

(** The camera object 1 is the camera of the scene: it is the camera at
    the render. *)
Lemma renderComposition_renders_with_the_scene_camera_witness :
  camera_at_render
    (steps (host graph_oracle)
       (CompositorUtilities.renderComposition 50 true 7)
       (set_camera (Some 1) camera_not_active))
  = [Some 1].
Proof.
  destruct (renderComposition_renders_with_the_scene_camera
              graph graph_oracle (set_camera (Some 1) camera_not_active)
              50 true 7%Z 1) as (e & rest & _ & _ & _ & H).
  - reflexivity.
  - exact H.
Defined.

(** X10: when the scene has no camera and the members of the active
    collection exist and are no cameras, renderComposition creates the
    camera "RenderCam" in the active collection before it renders: at the
    one render of the execution the camera of the scene is the new object,
    of type "CAMERA", named "RenderCam" and the last member of the active
    collection, and the frame is the one given. *)
Theorem renderComposition_creates_the_render_camera :
  forall (Ext : Type) (oracle : handler (World Ext)) (w : World Ext)
         (node_tree : ID) (do_cleanup : bool) (frame : Z) (col : collection),
    let p := CompositorUtilities.renderComposition node_tree do_cleanup frame in
    let camera := S (w_next w) in
    w_camera w = None ->
    w_collections w !! w_active_collection w = Some col ->
    Forall (fun o => is_Some (w_objects w !! o)) (c_objects col) ->
    ~ Exists (is_camera w) (c_objects col) ->
    camera ∉ c_objects col ->
    camera_at_render (steps (host oracle) p w) = [Some camera] /\
    exists t w1 e rest,
      steps (host oracle) p w =
        t ++ Step (Call (ops_render_render true)) w1 e :: rest /\
      w_camera w1 = Some camera /\
      w_frame w1 = frame /\
      o_name <$> w_objects w1 !! camera = Some "RenderCam" /\
      o_type <$> w_objects w1 !! camera = Some "CAMERA" /\
      c_objects <$> w_collections w1 !! w_active_collection w
      = Some (c_objects col ++ [camera]).
Proof.
  intros Ext oracle w node_tree do_cleanup frame col p camera
    Hcam Hcol Hlive Hnone Hfresh.
  set (w0 := set_stdout
               (fun out => out ++
                  ["COMPOSITOR UTILS: creating RenderCam in active collection"]) w).
  destruct (createCamera_creates_run oracle w0 "RenderCam" None
              [PyInt 0; PyInt 0; PyInt 0] [PyInt 0; PyInt 0; PyInt 0]
              false true (w_active_collection w) col eq_refl Hcol)
    as (w1 & t1 & Hrun & Hobjs & Hcams & Hcolls & Hcam1); [done | done |].
  pose proof (always_calls (host oracle) _ _ w0
                (createCamera_never_renders "RenderCam" None
                   [PyInt 0; PyInt 0; PyInt 0] [PyInt 0; PyInt 0; PyInt 0]
                   false true)) as Hquiet.
  unfold calls, steps in Hquiet. rewrite Hrun in Hquiet. cbn [snd] in Hquiet.
  destruct (renderComposition_tail_run oracle node_tree do_cleanup frame w1)
    as (e & rest & Hsteps & Hrest & _).
  assert (steps (host oracle) p w =
          (Step (Call scene_camera) w None
           :: Step (Call (print
                "COMPOSITOR UTILS: creating RenderCam in active collection"))
                w None
           :: t1 ++ [Step (Call (scene_frame_set frame)) w1 None])
          ++ Step (Call (ops_render_render true)) (set_frame frame w1) e
          :: rest) as Hp.
  { unfold steps in *. unfold p, CompositorUtilities.renderComposition.
    rewrite run_call_bind. cbn [host]. rewrite Hcam.
    assert (negb (bool_decide (is_Some (@None ID))) = true) as -> by done.
    rewrite run_bind, run_call_bind, host_print. fold w0.
    rewrite run_bind, Hrun. cbn [run].
    match goal with
    | H : (run (host oracle) ?q w1).2 = _ |- context [run (host oracle) ?q' w1] =>
        change q' with q; destruct (run (host oracle) q w1) as [[r w2] t]
    end.
    cbn in Hsteps. cbn. rewrite Hsteps, app_nil_r. by rewrite <- app_assoc. }
  split.
  - rewrite Hp. rewrite camera_at_render_app. cbn [app].
    rewrite !camera_at_render_skip by (cbn; tauto).
    rewrite camera_at_render_app, (camera_at_render_none t1) by done.
    rewrite camera_at_render_skip by (cbn; tauto).
    rewrite camera_at_render_render, (camera_at_render_none rest).
    + cbn. by rewrite Hcam1.
    + eapply Forall_impl; [exact Hrest |]. apply cleans_not_render.
  - eexists _, _, _, _. split; [exact Hp |].
    cbn [w_camera w_frame w_objects w_collections set_frame].
    rewrite Hcam1, Hobjs, Hcolls. rewrite !lookup_insert_eq. done.
Qed.

(** In the scene of the two meshes the render camera is the new object
    101. *)
Lemma renderComposition_creates_the_render_camera_witness :
  camera_at_render
    (steps (host graph_oracle)
       (CompositorUtilities.renderComposition 50 false 0) two_meshes)
  = [Some 101].
Proof.
  apply (renderComposition_creates_the_render_camera
           graph graph_oracle two_meshes 50 false 0%Z
           (mkCollection "Scene Collection" [1; 2])).
  - reflexivity.
  - vm_compute. reflexivity.
  - repeat constructor; vm_compute; by eexists.
  - intros H. repeat (apply Exists_cons in H as [H | H];
                      [vm_compute in H; discriminate H |]).
    by apply Exists_nil in H.
  - cbn. intros H.
    repeat (apply elem_of_cons in H as [H | H]; [discriminate H |]).
    by apply elem_of_nil in H.
Defined.

(** ** removeBlenderFrameSuffix when the render is missing *)

(** X11: when the file with the "0000" suffix does not exist and the
    destination does, removeBlenderFrameSuffix has removed the destination
    by the time the rename fails: it ends with FileNotFoundError, and the
    file that was at the destination is gone. *)
Theorem removeBlenderFrameSuffix_failure_loses_the_destination :
  forall (Ext : Type) (oracle : handler (World Ext)) (w : World Ext)
         (file_path : FilePath) (frame : Z) (old : string),
    let full := getFullPath file_path false in
    let p := CompositorUtilities.removeBlenderFrameSuffix file_path frame in
    w_files w !! suffixed file_path = None ->
    w_files w !! full = Some old ->
    (exists e, outcome (host oracle) p w = Err e /\
               exn_type e = FileNotFoundError) /\
    calls (host oracle) p w =
      [Call (os_path_exists full); Call (os_remove full);
       Call (os_rename (suffixed file_path) full)] /\
    w_files (final (host oracle) p w) = delete full (w_files w) /\
    w_files (final (host oracle) p w) !! full = None.
Proof.
  intros Ext oracle w file_path frame old full p Htmp Hfull.
  pose proof (removeBlenderFrameSuffix_run oracle file_path frame w) as Hrun.
  cbv zeta in Hrun. fold (suffixed file_path) full in Hrun.
  rewrite Htmp in Hrun.
  unfold outcome, calls, steps, final, p. rewrite Hrun. cbn [fst snd].
  split_and!.
  - by eexists.
  - unfold clearing. fold full. rewrite Hfull.
    by rewrite bool_decide_eq_true_2.
  - apply cleared_files.
  - rewrite cleared_files. apply lookup_delete_eq.
Qed.

(** Nothing has been rendered to [wood_A]: the older [wood_A.tga] is
    removed and the call fails. *)
Lemma removeBlenderFrameSuffix_failure_loses_the_destination_witness :
  w_files
    (final (host graph_oracle)
       (CompositorUtilities.removeBlenderFrameSuffix
          (mkFilePath "C:/tex" "wood_A" "tga") 0) example_not_rendered)
  !! "C:/tex/wood_A.tga" = None.
Proof.
  apply (removeBlenderFrameSuffix_failure_loses_the_destination
           graph graph_oracle example_not_rendered
           (mkFilePath "C:/tex" "wood_A" "tga") 0%Z "old");
    vm_compute; reflexivity.
Defined.

(** X12: removeBlenderFrameSuffix cannot be repeated: when the file with
    the "0000" suffix exists, a first call renames it to the destination,
    and a second call for the same path removes that destination and ends
    with FileNotFoundError, after which neither file exists. *)
Theorem removeBlenderFrameSuffix_twice_loses_the_render :
  forall (Ext : Type) (oracle : handler (World Ext)) (w : World Ext)
         (file_path : FilePath) (frame frame' : Z) (content : string),
    let full := getFullPath file_path false in
    let p :=
      CompositorUtilities.removeBlenderFrameSuffix file_path frame;;
      CompositorUtilities.removeBlenderFrameSuffix file_path frame' in
    w_files w !! suffixed file_path = Some content ->
    (exists e, outcome (host oracle) p w = Err e /\
               exn_type e = FileNotFoundError) /\
    w_files (final (host oracle) p w) !! full = None /\
    w_files (final (host oracle) p w) !! suffixed file_path = None.
Proof.
  intros Ext oracle w file_path frame frame' content full p Htmp.
  pose proof (tmpOutput_ne_full file_path) as Hne.
  fold (suffixed file_path) full in Hne.
  pose proof (removeBlenderFrameSuffix_run oracle file_path frame w) as Hrun.
  cbv zeta in Hrun. fold (suffixed file_path) full in Hrun.
  rewrite Htmp in Hrun.
  unfold outcome, final, p. rewrite run_bind, Hrun.
  match goal with
  | |- context [run (host oracle) _ ?w1] =>
      pose proof (removeBlenderFrameSuffix_run oracle file_path frame' w1)
        as Hrun2;
      assert (w_files w1 !! suffixed file_path = None) as Htmp2
  end.
  { cbn [w_files set_files]. rewrite lookup_insert_ne by done.
    apply lookup_delete_eq. }
  cbv zeta in Hrun2. fold (suffixed file_path) full in Hrun2.
  rewrite Htmp2 in Hrun2. rewrite Hrun2. cbn [fst snd].
  split_and!.
  - by eexists.
  - rewrite cleared_files. apply lookup_delete_eq.
  - rewrite cleared_files. fold full. rewrite lookup_delete_ne by done.
    exact Htmp2.
Qed.

(** After two calls neither [wood_A0000.tga] nor [wood_A.tga] exists. *)
Lemma removeBlenderFrameSuffix_twice_loses_the_render_witness :
  w_files
    (final (host graph_oracle)
       (CompositorUtilities.removeBlenderFrameSuffix
          (mkFilePath "C:/tex" "wood_A" "tga") 0;;
        CompositorUtilities.removeBlenderFrameSuffix
          (mkFilePath "C:/tex" "wood_A" "tga") 0) example_rendered)
  !! "C:/tex/wood_A.tga" = None.
Proof.
  apply (removeBlenderFrameSuffix_twice_loses_the_render
           graph graph_oracle example_rendered
           (mkFilePath "C:/tex" "wood_A" "tga") 0%Z 0%Z "new").
  vm_compute. reflexivity.
Defined.

(** ** The outputs of the compositor functions *)

Lemma removeBlenderFrameSuffix_replaces (fp : FilePath) (frame : Z) :
  always (replaces fp) (CompositorUtilities.removeBlenderFrameSuffix fp frame).
Proof.
  unfold CompositorUtilities.removeBlenderFrameSuffix.
  repeat always_step; cbn; auto.
Qed.

Lemma renderComposition_replaces (fp : FilePath) t c f :
  always (replaces fp) (CompositorUtilities.renderComposition t c f).
Proof.
  unfold CompositorUtilities.renderComposition, SceneUtilities.createCamera.
  repeat always_step.
Qed.

Lemma initCompositor_replaces (fp : FilePath) t :
  always (replaces fp) (CompositorUtilities.initCompositor t).
Proof. unfold CompositorUtilities.initCompositor. repeat always_step. Qed.

Section Outputs.

Variable FilePath_init : string -> bool -> FilePath.

Ltac replaces_step :=
  lazymatch goal with
  | |- always _ (CompositorUtilities.initCompositor _) =>
      apply initCompositor_replaces
  | |- always _ (CompositorUtilities.renderComposition _ _ _) =>
      apply renderComposition_replaces
  | |- always _ (CompositorUtilities.removeBlenderFrameSuffix _ _) =>
      apply removeBlenderFrameSuffix_replaces
  | _ => always_step
  end.


Lemma packGreyscaleToAlpha_replaces a b c d e f :
  always
    (replaces (set_fileName (FilePath_init a true)
                 (str_replace (fileName (FilePath_init a true)) c d)))
    (CompositorUtilities.packGreyscaleToAlpha FilePath_init a b c d e f).
Proof.
  unfold CompositorUtilities.packGreyscaleToAlpha.
  repeat replaces_step.
Qed.

End Outputs.

Lemma str_replace_from_absent (fuel : nat) (s old new : string) :
  occurs old s = false -> str_replace_from fuel s old new = s.
Proof.
  revert s. induction fuel as [| fuel IH]; intros s; [done |].
  destruct s as [| c s]; cbn [occurs str_replace_from].
  - rewrite orb_false_r. by intros ->.
  - intros [-> Hs]%orb_false_elim. by rewrite IH.
Qed.

Lemma str_replace_absent (s old new : string) :
  old <> "" -> occurs old s = false -> str_replace s old new = s.
Proof.
  intros Hne Hs. unfold str_replace.
  destruct (String.eqb_spec old ""); [done |].
  by apply str_replace_from_absent.
Qed.



(** X14: on every host, the output of packGreyscaleToAlpha is the RGB
    source with [expected_src_suffix] replaced by [dst_suffix] in its file
    name: the only file removed is the full path of that output and the
    only rename is from its "0000"-suffixed name to it.  When
    [expected_src_suffix] does not occur in the file name of the RGB
    source, the output is the RGB source itself. *)
Theorem packGreyscaleToAlpha_replaces_the_renamed_source :
  forall (FilePath_init : string -> bool -> FilePath)
         (src_rgb src_greyscale expected_src_suffix dst_suffix format : string)
         (do_cleanup : bool),
    let src := FilePath_init src_rgb true in
    let out :=
      set_fileName src
        (str_replace (fileName src) expected_src_suffix dst_suffix) in
    let p :=
      CompositorUtilities.packGreyscaleToAlpha FilePath_init src_rgb
        src_greyscale expected_src_suffix dst_suffix format do_cleanup in
    (forall (W : Type) (h : handler W) (w : W),
        Forall (replaces out) (calls h p w)) /\
    (expected_src_suffix <> "" ->
     occurs expected_src_suffix (fileName src) = false ->
     out = src).
Proof.
  intros FilePath_init a b c d e f src out p. split.
  - intros W h w. apply always_calls, packGreyscaleToAlpha_replaces.
  - intros Hne Habsent. unfold out.
    rewrite str_replace_absent by done. by destruct src.
Qed.

(** The name [wood] has no suffix "_A": the output is the RGB source;
    in the name [wood_A] the suffix is replaced. *)
Lemma packGreyscaleToAlpha_replaces_the_renamed_source_witness :
  set_fileName (example_FilePath_init "C:/tex/wood.tga" true)
    (str_replace (fileName (example_FilePath_init "C:/tex/wood.tga" true))
       "_A" "_AR")
  = example_FilePath_init "C:/tex/wood.tga" true.
Proof.
  apply (packGreyscaleToAlpha_replaces_the_renamed_source
           example_FilePath_init "C:/tex/wood.tga" "C:/tex/wood_R.tga"
           "_A" "_AR" "TARGA" true).
  - done.
  - vm_compute. reflexivity.
Defined.

Example str_replace_suffix : str_replace "wood_A" "_A" "_AR" = "wood_AR".
Proof. vm_compute. reflexivity. Qed.

Example str_replace_every_occurrence :
  str_replace "wood_A_A" "_A" "_AR" = "wood_AR_AR".
Proof. vm_compute. reflexivity. Qed.

Section ExtractOutput.

Variable FilePath_init : string -> bool -> FilePath.

Lemma extractAlphaToGreyscale_replaces (src_img : string)
    (dst_img dst_suffix : option string) (format : string) (do_cleanup : bool) :
  let srcTex := FilePath_init src_img true in
  let chosen :=
    if truthy dst_img then FilePath_init (default "" dst_img) true
    else if truthy dst_suffix then
      mkFilePath (fileDir (FilePath_init (getFullPath srcTex true) false))
        (fileName srcTex +:+ "_" +:+ default "" dst_suffix) (fileExt srcTex)
    else FilePath_init (getFullPath srcTex false) true in
  always (replaces chosen)
    (CompositorUtilities.extractAlphaToGreyscale FilePath_init src_img
       dst_img dst_suffix format do_cleanup).
Proof.
  intros srcTex chosen. subst chosen srcTex.
  unfold CompositorUtilities.extractAlphaToGreyscale.
  assert (forall (nodeTree outputNode : ID) (dstTex : FilePath),
             always (replaces dstTex)
               (call (node_set_base_path outputNode (getFullPath dstTex true));;
                slots <- call (node_file_slots outputNode);;
                for_in slots (fun filePath =>
                  call (file_slot_set_path filePath (fileName dstTex)));;
                call (node_format_set_file_format outputNode format);;
                call (node_format_set_color_mode outputNode "BW");;
                CompositorUtilities.renderComposition nodeTree do_cleanup 0;;
                CompositorUtilities.removeBlenderFrameSuffix dstTex 0;;
                Ret dstTex)) as Hrest.
  { intros nodeTree outputNode dstTex.
    repeat lazymatch goal with
           | |- always _ (CompositorUtilities.renderComposition _ _ _) =>
               apply renderComposition_replaces
           | |- always _ (CompositorUtilities.removeBlenderFrameSuffix _ _) =>
               apply removeBlenderFrameSuffix_replaces
           | _ => always_step
           end. }
  apply always_bind; [apply initCompositor_replaces |].
  intros [nodeTree outputNode].
  do 6 (apply always_bind; [always_step |]; intros ?).
  destruct dst_img as [dst |]; cbn [truthy].
  - destruct (negb (dst =? "")%string); cbn [expect_str bind default].
    + apply Hrest.
    + destruct dst_suffix as [suffix |]; cbn [truthy].
      * destruct (negb (suffix =? "")%string); cbn [expect_str bind default];
          apply Hrest.
      * cbn [bind]. apply Hrest.
  - destruct dst_suffix as [suffix |]; cbn [truthy].
    + destruct (negb (suffix =? "")%string); cbn [expect_str bind default];
        apply Hrest.
    + cbn [bind]. apply Hrest.
Qed.

(** What extractAlphaToGreyscale returns. *)
Lemma extractAlphaToGreyscale_ends (src_img : string)
    (dst_img dst_suffix : option string) (format : string) (do_cleanup : bool) :
  let srcTex := FilePath_init src_img true in
  let chosen :=
    if truthy dst_img then FilePath_init (default "" dst_img) true
    else if truthy dst_suffix then
      mkFilePath (fileDir (FilePath_init (getFullPath srcTex true) false))
        (fileName srcTex +:+ "_" +:+ default "" dst_suffix) (fileExt srcTex)
    else FilePath_init (getFullPath srcTex false) true in
  ends (fun r => r = chosen) (fun _ => True)
    (CompositorUtilities.extractAlphaToGreyscale FilePath_init src_img
       dst_img dst_suffix format do_cleanup).
Proof.
  intros srcTex chosen.
  unfold CompositorUtilities.extractAlphaToGreyscale.
  eapply ends_bind;
    [eapply ends_weaken; [| | apply initCompositor_ends]; done |].
  intros [nodeTree outputNode] _.
  repeat lazymatch goal with
         | |- ends ?Q ?T (bind (call ?c) ?f) =>
             change (forall x, ends Q T (f x)); intros ?; cbv beta
         end.
  apply ends_bind with (Q' := fun r => r = chosen).
  - unfold chosen.
    destruct dst_img as [dst |]; cbn [truthy].
    + destruct (negb (dst =? "")%string); [done |].
      destruct dst_suffix as [suffix |]; cbn [truthy]; [| done].
      by destruct (negb (suffix =? "")%string).
    + destruct dst_suffix as [suffix |]; cbn [truthy]; [| done].
      by destruct (negb (suffix =? "")%string).
  - intros dstTex ->.
    repeat first
      [ eapply ends_weaken;
          [| | apply renderComposition_ends]; [done | done]
      | eapply ends_weaken;
          [| | apply removeBlenderFrameSuffix_ends]; [done | done]
      | no_try_step ].
Qed.

End ExtractOutput.

(** X15: on every host, extractAlphaToGreyscale writes where it says: the
    only file it removes is the full path of the FilePath that it returns,
    and its only rename is from the "0000"-suffixed name of that path to
    that path.  With neither [dst_img] nor [dst_suffix] this is the path
    of the source image, which is replaced by its alpha channel. *)
Theorem extractAlphaToGreyscale_replaces_its_destination :
  forall (FilePath_init : string -> bool -> FilePath)
         (src_img : string) (dst_img dst_suffix : option string)
         (format : string) (do_cleanup : bool)
         (W : Type) (h : handler W) (w : W),
    let srcTex := FilePath_init src_img true in
    let p :=
      CompositorUtilities.extractAlphaToGreyscale FilePath_init src_img
        dst_img dst_suffix format do_cleanup in
    (forall r, outcome h p w = Ok r -> Forall (replaces r) (calls h p w)) /\
    (truthy dst_img = false -> truthy dst_suffix = false ->
     Forall (replaces (FilePath_init (getFullPath srcTex false) true))
       (calls h p w)).
Proof.
  intros FilePath_init src_img dst_img dst_suffix format do_cleanup W h w
    srcTex p.
  pose proof (extractAlphaToGreyscale_replaces FilePath_init src_img dst_img
                dst_suffix format do_cleanup) as Htext.
  cbv zeta in Htext. fold srcTex in Htext.
  apply (always_calls h) with (w := w) in Htext. fold p in Htext.
  split.
  - intros r Hr.
    pose proof (ends_outcome h _ _ _ w
                  (extractAlphaToGreyscale_ends FilePath_init src_img dst_img
                     dst_suffix format do_cleanup)) as Hchosen.
    cbv zeta in Hchosen. fold srcTex p in Hchosen.
    rewrite Hr in Hchosen. by rewrite Hchosen.
  - intros Himg Hsuffix. by rewrite Himg, Hsuffix in Htext.
Qed.

(** Without a destination the alpha of [wood.tga] is written over
    [wood.tga]. *)
Lemma extractAlphaToGreyscale_replaces_its_destination_witness :
  Forall (replaces (mkFilePath "C:/tex" "wood" "tga"))
    (calls (host graph_oracle)
       (CompositorUtilities.extractAlphaToGreyscale example_FilePath_init
          "C:/tex/wood.tga" None None "TARGA" true) example_source).
Proof.
  destruct (extractAlphaToGreyscale_replaces_its_destination
              example_FilePath_init "C:/tex/wood.tga" None None "TARGA" true
              (World graph) (host graph_oracle) example_source) as [_ H].
  apply H; reflexivity.
Defined.

(** ** The material functions *)

Lemma getTextures_inspects (objects : list ID) :
  always inspects (MaterialUtilities.getTextures objects).
Proof. unfold MaterialUtilities.getTextures. repeat always_step. Qed.

Lemma getTextures_ends (objects : list ID) :
  ends (fun _ => True)
    (fun e => e = NoneType_has_no_attribute "node_tree" \/
              e = NoneType_has_no_attribute "nodes" \/
              e = NoneType_has_no_attribute "filepath")
    (MaterialUtilities.getTextures objects).
Proof.
  unfold MaterialUtilities.getTextures.
  repeat first
    [ lazymatch goal with
      | |- ends _ _ (not_None ?x _) => destruct x; cbn; [exact I | tauto]
      end
    | no_try_step ].
Qed.

Lemma createTextureNode_ends (t : option ID) (path : option string) :
  ends (fun _ => True)
    (fun e => exn_type e = AttributeError \/ exn_type e = TypeError)
    (MaterialUtilities.createTextureNode t path).
Proof.
  unfold MaterialUtilities.createTextureNode.
  repeat first
    [ lazymatch goal with
      | |- ends _ _ (not_None ?x _) => destruct x; cbn; [exact I | tauto]
      | |- ends _ _ (expect_str ?x) => destruct x; cbn; [exact I | tauto]
      end
    | no_try_step ].
Qed.

Section Materials.

Context {Slots : Type} `{EqDecision Slots}.
Variable value : Slots -> key.
Variable Normal : Slots.

Lemma getTextureFromSlot_inspects (material : ID) (slot : Slots) :
  always inspects (MaterialUtilities.getTextureFromSlot value Normal material slot).
Proof. unfold MaterialUtilities.getTextureFromSlot. repeat always_step. Qed.

Lemma getTextureFromSlot_ends (material : ID) (slot : Slots) :
  ends (fun _ => True) (fun e => exn_type e = AttributeError)
    (MaterialUtilities.getTextureFromSlot value Normal material slot).
Proof.
  unfold MaterialUtilities.getTextureFromSlot. repeat no_try_step.
Qed.

Lemma setTextureBySlot_ends (material : ID) (slot : Slots)
    (texture_node : option ID) (texture_path : option string) :
  ends (fun b => b = true)
    (fun e => exn_type e = AttributeError \/ exn_type e = TypeError)
    (MaterialUtilities.setTextureBySlot value Normal material slot
       texture_node texture_path).
Proof.
  unfold MaterialUtilities.setTextureBySlot.
  apply ends_bind with (Q' := fun f => f <> Return false).
  - destruct texture_node as [node |]; [done |].
    eapply ends_bind with (Q' := fun _ => True).
    + eapply ends_weaken; [| | apply getTextureFromSlot_ends]; cbn; auto.
    + intros [node |] _; [| done].
      repeat first
        [ lazymatch goal with
          | |- ends _ _ (expect_str ?x) => destruct x; cbn; [exact I | tauto]
          end
        | lazymatch goal with
          | |- ends _ _ (bind _ _) =>
              apply ends_bind with (Q' := fun _ => True); [| intros ? _]
          | |- ends _ _ (call _) => apply ends_call; intros; exact I
          | |- ends _ _ (Ret _) => cbn; done
          end ].
  - intros [| | b] Hb; [| | by destruct b].
    all: repeat first
      [ lazymatch goal with
        | |- ends _ _ (not_None ?x _) => destruct x; cbn; [exact I | tauto]
        | |- ends _ _ (MaterialUtilities.createTextureNode _ _) =>
            eapply ends_weaken; [| | apply createTextureNode_ends]; cbn; auto
        | |- ends _ _ (bind _ _) =>
            apply ends_bind with (Q' := fun _ => True); [| intros ? _]
        | |- ends _ _ (call _) => apply ends_call; intros; exact I
        | |- ends _ _ (Ret _) => cbn; done
        | |- ends _ _ (match ?x with _ => _ end) => destruct x
        end ].
Qed.

End Materials.

(** X16: getTextures and getTextureFromSlot only read: on every host each
    of their calls reads an object, a material, a node tree, a node, a
    socket, a link or an image.  An exception that getTextures ends with
    and that no call of the host raised is the AttributeError of an
    attribute access on None: a mesh without active material, a material
    without node tree, or an image texture node without image. *)
Theorem getTextures_only_reads :
  forall (Slots : Type) (Slots_eq : EqDecision Slots)
         (value : Slots -> key) (Normal : Slots)
         (objects : list ID) (material : ID) (slot : Slots)
         (W : Type) (h : handler W) (w : W),
    Forall inspects (calls h (MaterialUtilities.getTextures objects) w) /\
    Forall inspects
      (calls h (MaterialUtilities.getTextureFromSlot value Normal material slot) w) /\
    match outcome h (MaterialUtilities.getTextures objects) w with
    | Ok _ => True
    | Err e =>
        raised h (MaterialUtilities.getTextures objects) w e \/
        e = NoneType_has_no_attribute "node_tree" \/
        e = NoneType_has_no_attribute "nodes" \/
        e = NoneType_has_no_attribute "filepath"
    end.
Proof.
  intros Slots Slots_eq value Normal objects material slot W h w.
  split_and!.
  - apply always_calls, getTextures_inspects.
  - apply always_calls, getTextureFromSlot_inspects.
  - apply ends_outcome, getTextures_ends.
Qed.

(** X17: setTextureBySlot never returns False: on every host, when it
    returns, it returns True, and otherwise it ends with an exception that
    a call of the host raised, with the AttributeError of an attribute
    access on None, or with the TypeError of a missing texture path. *)
Theorem setTextureBySlot_returns_True_or_raises :
  forall (Slots : Type) (Slots_eq : EqDecision Slots)
         (value : Slots -> key) (Normal : Slots)
         (material : ID) (slot : Slots) (texture_node : option ID)
         (texture_path : option string) (W : Type) (h : handler W) (w : W),
    let p :=
      MaterialUtilities.setTextureBySlot value Normal material slot
        texture_node texture_path in
    match outcome h p w with
    | Ok b => b = true
    | Err e =>
        raised h p w e \/ exn_type e = AttributeError \/ exn_type e = TypeError
    end.
Proof.
  intros Slots Slots_eq value Normal material slot texture_node texture_path
    W h w p.
  apply ends_outcome, setTextureBySlot_ends.
Qed.

(** X18: when a texture node is given, setTextureBySlot does not look at
    [texture_path]: the program is the same for every path, and on every
    host it loads no image, assigns no image and creates no node; the node
    given is linked as it is. *)
Theorem setTextureBySlot_with_a_node_ignores_the_path :
  forall (Slots : Type) (Slots_eq : EqDecision Slots)
         (value : Slots -> key) (Normal : Slots)
         (material : ID) (slot : Slots) (node : ID)
         (texture_path : option string),
    let p :=
      MaterialUtilities.setTextureBySlot value Normal material slot
        (Some node) texture_path in
    (forall texture_path' : option string,
        p = MaterialUtilities.setTextureBySlot value Normal material slot
              (Some node) texture_path') /\
    (forall (W : Type) (h : handler W) (w : W),
        Forall (fun c => ~ loads_or_creates c) (calls h p w)) /\
    (forall (W : Type) (h : handler W) (w : W) (s : step W)
            (tree from to : ID),
        s ∈ steps h p w ->
        link_of (step_call s) = Some (tree, from, to) ->
        exists w1 w2,
          h _ (node_outputs_getitem node (KInt 0)) w1 = (Ok from, w2) /\
          Step (Call (node_outputs_getitem node (KInt 0))) w1 None
          ∈ steps h p w).
Proof.
  intros Slots Slots_eq value Normal material slot node texture_path p.
  split_and!.
  - reflexivity.
  - intros W h w. apply always_calls.
    unfold p, MaterialUtilities.setTextureBySlot. cbn [bind].
    repeat always_step.
  - intros W h w s tree from to.
    unfold steps, p, MaterialUtilities.setTextureBySlot. cbn [bind].
    repeat (rewrite run_call_bind;
            lazymatch goal with
            | |- context [h ?X ?c w] =>
                destruct (h X c w) as [[? | ?] ?] eqn:?
            | |- context [h ?X ?c ?w'] =>
                destruct (h X c w') as [[? | ?] ?] eqn:?
            end;
            cbn [not_None bind run fst snd];
            try match goal with
                | x : option ID |- _ =>
                    destruct x; cbn [not_None bind run fst snd]
                end).
    all: intros Hin Hlink;
      repeat (apply elem_of_cons in Hin as [-> | Hin];
              [try discriminate Hlink | ]);
      try (by apply elem_of_nil in Hin).
    all: injection Hlink as -> -> ->.
    all: eexists _, _; split; [eassumption |];
      repeat first [apply list_elem_of_here | apply list_elem_of_further].
Qed.

(** X19: when no texture node is given and getTextureFromSlot finds a
    node linked to the slot, setTextureBySlot makes the calls of that
    lookup, loads the image at [texture_path] and assigns it to the node
    found, and returns True: it creates no node and makes no link, and
    the image that the node had is replaced. *)
Theorem setTextureBySlot_reuses_the_linked_node :
  forall (Slots : Type) (Slots_eq : EqDecision Slots)
         (value : Slots -> key) (Normal : Slots)
         (material : ID) (slot : Slots) (texture_path : string)
         (W : Type) (h : handler W) (w w1 w2 w3 : W)
         (t1 : list (step W)) (node img : ID),
    run h (MaterialUtilities.getTextureFromSlot value Normal material slot) w
    = (Ok (Some node), w1, t1) ->
    h _ (data_images_load texture_path true) w1 = (Ok img, w2) ->
    h _ (node_set_image node img) w2 = (Ok tt, w3) ->
    run h
      (MaterialUtilities.setTextureBySlot value Normal material slot None
         (Some texture_path)) w
    = (Ok true, w3,
       t1 ++ [Step (Call (data_images_load texture_path true)) w1 None;
              Step (Call (node_set_image node img)) w2 None]).
Proof.
  intros Slots Slots_eq value Normal material slot texture_path W h
    w w1 w2 w3 t1 node img Hget Hload Hset.
  unfold MaterialUtilities.setTextureBySlot.
  rewrite run_bind, run_bind, Hget. cbn [expect_str bind].
  rewrite run_call_bind, Hload, run_call_bind, Hset. cbn. by rewrite app_nil_r.
Qed.

(** The input "Base Color" of the example is linked from the image
    texture node 7: the image [new.png] is loaded and assigned to it. *)
Lemma setTextureBySlot_reuses_the_linked_node_witness :
  calls (host graph_oracle)
    (MaterialUtilities.setTextureBySlot example_value NormalMap 1 BaseColor
       None (Some "C:/tex/new.png")) example_linked
  = calls (host graph_oracle)
      (MaterialUtilities.getTextureFromSlot example_value NormalMap 1 BaseColor)
      example_linked
    ++ [Call (data_images_load "C:/tex/new.png" true);
        Call (node_set_image 7 100)].
Proof.
  set (get := MaterialUtilities.getTextureFromSlot example_value NormalMap 1
                BaseColor).
  set (w1 := final (host graph_oracle) get example_linked).
  set (t1 := steps (host graph_oracle) get example_linked).
  set (w2 := (host graph_oracle _ (data_images_load "C:/tex/new.png" true) w1).2).
  set (w3 := (host graph_oracle _ (node_set_image 7 100) w2).2).
  assert (run (host graph_oracle) get example_linked = (Ok (Some 7), w1, t1))
    as Hget by (vm_compute; reflexivity).
  assert (host graph_oracle _ (data_images_load "C:/tex/new.png" true) w1
          = (Ok 100, w2)) as Hload by (vm_compute; reflexivity).
  assert (host graph_oracle _ (node_set_image 7 100) w2 = (Ok tt, w3))
    as Hset by (vm_compute; reflexivity).
  pose proof (setTextureBySlot_reuses_the_linked_node
                example_slot _ example_value NormalMap 1 BaseColor
                "C:/tex/new.png" (World graph) (host graph_oracle)
                example_linked w1 w2 w3 t1 7 100 Hget Hload Hset) as Hrun.
  unfold calls, steps. rewrite Hrun. cbn [snd]. by rewrite map_app.
Defined.

(** ** The meshes that a purge removes *)

Lemma set_add_NoDup {A : Type} `{EqDecision A} (x : A) (s : list A) :
  NoDup s -> NoDup (set_add x s).
Proof.
  intros Hs. unfold set_add. case_bool_decide as Hx; [done |].
  apply NoDup_app. split_and!; [done | | apply NoDup_singleton].
  intros y Hy ->%list_elem_of_singleton. done.
Qed.

Lemma omap_id_NoDup {A : Type} (l : list (option A)) :
  NoDup l -> NoDup (omap id l).
Proof.
  induction 1 as [| x l Hx Hl IH]; cbn; [constructor |].
  destruct x as [a |]; cbn; [| done].
  constructor; [| done].
  intros (y & Hy & Heq)%list_elem_of_omap. cbn in Heq. by subst.
Qed.

Section Once.

Context {W : Type}.
Variable h : handler W.

Lemma calls_bind {A B : Type} (p : prog A) (f : A -> prog B) (w : W) :
  calls h (bind p f) w =
  calls h p w ++
  match outcome h p w with
  | Ok x => calls h (f x) (final h p w)
  | Err _ => []
  end.
Proof.
  unfold calls, steps, outcome, final. rewrite run_bind.
  destruct (run h p w) as [[[x | e] w1] t1]; cbn [fst snd].
  - destruct (run h (f x) w1) as [[r2 w2] t2]. cbn. apply map_app.
  - by rewrite app_nil_r.
Qed.

Lemma no_removed_mesh {R : Type} (p : prog R) (w : W) :
  always (fun c => removed_mesh c = None) p ->
  omap removed_mesh (calls h p w) = [].
Proof.
  intros Hp. pose proof (always_calls h _ p w Hp) as Hcalls.
  induction Hcalls as [| c cs Hc _ IH]; [done |].
  cbn. by rewrite Hc.
Qed.

(** A part without removals, followed by the rest. *)
Lemma once_after {A B : Type} (Q : A -> Prop) (p : prog A) (f : A -> prog B)
    (w : W) :
  always (fun c => removed_mesh c = None) p ->
  ends Q (fun _ => True) p ->
  (forall x w', Q x -> NoDup (omap removed_mesh (calls h (f x) w'))) ->
  NoDup (omap removed_mesh (calls h (bind p f) w)).
Proof.
  intros Hnone Hends Hrest.
  rewrite calls_bind, omap_app, no_removed_mesh by done. cbn [app].
  pose proof (ends_outcome h Q _ p w Hends) as Hout.
  destruct (outcome h p w) as [x | e]; [by apply Hrest | constructor].
Qed.

(** A part that removes, followed by a rest without removals. *)
Lemma once_before {A B : Type} (p : prog A) (f : A -> prog B) (w : W) :
  NoDup (omap removed_mesh (calls h p w)) ->
  (forall x, always (fun c => removed_mesh c = None) (f x)) ->
  NoDup (omap removed_mesh (calls h (bind p f) w)).
Proof.
  intros Hp Hrest. rewrite calls_bind, omap_app.
  destruct (outcome h p w) as [x | e].
  - by rewrite (no_removed_mesh (f x)), app_nil_r.
  - by rewrite app_nil_r.
Qed.

(** The removals of the loop over the orphans are a prefix of them. *)
Lemma remove_loop_calls (l : list (option ID)) (w : W) :
  omap removed_mesh
    (calls h (for_in l (fun mesh =>
                mesh <- expect_struct mesh;; call (data_meshes_remove mesh))) w)
  `prefix_of` omap id l.
Proof.
  revert w. induction l as [| m l IH]; intros w; [done |].
  cbn [for_in]. rewrite calls_bind.
  destruct m as [m |].
  - cbn [expect_struct bind]. unfold calls at 1, steps, outcome, final.
    rewrite run_call.
    destruct (h unit (data_meshes_remove m) w) as [[[] | e] w1]; cbn.
    + apply prefix_cons, IH.
    + apply prefix_cons, prefix_nil.
  - cbn. apply prefix_nil.
Qed.

End Once.

Lemma meshes_loop_ends (objs : list ID) (meshes : list (option ID)) :
  NoDup meshes ->
  ends (fun meshes' => NoDup meshes') (fun _ => True)
    (for_acc objs meshes (fun obj meshes =>
       t <- call (object_type obj);;
       meshes <- (if String.eqb t "MESH"
                  then d <- call (object_data obj);; Ret (set_add d meshes)
                  else Ret meshes);;
       call (data_objects_remove obj);;
       Ret meshes)).
Proof.
  revert meshes. induction objs as [| obj objs IH]; intros meshes Hnd; [done |].
  cbn [for_acc].
  apply ends_bind with (Q' := fun m => NoDup m); [| intros m Hm; by apply IH].
  change (forall t : string,
             ends (fun m => NoDup m) (fun _ => True)
               (meshes <- (if String.eqb t "MESH"
                           then d <- call (object_data obj);;
                                Ret (set_add d meshes)
                           else Ret meshes);;
                call (data_objects_remove obj);;
                Ret meshes)).
  intros t.
  apply ends_bind with (Q' := fun m => NoDup m).
  - destruct (String.eqb t "MESH"); [| done].
    intros d. by apply set_add_NoDup.
  - intros m Hm. by intros [].
Qed.

Lemma list_comp_if_sublist {A : Type} (l : list A) (cond : A -> prog bool) :
  (forall x, ends (fun _ => True) (fun _ => True) (cond x)) ->
  ends (fun r => r `sublist_of` l) (fun _ => True) (list_comp_if l cond).
Proof.
  intros Hcond. induction l as [| x l IH]; cbn [list_comp_if];
    [apply sublist_nil |].
  eapply ends_bind; [apply Hcond |]. intros b _.
  eapply ends_bind; [apply IH |]. intros ys Hys. cbn.
  destruct b; [by apply sublist_skip | by apply sublist_cons].
Qed.

(** X21: on every host and whatever it answers, no mesh is removed twice
    by purgeMeshObjectsFromCollection: the meshes of the objects are
    collected in a set, so that a mesh shared by several objects of the
    collection is removed once. *)
Theorem purge_removes_a_mesh_once :
  forall (collection_name : string)
         (remove_meshes remove_materials remove_images : bool)
         (W : Type) (h : handler W) (w : W),
    NoDup
      (omap removed_mesh
         (calls h
            (DataUtilities.purgeMeshObjectsFromCollection collection_name
               remove_meshes remove_materials remove_images) w)).
Proof.
  intros name rm rmat rimg W h w.
  unfold DataUtilities.purgeMeshObjectsFromCollection.
  apply once_after with (Q := fun _ => True);
    [by apply always_call | by apply ends_call |].
  intros objects w1 _.
  apply once_after with (Q := fun _ => True);
    [by apply always_call | by apply ends_call |].
  intros objs w2 _.
  apply once_after with (Q := fun meshes => NoDup meshes).
  { repeat always_step. }
  { apply meshes_loop_ends. constructor. }
  intros meshes w3 Hnd.
  apply once_before.
  - destruct rm; [| cbn; constructor].
    apply once_after with (Q := fun r => r `sublist_of` meshes).
    + repeat always_step.
    + apply list_comp_if_sublist. intros m. repeat no_try_step.
    + intros orphans w4 Hsub.
      destruct (remove_loop_calls h orphans w4) as [k Hk].
      assert (NoDup (omap id orphans)) as Hnd'
        by (apply omap_id_NoDup; by eapply sublist_NoDup).
      rewrite Hk in Hnd'. by apply NoDup_app in Hnd' as [? _].
  - intros []. destruct rmat, rimg; repeat always_step.
Qed.

(** X20: when [bpy.data.collections] has no collection with the name
    given, purgeMeshObjectsFromCollection ends with the KeyError of the
    subscript: it has made no other call, whatever the flags, and the
    state is as it was. *)
Theorem purge_of_a_missing_collection_raises_KeyError :
  forall (Ext : Type) (oracle : handler (World Ext)) (w : World Ext)
         (collection_name : string)
         (remove_meshes remove_materials remove_images : bool),
    let p :=
      DataUtilities.purgeMeshObjectsFromCollection collection_name
        remove_meshes remove_materials remove_images in
    first_named c_name (w_collections w) (data_collection_ids w) collection_name
    = None ->
    outcome (host oracle) p w = Err (key_not_found collection_name) /\
    final (host oracle) p w = w /\
    calls (host oracle) p w = [Call (data_collections_getitem collection_name)].
Proof.
  intros Ext oracle w name rm rmat rimg p Hnone.
  unfold outcome, final, calls, steps, p,
    DataUtilities.purgeMeshObjectsFromCollection.
  rewrite run_call_bind. cbn [host]. by rewrite Hnone.
Qed.

(** The example has no collection "Props". *)
Lemma purge_of_a_missing_collection_raises_KeyError_witness :
  outcome (host graph_oracle)
    (DataUtilities.purgeMeshObjectsFromCollection "Props" true true true)
    example_assets
  = Err (key_not_found "Props").
Proof.
  apply (purge_of_a_missing_collection_raises_KeyError
           graph graph_oracle example_assets "Props" true true true).
  vm_compute. reflexivity.
Defined.

(** ** joinObjects and the secondary parent *)

Lemma joinObjects_merge_never_removes depth a s :
  always (fun c => ~ removes_object c)
    (SceneUtilities.joinObjects depth a s false).
Proof.
  assert (forall d p r sp,
             always (fun c => ~ removes_object c)
               (SceneUtilities.selectChildren d p r sp)) as Hsel.
  { induction d as [| d IH]; intros p r sp;
      cbn [SceneUtilities.selectChildren]; [done |].
    repeat first [apply IH | always_step]. }
  unfold SceneUtilities.joinObjects.
  repeat first [apply Hsel | always_step].
Qed.

(** X22: on the reference host, when the merge part of joinObjects
    completes, joinObjects with [cleanup_empties] set returns normally and
    the secondary parent is no longer in [bpy.data.objects]: if the join
    has left it, it is removed and its children lose their parent, and if
    the join has destroyed it, the state is the one that the join left.
    Without [cleanup_empties] joinObjects never calls
    [bpy.data.objects.remove]. *)
Theorem joinObjects_leaves_no_secondary_parent :
  forall (Ext : Type) (oracle : handler (World Ext)) (w w1 : World Ext)
         (depth : nat) (active_parent secondary_parent : ID)
         (t1 : list (step (World Ext))),
    let p := SceneUtilities.joinObjects depth active_parent secondary_parent true in
    run (host oracle)
      (SceneUtilities.joinObjects depth active_parent secondary_parent false) w
    = (Ok tt, w1, t1) ->
    outcome (host oracle) p w = Ok tt /\
    w_objects (final (host oracle) p w) !! secondary_parent = None /\
    (is_Some (w_objects w1 !! secondary_parent) ->
     final (host oracle) p w = delete_object secondary_parent w1) /\
    (w_objects w1 !! secondary_parent = None -> final (host oracle) p w = w1) /\
    Forall (fun c => ~ removes_object c) (map step_call t1).
Proof.
  intros Ext oracle w w1 depth a s t1 p Hmerge.
  pose proof (joinObjects_cleanup (host oracle) w w1 depth a s t1 Hmerge)
    as Hrun.
  pose proof (always_calls (host oracle) _ _ w
                (joinObjects_merge_never_removes depth a s)) as Hnever.
  unfold calls, steps in Hnever. rewrite Hmerge in Hnever.
  unfold final, outcome, p. rewrite Hrun. cbn [host]. unfold with_object.
  destruct (w_objects w1 !! s) as [ob |] eqn:Hs; cbn [fst snd].
  - split_and!; [done | | done | done | done].
    rewrite delete_object_objects, lookup_fmap, lookup_delete_eq. done.
  - split_and!; [done | done | by intros [? ?] | done | done].
Qed.

(** The join of "Body" and "Arm" destroys "Arm", the secondary parent:
    nothing is left to remove, and joinObjects returns. *)
Lemma joinObjects_leaves_no_secondary_parent_witness :
  outcome (host graph_oracle) (SceneUtilities.joinObjects 3 1 2 true) two_meshes
  = Ok tt /\
  w_objects
    (final (host graph_oracle) (SceneUtilities.joinObjects 3 1 2 true)
       two_meshes) !! 2 = None.
Proof.
  set (w1 := final (host graph_oracle)
               (SceneUtilities.joinObjects 3 1 2 false) two_meshes).
  set (t1 := steps (host graph_oracle)
               (SceneUtilities.joinObjects 3 1 2 false) two_meshes).
  assert (H1 : run (host graph_oracle)
                 (SceneUtilities.joinObjects 3 1 2 false) two_meshes
               = (Ok tt, w1, t1)) by (vm_compute; reflexivity).
  destruct (joinObjects_leaves_no_secondary_parent
              graph graph_oracle two_meshes w1 3 1 2 t1 H1)
    as (Hout & Hgone & _).
  by split.
Defined.

(** ** joinObjects up to the join *)

Section Join.

Context {Ext : Type}.
Variable oracle : handler (World Ext).

Lemma same_objects_refl (w : World Ext) : same_objects w w.
Proof.
  intros o. destruct (w_objects w !! o); constructor. by unfold reselected.
Qed.

Lemma same_objects_trans (a b c : World Ext) :
  same_objects a b -> same_objects b c -> same_objects a c.
Proof.
  intros H1 H2 o. specialize (H1 o). specialize (H2 o).
  destruct H1 as [x y Hxy |]; inversion H2 as [y' z Hyz |]; subst;
    constructor.
  unfold reselected in *. intuition congruence.
Qed.

Lemma same_objects_eq (w w' : World Ext) :
  w_objects w' = w_objects w -> same_objects w w'.
Proof. intros H o. rewrite H. apply same_objects_refl. Qed.

Lemma selects_only_same_objects (w w' : World Ext) :
  selects_only w w' -> same_objects w w'.
Proof.
  intros H o. destruct (selects_only_lookup w w' o H) as [a b Hab |];
    constructor.
  unfold selection_of in Hab. unfold reselected. tauto.
Qed.

Lemma same_objects_live (w w' : World Ext) (o : ID) :
  same_objects w w' ->
  is_Some (w_objects w !! o) <-> is_Some (w_objects w' !! o).
Proof. intros H. destruct (H o); split; intros [? ?]; done. Qed.

Lemma same_objects_child_of (w w' : World Ext) (p c : ID) :
  same_objects w w' -> child_of w p c <-> child_of w' p c.
Proof.
  intros H. unfold child_of.
  destruct (H c) as [a b (_ & _ & _ & Hp & _) |]; cbn; [by rewrite Hp | done].
Qed.

Lemma same_objects_descendant (w w' : World Ext) (p o : ID) :
  same_objects w w' -> descendant w p o <-> descendant w' p o.
Proof.
  intros H. split.
  - induction 1 as [p c Hc | p c o Hc _ IH].
    + apply descendant_child. by apply (same_objects_child_of w w').
    + eapply descendant_step; [by apply (same_objects_child_of w w') | done].
  - induction 1 as [p c Hc | p c o Hc _ IH].
    + apply descendant_child. by apply (same_objects_child_of w w').
    + eapply descendant_step; [by apply (same_objects_child_of w w') | done].
Qed.

Lemma same_objects_within (depth : nat) (w w' : World Ext) (p : ID) :
  same_objects w w' -> within depth w p -> within depth w' p.
Proof.
  intros H. revert p. induction depth as [| depth IH]; intros p; [done |].
  cbn. intros [Hp Hc]. split; [by apply (same_objects_live w w') |].
  intros c Hcp. apply IH, Hc. by apply (same_objects_child_of w w').
Qed.

Lemma same_objects_parents_exist (w w' : World Ext) :
  same_objects w w' -> parents_exist w -> parents_exist w'.
Proof.
  intros H Hp o ob q Ho Hq.
  pose proof (H o) as Hoo. rewrite Ho in Hoo.
  inversion Hoo as [a b (_ & _ & _ & Hpar & _) Ha |]; subst.
  apply (same_objects_live w w'); [done |].
  eapply Hp; [by symmetry | congruence].
Qed.

(** [select_all(action='DESELECT')] *)
Lemma host_deselect_all (w : World Ext) :
  exists w',
    host oracle _ (ops_object_select_all "DESELECT") w = (Ok tt, w') /\
    same_objects w w' /\ forall o, ~ selected w' o.
Proof.
  exists (set_objects
            (fmap (fun x =>
               mkObject (o_name x) (o_type x) (o_data x) (o_parent x) false
                 (o_location x) (o_rotation_euler x))) w).
  split; [reflexivity |]. split.
  - intros o. cbn [w_objects set_objects]. rewrite lookup_fmap.
    destruct (w_objects w !! o); constructor. by unfold reselected.
  - intros o. unfold selected. cbn [w_objects set_objects].
    rewrite lookup_fmap. by destruct (w_objects w !! o).
Qed.

(** The answers of the host about an object, in a state with the same
    objects. *)
Lemma host_name (w : World Ext) (x : ID) (ob : object) :
  w_objects w !! x = Some ob ->
  host oracle _ (id_name x) w = (Ok (o_name ob), w).
Proof. intros H. cbn. unfold name_of_id. by rewrite H. Qed.

Lemma host_type (w : World Ext) (x : ID) (ob : object) :
  w_objects w !! x = Some ob ->
  host oracle _ (object_type x) w = (Ok (o_type ob), w).
Proof. intros H. cbn. unfold with_object. by rewrite H. Qed.

Lemma host_parent (w : World Ext) (x : ID) (ob : object) :
  w_objects w !! x = Some ob ->
  host oracle _ (object_parent x) w = (Ok (o_parent ob), w).
Proof. intros H. cbn. unfold with_object. by rewrite H. Qed.

Lemma host_set_active (w : World Ext) (x : ID) (ob : object) :
  w_objects w !! x = Some ob ->
  host oracle _ (view_layer_objects_set_active x) w
  = (Ok tt, set_active_object (Some x) w).
Proof. intros H. cbn. unfold with_object. by rewrite H. Qed.

(** The meshes of the scene. *)
Lemma scene_meshes_run (w : World Ext) (l : list ID) :
  Forall (fun o => is_Some (w_objects w !! o)) l ->
  exists r t,
    run (host oracle)
      (list_comp_if l (fun m =>
         t <- call (object_type m);; Ret (String.eqb t "MESH"))) w
    = (Ok r, w, t) /\
    Forall (fun o => is_Some (w_objects w !! o)) r.
Proof.
  induction 1 as [| x l [ob Hx] Hl (r & t & Hrun & Hr)]; cbn [list_comp_if].
  - by exists [], [].
  - rewrite run_bind, run_call_bind, (host_type w x ob) by done. cbn [run].
    rewrite run_bind, Hrun. cbn [run].
    eexists _, _. split; [reflexivity |].
    destruct (String.eqb (o_type ob) "MESH"); [| done].
    constructor; [by eexists | done].
Qed.

Lemma scene_names_run (w : World Ext) (l : list ID) :
  Forall (fun o => is_Some (w_objects w !! o)) l ->
  exists names t,
    run (host oracle) (list_comp l (fun x => call (id_name x))) w
    = (Ok names, w, t).
Proof.
  induction 1 as [| x l [ob Hx] Hl (names & t & Hrun)]; cbn [list_comp].
  - by exists [], [].
  - rewrite run_bind, run_call, (host_name w x ob) by done.
    rewrite run_bind, Hrun. cbn [run]. by eexists _, _.
Qed.

(** The choice of the active object. *)
Lemma active_choice_run (w0 w : World Ext) (active_parent : ID)
    (l : list ID) :
  w_objects w = w_objects w0 ->
  is_Some (w_objects w0 !! active_parent) ->
  parents_exist w0 ->
  Forall (fun o => is_Some (w_objects w0 !! o)) l ->
  exists r w' t,
    run (host oracle)
      (for_flow (R := Empty_set) l (fun mesh =>
         n <- call (id_name mesh);;
         an <- call (id_name active_parent);;
         if String.eqb n an then
           n <- call (id_name mesh);;
           call (print ("JOIN from mesh: mesh name - " +:+ n));;
           call (view_layer_objects_set_active mesh);;
           Ret Break
         else
           p <- call (object_parent mesh);;
           match p with
           | None => Ret Next
           | Some _ =>
               an <- call (id_name active_parent);;
               p <- call (object_parent mesh);;
               p <- not_None p "name";;
               pn <- call (id_name p);;
               if String.eqb an pn then
                 p <- call (object_parent mesh);;
                 p <- not_None p "name";;
                 pn <- call (id_name p);;
                 n <- call (id_name mesh);;
                 call (print ("JOIN: parent name - " +:+ pn +:+ " from mesh " +:+ n));;
                 call (view_layer_objects_set_active mesh);;
                 Ret Break
               else Ret Next
           end)) w
    = (Ok r, w', t) /\
    w_objects w' = w_objects w0.
Proof.
  intros Hw [oba Ha] Hparents Hl. revert w Hw.
  induction Hl as [| x l [ob Hx] Hl IH]; intros w Hw; cbn [for_flow].
  - by exists None, w, [].
  - rewrite <- Hw in Ha, Hx.
    rewrite run_bind.
    rewrite run_call_bind, (host_name w x ob) by done.
    rewrite run_call_bind, (host_name w active_parent oba) by done.
    destruct (String.eqb (o_name ob) (o_name oba)).
    + rewrite run_call_bind, (host_name w x ob) by done.
      rewrite run_call_bind, host_print.
      rewrite run_call_bind, (host_set_active _ x ob) by done.
      cbn [run]. by eexists _, _, _.
    + rewrite run_call_bind, (host_parent w x ob) by done.
      destruct (o_parent ob) as [q |] eqn:Hq.
      * destruct (Hparents x ob q) as [obq Hobq]; [by rewrite <- Hw | done |].
        rewrite <- Hw in Hobq.
        rewrite run_call_bind, (host_name w active_parent oba) by done.
        rewrite run_call_bind, (host_parent w x ob), Hq by done.
        cbn [not_None bind].
        rewrite run_call_bind, (host_name w q obq) by done.
        destruct (String.eqb (o_name oba) (o_name obq)).
        -- rewrite run_call_bind, (host_parent w x ob), Hq by done.
           cbn [not_None bind].
           rewrite run_call_bind, (host_name w q obq) by done.
           rewrite run_call_bind, (host_name w x ob) by done.
           rewrite run_call_bind, host_print.
           rewrite run_call_bind, (host_set_active _ x ob) by done.
           cbn [run]. by eexists _, _, _.
        -- cbn [run].
           destruct (IH w Hw) as (r & w' & t & Hrun & Hw').
           rewrite Hrun. by eexists _, _, _.
      * cbn [run].
        destruct (IH w Hw) as (r & w' & t & Hrun & Hw').
        rewrite Hrun. by eexists _, _, _.
Qed.

End Join.

(** X23: on the reference host, when the two parents exist, the recursion
    over their hierarchies fits the stack and the parent of every object
    exists, joinObjects reaches the join operator, and the selection that
    the operator is invoked with is exactly the two parents and their
    descendants: what was selected before has been deselected, and up to
    the join nothing else has changed in the objects. *)
Theorem joinObjects_joins_the_two_hierarchies :
  forall (Ext : Type) (oracle : handler (World Ext)) (w : World Ext)
         (depth : nat) (active_parent secondary_parent : ID)
         (cleanup_empties : bool),
    let p :=
      SceneUtilities.joinObjects depth active_parent secondary_parent
        cleanup_empties in
    within depth w active_parent ->
    within depth w secondary_parent ->
    parents_exist w ->
    exists t wj e rest,
      steps (host oracle) p w = t ++ Step (Call ops_object_join) wj e :: rest /\
      same_objects w wj /\
      forall o,
        selected wj o <->
        o = active_parent \/ o = secondary_parent \/
        descendant w active_parent o \/ descendant w secondary_parent o.
Proof.
  intros Ext oracle w depth a s cleanup p Ha Hs Hparents.
  destruct (host_deselect_all oracle w) as (wA & HA & HsameA & HnoneA).
  destruct (selectChildren_run oracle depth wA a true)
    as (wB & tB & HrunB & HonlyB & HselB).
  { by apply (same_objects_within depth w wA). }
  assert (same_objects w wB) as HsameB.
  { eapply same_objects_trans; [done |]. by apply selects_only_same_objects. }
  destruct (selectChildren_run oracle depth wB s true)
    as (wC & tC & HrunC & HonlyC & HselC).
  { by apply (same_objects_within depth w wB). }
  assert (same_objects w wC) as HsameC.
  { eapply same_objects_trans; [done |]. by apply selects_only_same_objects. }
  assert (Forall (fun o => is_Some (w_objects wC !! o))
            (map_to_list (w_objects wC)).*1) as Hkeys.
  { apply Forall_forall. intros o ([k ob] & -> & Hin)%list_elem_of_fmap.
    apply elem_of_map_to_list in Hin. by eexists. }
  destruct (scene_meshes_run oracle wC _ Hkeys) as (r & tr & Hrunr & Hr).
  destruct (scene_names_run oracle wC r Hr) as (names & tn & Hrunn).
  set (wD := set_stdout
               (fun out => out ++ ["Scene meshes: " +:+ repr_list names]) wC).
  destruct (active_choice_run oracle wC wD a r) as (f & wE & tE & HrunE & HwE);
    [done | by apply (same_objects_live w wC); [| destruct depth; [| apply Ha]]
    | by apply (same_objects_parents_exist w wC) | done |].
  assert (forall o,
             selected wE o <->
             o = a \/ o = s \/ descendant w a o \/ descendant w s o) as Hsel.
  { intros o. unfold selected at 1. rewrite HwE.
    fold (selected wC o). rewrite HselC, HselB.
    rewrite <- (same_objects_descendant w wA) by done.
    rewrite <- (same_objects_descendant w wB) by done.
    pose proof (HnoneA o). intuition congruence. }
  assert (same_objects w wE) as HsameE.
  { eapply same_objects_trans; [exact HsameC |]. by apply same_objects_eq. }
  unfold steps, p, SceneUtilities.joinObjects.
  rewrite run_call_bind, HA.
  rewrite run_bind, HrunB. rewrite run_bind, HrunC.
  rewrite run_call_bind. cbn [host].
  rewrite run_bind, Hrunr. rewrite run_bind, Hrunn.
  rewrite run_call_bind, host_print. fold wD.
  rewrite run_bind, HrunE. rewrite run_call_bind.
  set (pre := Step (Call (ops_object_select_all "DESELECT")) w None
              :: tB ++ tC ++ Step (Call scene_objects) wC None
              :: tr ++ tn
              ++ Step (Call (print ("Scene meshes: " +:+ repr_list names))) wC
                   None
              :: tE).
  destruct (host oracle unit ops_object_join wE) as [[[] | e] wF].
  - match goal with
    | |- context [run (host oracle) ?q wF] =>
        destruct (run (host oracle) q wF) as [[r' w'] t']
    end.
    exists pre, wE, None, t'. split; [| by split].
    unfold pre. cbn [snd].
    repeat first [rewrite <- app_assoc | progress cbn [app]]. reflexivity.
  - exists pre, wE, (Some e), []. split; [| by split].
    unfold pre. cbn [snd].
    repeat first [rewrite <- app_assoc | progress cbn [app]]. reflexivity.
Qed.

(** In the hierarchy of the example "Arm", a descendant of "Root", is
    selected at the join. *)
Lemma joinObjects_joins_the_two_hierarchies_witness :
  exists t wj e rest,
    steps (host graph_oracle) (SceneUtilities.joinObjects 4 1 4 false)
      example_hierarchy
    = t ++ Step (Call ops_object_join) wj e :: rest /\
    selected wj 3.
Proof.
  destruct (joinObjects_joins_the_two_hierarchies
              graph graph_oracle example_hierarchy 4 1 4 false)
    as (t & wj & e & rest & Hsteps & _ & Hsel).
  - apply within_b_sound. vm_compute. reflexivity.
  - apply within_b_sound. vm_compute. reflexivity.
  - intros o ob q Ho Hq.
    assert (q = 1 \/ q = 2) as [-> | ->]; [| vm_compute; by eexists ..].
    apply elem_of_map_to_list in Ho. vm_compute in Ho.
    apply elem_of_cons in Ho as [Ho | Ho];
      [injection Ho as -> ->; discriminate Hq |].
    apply elem_of_cons in Ho as [Ho | Ho];
      [injection Ho as -> ->; injection Hq as <-; by left |].
    apply elem_of_cons in Ho as [Ho | Ho];
      [injection Ho as -> ->; injection Hq as <-; by right |].
    apply elem_of_cons in Ho as [Ho | Ho];
      [injection Ho as -> ->; injection Hq as <-; by right |].
    apply elem_of_cons in Ho as [Ho | Ho];
      [injection Ho as -> ->; discriminate Hq |].
    by apply elem_of_nil in Ho.
  - exists t, wj, e, rest. split; [exact Hsteps |].
    apply Hsel. right. right. left.
    apply (descendant_step _ 1 2 3); [reflexivity |].
    apply descendant_child. reflexivity.
Defined.
